(** * EduSeva: the client-side cache manager and its callers

    A shallow embedding of [src/lib/cache.ts] (the [CacheManager] class) and
    of the handlers that drive it ([processFiles] in [PDFUpload.tsx],
    [handleGenerateQuiz] in [Quiz.tsx], [handleGenerate] in
    [QuestionPaper.tsx]), together with the part of the browser platform
    they run on: [localStorage], [JSON], [Date.now] and [console.error].

    Conventions of the embedding.
    - JavaScript values are the inductive type [value]. Numbers are the
      integers (timestamps and durations in milliseconds); fractions,
      infinities and the rounding of doubles are outside the model, and
      [NaN] only exists as the result of an arithmetic operation.
    - Strings are Rocq strings (code units below 256). [JSON.parse] reads
      the JSON texts whose numbers are integer literals and whose escapes
      stay below 256; any other text is outside its domain and is rejected
      like a malformed one.
    - Code runs in the monad [M]: it threads the [World] (storage, clock,
      console, notifications, timers) and ends in a completion, either
      [Normal] or [Throw]. *)

From Stdlib Require Import ZArith String Ascii List Bool Lia.
From Stdlib Require Import Decimal DecimalString DecimalZ.
From stdpp Require Import base option gmap strings list.

Set Warnings "-register-all".

Local Open Scope Z_scope.
Local Open Scope string_scope.

(** ** JavaScript values *)

Inductive value : Type :=
| VUndefined
| VNull
| VBool (b : bool)
| VNum (n : Z)
| VBigInt (n : Z)
| VStr (s : string)
| VArr (elems : list value)
| VObj (props : list (string * value)).

(** Result of an arithmetic operator: an integer or [NaN]. *)
Inductive number : Type :=
| Finite (n : Z)
| NaN.

(** Error objects. [Error] is what the API wrappers throw with
    [new Error(detail)]; the others are raised by the platform. All of them
    are instances of [Error] in JavaScript. *)
Inductive exn : Type :=
| Error (message : string)
| TypeError
| SyntaxError
| QuotaExceededError
| SecurityError.

(** [error.message]. The text of a platform error depends on the engine;
    the model fixes one text per kind. *)
Definition exn_message (e : exn) : string :=
  match e with
  | Error m => m
  | TypeError => "TypeError"
  | SyntaxError => "SyntaxError"
  | QuotaExceededError => "QuotaExceededError"
  | SecurityError => "SecurityError"
  end.

(** ** The world and the monad of effects *)

(** A call [toast.success(msg)] or [toast.error(msg)]. *)
Inductive Toast : Type :=
| ToastSuccess (msg : value)
| ToastError (msg : value).

(** A pending [setTimeout(() => navigate(path), delay)]. *)
Record Timer : Type := mkTimer { timer_delay : Z; timer_navigate : string }.

Record World : Type := mkWorld {
  (** contents of [window.localStorage] for this origin *)
  storage : gmap string string;
  (** number of characters (keys plus values) the origin may store *)
  quota : nat;
  (** access to [window.localStorage] is denied (it throws SecurityError) *)
  storage_blocked : bool;
  (** the value [Date.now()] returns *)
  clock : Z;
  (** calls to [console.error(label, error)], oldest first *)
  console : list (string * exn);
  (** notifications shown, oldest first *)
  toasts : list Toast;
  (** timers set, oldest first *)
  timers : list Timer
}.

Inductive Completion (A : Type) : Type :=
| Normal (a : A)
| Throw (e : exn).
Arguments Normal {A} a.
Arguments Throw {A} e.

(** A computation over a state [S]: the cache manager runs over the
    [World]; a component handler runs over its React state and the world. *)
Definition ST (S A : Type) : Type := S -> Completion A * S.

Definition M (A : Type) : Type := ST World A.

Definition ret {S A} (a : A) : ST S A := fun s => (Normal a, s).

Definition throw {S A} (e : exn) : ST S A := fun s => (Throw e, s).

Definition bind {S A B} (m : ST S A) (k : A -> ST S B) : ST S B :=
  fun s =>
    match m s with
    | (Normal a, s') => k a s'
    | (Throw e, s') => (Throw e, s')
    end.

(** [try { body } catch (error) { handler }] *)
Definition try_catch {S A} (body : ST S A) (handler : exn -> ST S A) : ST S A :=
  fun s =>
    match body s with
    | (Normal a, s') => (Normal a, s')
    | (Throw e, s') => handler e s'
    end.

(** [try { body } finally { final }], for a [final] block that neither
    returns nor throws. *)
Definition try_finally {S A} (body : ST S A) (final : ST S unit) : ST S A :=
  fun s =>
    match body s with
    | (c, s') => (c, snd (final s'))
    end.

Declare Scope js_scope.
Delimit Scope js_scope with js.
Notation "'let!' x ':=' m 'in' k" := (bind m (fun x => k))
  (at level 10, x name, m at level 100, k at level 200) : js_scope.
Notation "m ;; k" := (bind m (fun _ => k))
  (at level 100, k at level 200, right associativity) : js_scope.
Local Open Scope js_scope.

(** The state after running [m], and its completion. *)
Definition exec {S A} (m : ST S A) (s : S) : S := snd (m s).
Definition eval {S A} (m : ST S A) (s : S) : Completion A := fst (m s).

(** ** Platform: clock, console, storage *)

Definition Date_now : M Z := fun w => (Normal (clock w), w).

Definition console_error (label : string) (error : exn) : M unit :=
  fun w =>
    (Normal tt,
     mkWorld (storage w) (quota w) (storage_blocked w) (clock w)
             (console w ++ [(label, error)]) (toasts w) (timers w)).

Definition set_storage (m : gmap string string) (w : World) : World :=
  mkWorld m (quota w) (storage_blocked w) (clock w)
          (console w) (toasts w) (timers w).

(** Characters held by the storage area: keys plus values. *)
Definition storage_size (m : gmap string string) : nat :=
  map_fold (fun k v acc => (String.length k + String.length v + acc)%nat) 0%nat m.

(** Evaluating the expression [localStorage]: throws when the browser
    denies access to storage. *)
Definition localStorage : M unit :=
  fun w => if storage_blocked w then (Throw SecurityError, w) else (Normal tt, w).

(** [Storage.getItem(key)]: the stored string, or [null] ([None]). *)
Definition getItem (key : string) : M (option string) :=
  fun w => (Normal (storage w !! key), w).

(** [Storage.setItem(key, value)]: throws QuotaExceededError and leaves the
    area unchanged when the new contents would not fit. *)
Definition setItem (key val : string) : M unit :=
  fun w =>
    let m := <[key := val]> (storage w) in
    if (storage_size m <=? quota w)%nat
    then (Normal tt, set_storage m w)
    else (Throw QuotaExceededError, w).

(** [Storage.removeItem(key)]: nothing happens when the key is absent. *)
Definition removeItem (key : string) : M unit :=
  fun w => (Normal tt, set_storage (delete key (storage w)) w).

(** ** Platform: JSON text

    [JSON.stringify] and [JSON.parse] for the values of the model. *)

Definition dquote : ascii := ascii_of_N 34.
Definition backslash : ascii := ascii_of_N 92.

Definition is_dquote (c : ascii) : bool := (N_of_ascii c =? 34)%N.

Definition hex_digit (n : N) : ascii :=
  if (n <? 10)%N then ascii_of_N (48 + n) else ascii_of_N (87 + n).

(** One code unit of a string, as QuoteJSONString writes it. *)
Definition escape_char (c : ascii) : string :=
  let n := N_of_ascii c in
  if (n =? 34)%N then String backslash (String dquote EmptyString)
  else if (n =? 92)%N then String backslash (String backslash EmptyString)
  else if (n =? 8)%N then String backslash "b"
  else if (n =? 9)%N then String backslash "t"
  else if (n =? 10)%N then String backslash "n"
  else if (n =? 12)%N then String backslash "f"
  else if (n =? 13)%N then String backslash "r"
  else if (n <? 32)%N then
    String backslash
      (String "u" (String "0" (String "0"
         (String (hex_digit (n / 16)) (String (hex_digit (n mod 16)) EmptyString)))))
  else String c EmptyString.

Fixpoint escape (s : string) : string :=
  match s with
  | EmptyString => EmptyString
  | String c r => escape_char c +:+ escape r
  end.

Definition quote (s : string) : string :=
  String dquote (escape s +:+ String dquote EmptyString).

(** Number::toString for an integer. *)
Definition Z_to_string (n : Z) : string := NilZero.string_of_int (Z.to_int n).

Fixpoint join_comma (ts : list string) : string :=
  match ts with
  | [] => EmptyString
  | [t] => t
  | t :: ts' => t +:+ "," +:+ join_comma ts'
  end.

(** SerializeJSONProperty. The outer option is [None] when serialization
    throws a TypeError (a BigInt); the inner one is [None] when the result is
    [undefined], which drops a property and prints as null in an array. *)
Fixpoint serialize (v : value) : option (option string) :=
  match v with
  | VUndefined => Some None
  | VNull => Some (Some "null")
  | VBool b => Some (Some (if b then "true" else "false"))
  | VNum n => Some (Some (Z_to_string n))
  | VBigInt _ => None
  | VStr s => Some (Some (quote s))
  | VArr elems =>
      match
        (fix go (l : list value) : option (list string) :=
           match l with
           | [] => Some []
           | x :: l' =>
               match serialize x, go l' with
               | Some t, Some ts => Some (default "null" t :: ts)
               | _, _ => None
               end
           end) elems
      with
      | Some ts => Some (Some ("[" +:+ join_comma ts +:+ "]"))
      | None => None
      end
  | VObj props =>
      match
        (fix go (l : list (string * value)) : option (list string) :=
           match l with
           | [] => Some []
           | (k, x) :: l' =>
               match serialize x, go l' with
               | Some (Some t), Some ts => Some ((quote k +:+ ":" +:+ t) :: ts)
               | Some None, Some ts => Some ts
               | _, _ => None
               end
           end) props
      with
      | Some ts => Some (Some ("{" +:+ join_comma ts +:+ "}"))
      | None => None
      end
  end.

(** The texts of the elements of an array and of the members of an object,
    as [serialize] computes them. *)
Fixpoint serialize_elements (l : list value) : option (list string) :=
  match l with
  | [] => Some []
  | x :: l' =>
      match serialize x, serialize_elements l' with
      | Some t, Some ts => Some (default "null" t :: ts)
      | _, _ => None
      end
  end.

Fixpoint serialize_members (l : list (string * value)) : option (list string) :=
  match l with
  | [] => Some []
  | (k, x) :: l' =>
      match serialize x, serialize_members l' with
      | Some (Some t), Some ts => Some ((quote k +:+ ":" +:+ t) :: ts)
      | Some None, Some ts => Some ts
      | _, _ => None
      end
  end.

(** [JSON.stringify(v)]: a string, or [undefined] ([None]); throws a
    TypeError on a value that has no JSON form. *)
Definition JSON_stringify (v : value) : M (option string) :=
  match serialize v with
  | Some t => ret t
  | None => throw TypeError
  end.

(** Conversion of an argument to a DOMString, as [setItem] does. *)
Definition DOMString (o : option string) : string := default "undefined" o.

(** JSON whitespace: space, tab, line feed, carriage return. *)
Definition is_ws (c : ascii) : bool :=
  let n := N_of_ascii c in
  ((n =? 32) || (n =? 9) || (n =? 10) || (n =? 13))%N.

Fixpoint skip_ws (s : string) : string :=
  match s with
  | String c r => if is_ws c then skip_ws r else s
  | EmptyString => EmptyString
  end.

(** [expect lit s]: the rest of [s] after the literal [lit]. *)
Fixpoint expect (lit s : string) : option string :=
  match lit with
  | EmptyString => Some s
  | String c lit' =>
      match s with
      | String c' s' => if Ascii.eqb c c' then expect lit' s' else None
      | EmptyString => None
      end
  end.

Definition hex_value (c : ascii) : option N :=
  let n := N_of_ascii c in
  if ((48 <=? n) && (n <=? 57))%N then Some (n - 48)%N
  else if ((97 <=? n) && (n <=? 102))%N then Some (n - 87)%N
  else if ((65 <=? n) && (n <=? 70))%N then Some (n - 55)%N
  else None.

(** The character a one-letter escape stands for. *)
Definition unescape (e : ascii) : option ascii :=
  let n := N_of_ascii e in
  if (n =? 34)%N then Some dquote
  else if (n =? 92)%N then Some backslash
  else if (n =? 47)%N then Some "/"%char
  else if (n =? 98)%N then Some (ascii_of_N 8)
  else if (n =? 116)%N then Some (ascii_of_N 9)
  else if (n =? 110)%N then Some (ascii_of_N 10)
  else if (n =? 102)%N then Some (ascii_of_N 12)
  else if (n =? 114)%N then Some (ascii_of_N 13)
  else None.

(** The four hex digits of a unicode escape, for code units below 256. *)
Definition unescape_hex (h1 h2 h3 h4 : ascii) : option ascii :=
  match hex_value h1, hex_value h2, hex_value h3, hex_value h4 with
  | Some 0%N, Some 0%N, Some a, Some b => Some (ascii_of_N (16 * a + b))
  | _, _, _, _ => None
  end.

(** The characters of a string literal after its opening quote, up to the
    closing quote, and the text that follows. *)
Fixpoint parse_string_body (s : string) : option (string * string) :=
  match s with
  | EmptyString => None
  | String c r =>
      let n := N_of_ascii c in
      if (n =? 34)%N then Some (EmptyString, r)
      else if (n =? 92)%N then
        match r with
        | String e r' =>
            if (N_of_ascii e =? 117)%N then
              match r' with
              | String h1 (String h2 (String h3 (String h4 r''))) =>
                  match unescape_hex h1 h2 h3 h4, parse_string_body r'' with
                  | Some c', Some (str, rest) => Some (String c' str, rest)
                  | _, _ => None
                  end
              | _ => None
              end
            else
              match unescape e, parse_string_body r' with
              | Some c', Some (str, rest) => Some (String c' str, rest)
              | _, _ => None
              end
        | EmptyString => None
        end
      else if (n <? 32)%N then None
      else
        match parse_string_body r with
        | Some (str, rest) => Some (String c str, rest)
        | None => None
        end
  end.

Definition digit_of (c : ascii) : option (uint -> uint) :=
  match c with
  | "0"%char => Some D0 | "1"%char => Some D1 | "2"%char => Some D2
  | "3"%char => Some D3 | "4"%char => Some D4 | "5"%char => Some D5
  | "6"%char => Some D6 | "7"%char => Some D7 | "8"%char => Some D8
  | "9"%char => Some D9
  | _ => None
  end.

(** The longest run of decimal digits at the head of [s]. *)
Fixpoint read_digits (s : string) : uint * string :=
  match s with
  | String c r =>
      match digit_of c with
      | Some d => let (ds, rest) := read_digits r in (d ds, rest)
      | None => (Nil, s)
      end
  | EmptyString => (Nil, EmptyString)
  end.

(** [starts_with c s]: the rest of [s] after the character [c]. *)
Definition starts_with (c : ascii) (s : string) : option string :=
  match s with
  | String c' r => if Ascii.eqb c c' then Some r else None
  | EmptyString => None
  end.

(** Does a fraction or an exponent follow? Such literals are not integers
    and have no value in the model. *)
Definition fraction_follows (s : string) : bool :=
  match s with
  | String c _ => Ascii.eqb c "." || Ascii.eqb c "e" || Ascii.eqb c "E"
  | EmptyString => false
  end.

(** An unsigned JSON integer: no leading zero except for zero itself. *)
Definition parse_unsigned (s : string) : option (Z * string) :=
  match read_digits s with
  | (Nil, _) => None
  | (D0 Nil, rest) => if fraction_follows rest then None else Some (0, rest)
  | (D0 _, _) => None
  | (ds, rest) => if fraction_follows rest then None else Some (Z.of_uint ds, rest)
  end.

Definition parse_number (s : string) : option (Z * string) :=
  match starts_with "-" s with
  | Some r =>
      match parse_unsigned r with
      | Some (n, rest) => Some (- n, rest)
      | None => None
      end
  | None => parse_unsigned s
  end.

(** CreateDataProperty on an object under construction: a repeated key
    keeps its place and takes the new value. *)
Fixpoint obj_set (k : string) (v : value) (o : list (string * value))
  : list (string * value) :=
  match o with
  | [] => [(k, v)]
  | (k', v') :: o' =>
      if String.eqb k k' then (k, v) :: o' else (k', v') :: obj_set k v o'
  end.

Definition obj_of_members (ms : list (string * value)) : list (string * value) :=
  fold_left (fun o kv => obj_set (fst kv) (snd kv) o) ms [].

(** The recursive-descent parser. [fuel] bounds the number of nested calls;
    [JSON_parse_text] gives enough of it for the whole text. *)
Fixpoint parse_value (fuel : nat) (s : string) : option (value * string) :=
  match fuel with
  | O => None
  | S fuel' =>
      match skip_ws s with
      | EmptyString => None
      | String c r =>
          if is_dquote c then
            match parse_string_body r with
            | Some (str, rest) => Some (VStr str, rest)
            | None => None
            end
          else if Ascii.eqb c "n" then
            option_map (pair VNull) (expect "ull" r)
          else if Ascii.eqb c "t" then
            option_map (pair (VBool true)) (expect "rue" r)
          else if Ascii.eqb c "f" then
            option_map (pair (VBool false)) (expect "alse" r)
          else if Ascii.eqb c "[" then
            match starts_with "]" (skip_ws r) with
            | Some rest => Some (VArr [], rest)
            | None =>
                match parse_elements fuel' r with
                | Some (l, rest) => Some (VArr l, rest)
                | None => None
                end
            end
          else if Ascii.eqb c "{" then
            match starts_with "}" (skip_ws r) with
            | Some rest => Some (VObj [], rest)
            | None =>
                match parse_members fuel' r with
                | Some (ms, rest) => Some (VObj (obj_of_members ms), rest)
                | None => None
                end
            end
          else
            match parse_number (String c r) with
            | Some (n, rest) => Some (VNum n, rest)
            | None => None
            end
      end
  end
with parse_elements (fuel : nat) (s : string) : option (list value * string) :=
  match fuel with
  | O => None
  | S fuel' =>
      match parse_value fuel' s with
      | Some (v, r) =>
          match starts_with "," (skip_ws r) with
          | Some r' =>
              match parse_elements fuel' r' with
              | Some (l, rest) => Some (v :: l, rest)
              | None => None
              end
          | None =>
              match starts_with "]" (skip_ws r) with
              | Some rest => Some ([v], rest)
              | None => None
              end
          end
      | None => None
      end
  end
with parse_members (fuel : nat) (s : string)
  : option (list (string * value) * string) :=
  match fuel with
  | O => None
  | S fuel' =>
      match starts_with dquote (skip_ws s) with
      | Some r =>
          match parse_string_body r with
          | Some (k, r1) =>
              match starts_with ":" (skip_ws r1) with
              | Some r2 =>
                  match parse_value fuel' r2 with
                  | Some (v, r3) =>
                      match starts_with "," (skip_ws r3) with
                      | Some r4 =>
                          match parse_members fuel' r4 with
                          | Some (ms, rest) => Some ((k, v) :: ms, rest)
                          | None => None
                          end
                      | None =>
                          match starts_with "}" (skip_ws r3) with
                          | Some rest => Some ([(k, v)], rest)
                          | None => None
                          end
                      end
                  | None => None
                  end
              | None => None
              end
          | None => None
          end
      | None => None
      end
  end.

(** The value of a whole JSON text; [None] is a SyntaxError. *)
Definition JSON_parse_text (s : string) : option value :=
  match parse_value (S (2 * String.length s)) s with
  | Some (v, rest) => match skip_ws rest with EmptyString => Some v | _ => None end
  | None => None
  end.

Definition JSON_parse (s : string) : M value :=
  match JSON_parse_text s with
  | Some v => ret v
  | None => throw SyntaxError
  end.

(** ** Platform: the operators the cache manager uses *)

Fixpoint obj_lookup (name : string) (o : list (string * value)) : option value :=
  match o with
  | [] => None
  | (k, v) :: o' => if String.eqb name k then Some v else obj_lookup name o'
  end.

(** Reading [o.name]. On [undefined] and [null] it throws; on an object it is
    the own property or [undefined]; primitives and arrays have none of the
    names the program reads, apart from [length]. *)
Definition GetV {S} (o : value) (name : string) : ST S value :=
  match o with
  | VUndefined | VNull => throw TypeError
  | VObj props => ret (default VUndefined (obj_lookup name props))
  | VStr s =>
      ret (if String.eqb name "length"
           then VNum (Z.of_nat (String.length s)) else VUndefined)
  | VArr l =>
      ret (if String.eqb name "length"
           then VNum (Z.of_nat (List.length l)) else VUndefined)
  | VBool _ | VNum _ | VBigInt _ => ret VUndefined
  end.

Definition ToBoolean (v : value) : bool :=
  match v with
  | VUndefined | VNull => false
  | VBool b => b
  | VNum n | VBigInt n => negb (n =? 0)%Z
  | VStr s => negb (String.eqb s EmptyString)
  | VArr _ | VObj _ => true
  end.

Fixpoint ToString (v : value) : string :=
  match v with
  | VUndefined => "undefined"
  | VNull => "null"
  | VBool b => if b then "true" else "false"
  | VNum n | VBigInt n => Z_to_string n
  | VStr s => s
  | VArr l =>
      join_comma
        ((fix go (l : list value) : list string :=
            match l with
            | [] => []
            | x :: l' =>
                match x with
                | VUndefined | VNull => EmptyString
                | _ => ToString x
                end :: go l'
            end) l)
  | VObj _ => "[object Object]"
  end.

(** White space that StringToNumber strips. *)
Definition is_str_ws (c : ascii) : bool :=
  let n := N_of_ascii c in
  ((n =? 9) || (n =? 10) || (n =? 11) || (n =? 12) || (n =? 13)
   || (n =? 32) || (n =? 160))%N.

Fixpoint skip_str_ws (s : string) : string :=
  match s with
  | String c r => if is_str_ws c then skip_str_ws r else s
  | EmptyString => EmptyString
  end.

Definition digits_then_ws (s : string) : option Z :=
  match read_digits s with
  | (Nil, _) => None
  | (ds, rest) =>
      match skip_str_ws rest with
      | EmptyString => Some (Z.of_uint ds)
      | _ => None
      end
  end.

(** StringToNumber, for the decimal integer literals. Other numeric forms
    (fractions, exponents, hexadecimal, Infinity) have no value in the model
    and read as [NaN] here. *)
Definition StringToNumber (s : string) : number :=
  match skip_str_ws s with
  | EmptyString => Finite 0
  | String "-"%char r =>
      match digits_then_ws r with Some n => Finite (- n) | None => NaN end
  | String "+"%char r =>
      match digits_then_ws r with Some n => Finite n | None => NaN end
  | r => match digits_then_ws r with Some n => Finite n | None => NaN end
  end.

(** ToNumber; it throws on a BigInt. *)
Definition ToNumber (v : value) : M number :=
  match v with
  | VUndefined => ret NaN
  | VNull => ret (Finite 0)
  | VBool b => ret (Finite (if b then 1 else 0))
  | VNum n => ret (Finite n)
  | VBigInt _ => throw TypeError
  | VStr s => ret (StringToNumber s)
  | VArr _ | VObj _ => ret (StringToNumber (ToString v))
  end.

(** [a - b] for a number [a]. *)
Definition js_sub (a : Z) (b : value) : M number :=
  let! nb := ToNumber b in
  ret (match nb with Finite n => Finite (a - n) | NaN => NaN end).

(** [a > b] for a number [a]: false as soon as one side is [NaN]. *)
Definition js_gt (a : number) (b : value) : M bool :=
  match b with
  | VBigInt n =>
      ret (match a with Finite x => (n <? x)%Z | NaN => false end)
  | _ =>
      let! nb := ToNumber b in
      ret (match a, nb with
           | Finite x, Finite y => (y <? x)%Z
           | _, _ => false
           end)
  end.

(** [v !== null] *)
Definition strict_not_null (v : value) : bool :=
  match v with
  | VNull => false
  | _ => true
  end.

(** ** [src/lib/cache.ts] *)

Definition CACHE_PREFIX : string := "eduseva_".

(** The type [CacheKey]: the values of the object [CACHE_KEYS]. *)
Inductive CacheKey : Type :=
| FLASHCARDS
| QUIZ
| MINDMAP
| SUMMARY
| QUESTION_PAPER
| PODCAST
| CHAT_HISTORY.

(** The string a key stands for. *)
Definition key_string (key : CacheKey) : string :=
  match key with
  | FLASHCARDS => "flashcards"
  | QUIZ => "quiz"
  | MINDMAP => "mindmap"
  | SUMMARY => "summary"
  | QUESTION_PAPER => "question_paper"
  | PODCAST => "podcast"
  | CHAT_HISTORY => "chat_history"
  end.

(** [Object.values(CACHE_KEYS)], in the order of the object literal. *)
Definition CACHE_KEYS : list CacheKey :=
  [FLASHCARDS; QUIZ; MINDMAP; SUMMARY; QUESTION_PAPER; PODCAST; CHAT_HISTORY].

Module CacheManager.

(** The storage key of a slot: the prefix followed by the slot name. *)
Definition getKey (key : CacheKey) : string :=
  CACHE_PREFIX +:+ key_string key.

(** [expiresIn?: number]: [None] when the argument is left out. *)
Definition optional_number (o : option Z) : value :=
  match o with
  | Some n => VNum n
  | None => VUndefined
  end.

(** [set(key, data, expiresIn?)]: stamps the data with the current time,
    serializes the item and stores it; any error is logged and swallowed. *)
Definition set (key : CacheKey) (data : value) (expiresIn : option Z) : M unit :=
  try_catch
    (let! timestamp := Date_now in
     let cacheItem :=
       VObj [("data", data);
             ("timestamp", VNum timestamp);
             ("expiresIn", optional_number expiresIn)] in
     localStorage ;;
     let! text := JSON_stringify cacheItem in
     setItem (getKey key) (DOMString text))
    (fun error => console_error "Error saving to cache:" error).

(** [remove(key)] *)
Definition remove (key : CacheKey) : M unit :=
  try_catch
    (localStorage ;;
     removeItem (getKey key))
    (fun error => console_error "Error removing from cache:" error).

(** [get(key)]: [null] when nothing (or the empty string) is stored; else
    the parsed item is checked for expiry, when its [expiresIn] is truthy,
    and either removed, with [null] returned, or its [data] is returned.
    Any error is logged and turned into [null]. *)
Definition get (key : CacheKey) : M value :=
  try_catch
    (localStorage ;;
     let! item := getItem (getKey key) in
     match item with
     | None | Some EmptyString => ret VNull
     | Some item =>
         let! cacheItem := JSON_parse item in
         let! expiresIn := GetV cacheItem "expiresIn" in
         let! isExpired :=
           (if ToBoolean expiresIn then
              let! now := Date_now in
              let! timestamp := GetV cacheItem "timestamp" in
              let! age := js_sub now timestamp in
              let! expiresIn' := GetV cacheItem "expiresIn" in
              js_gt age expiresIn'
            else ret false) in
         if isExpired then
           remove key ;;
           ret VNull
         else
           GetV cacheItem "data"
     end)
    (fun error =>
       console_error "Error reading from cache:" error ;;
       ret VNull).

(** [list.forEach(f)] *)
Fixpoint forEach {A} (l : list A) (f : A -> M unit) : M unit :=
  match l with
  | [] => ret tt
  | x :: l' => f x ;; forEach l' f
  end.

(** [clear()]: removes every slot of [CACHE_KEYS]. *)
Definition clear : M unit :=
  try_catch
    (forEach CACHE_KEYS (fun key => remove key))
    (fun error => console_error "Error clearing cache:" error).

(** [has(key)]: [get(key) !== null] *)
Definition has (key : CacheKey) : M bool :=
  let! v := get key in
  ret (strict_not_null v).

End CacheManager.

(** ** Components: what they share *)

(** Running a computation on the world from inside a component. *)
Definition liftW {Q A} (m : M A) : ST (Q * World) A :=
  fun s =>
    match m (snd s) with
    | (c, w') => (c, (fst s, w'))
    end.

(** A React state update. *)
Definition setState {Q} (f : Q -> Q) : ST (Q * World) unit :=
  fun s => (Normal tt, (f (fst s), snd s)).

(** [await p] for a promise that settles with [c]. *)
Definition await {S A} (c : Completion A) : ST S A := fun s => (c, s).

Definition toast_success (msg : value) : M unit :=
  fun w =>
    (Normal tt,
     mkWorld (storage w) (quota w) (storage_blocked w) (clock w)
             (console w) (toasts w ++ [ToastSuccess msg]) (timers w)).

Definition toast_error (msg : value) : M unit :=
  fun w =>
    (Normal tt,
     mkWorld (storage w) (quota w) (storage_blocked w) (clock w)
             (console w) (toasts w ++ [ToastError msg]) (timers w)).

(** [setTimeout(() => navigate(path), delay)] *)
Definition setTimeout_navigate (path : string) (delay : Z) : M unit :=
  fun w =>
    (Normal tt,
     mkWorld (storage w) (quota w) (storage_blocked w) (clock w)
             (console w) (toasts w) (timers w ++ [mkTimer delay path])).

(** [error instanceof Error]: every error object of the model is one. *)
Definition instanceof_Error (error : exn) : bool := true.

(** [error instanceof Error ? error.message : fallback] *)
Definition message_or (error : exn) (fallback : string) : value :=
  if instanceof_Error error then VStr (exn_message error) else VStr fallback.

Definition Array_isArray (v : value) : bool :=
  match v with
  | VArr _ => true
  | _ => false
  end.

(** Time passing between two calls: the clock moves by [d] milliseconds. *)
Definition advance (d : Z) (w : World) : World :=
  mkWorld (storage w) (quota w) (storage_blocked w) (clock w + d)
          (console w) (toasts w) (timers w).

(** ** [src/pages/Quiz.tsx] *)

Module Quiz.

Inductive Tab : Type := generate | take.

Record State : Type := mkState {
  activeTab : Tab;
  quiz : value;
  quizId : value;
  answers : value;
  submitted : bool;
  results : value;
  summary : value;
  isLoading : bool
}.

Definition setActiveTab (t : Tab) (st : State) : State :=
  mkState t (quiz st) (quizId st) (answers st) (submitted st)
          (results st) (summary st) (isLoading st).
Definition setQuiz (v : value) (st : State) : State :=
  mkState (activeTab st) v (quizId st) (answers st) (submitted st)
          (results st) (summary st) (isLoading st).
Definition setQuizId (v : value) (st : State) : State :=
  mkState (activeTab st) (quiz st) v (answers st) (submitted st)
          (results st) (summary st) (isLoading st).
Definition setAnswers (v : value) (st : State) : State :=
  mkState (activeTab st) (quiz st) (quizId st) v (submitted st)
          (results st) (summary st) (isLoading st).
Definition setSubmitted (b : bool) (st : State) : State :=
  mkState (activeTab st) (quiz st) (quizId st) (answers st) b
          (results st) (summary st) (isLoading st).
Definition setResults (v : value) (st : State) : State :=
  mkState (activeTab st) (quiz st) (quizId st) (answers st) (submitted st)
          v (summary st) (isLoading st).
Definition setSummary (v : value) (st : State) : State :=
  mkState (activeTab st) (quiz st) (quizId st) (answers st) (submitted st)
          (results st) v (isLoading st).
Definition setIsLoading (b : bool) (st : State) : State :=
  mkState (activeTab st) (quiz st) (quizId st) (answers st) (submitted st)
          (results st) (summary st) b.

(** The state the hooks start from: no quiz, nothing loading. *)
Definition initial : State :=
  mkState generate (VArr []) VNull (VObj []) false VNull VNull false.

(** [handleGenerateQuiz]; [settled] is how the promise returned by
    [generateQuiz(...)] settles. *)
Definition handleGenerateQuiz (settled : Completion value)
  : ST (State * World) unit :=
  setState (setIsLoading true) ;;
  try_finally
    (try_catch
       (let! response := await settled in
        let! quiz1 := GetV response "quiz" in
        let! questions1 := GetV quiz1 "questions" in
        let! quiz2 := GetV response "quiz" in
        let! quizId2 := GetV quiz2 "quizId" in
        liftW (CacheManager.set QUIZ
                 (VObj [("questions", questions1); ("quizId", quizId2)])
                 None) ;;
        let! quiz3 := GetV response "quiz" in
        let! questions3 := GetV quiz3 "questions" in
        setState (setQuiz questions3) ;;
        let! quiz4 := GetV response "quiz" in
        let! quizId4 := GetV quiz4 "quizId" in
        setState (setQuizId quizId4) ;;
        setState (setActiveTab take) ;;
        setState (setAnswers (VObj [])) ;;
        setState (setSubmitted false) ;;
        setState (setResults VNull) ;;
        setState (setSummary VNull) ;;
        liftW (toast_success (VStr "Quiz generated and cached!")))
       (fun error =>
          liftW (toast_error (message_or error "Failed to generate quiz"))))
    (setState (setIsLoading false)).

End Quiz.

(** ** [src/pages/QuestionPaper.tsx] *)

Module QuestionPaper.

Record State : Type := mkState {
  generated : bool;
  isLoading : bool;
  questions : value;
  (** the indices in the set [visibleAnswers] *)
  visibleAnswers : list Z
}.

Definition setGenerated (b : bool) (st : State) : State :=
  mkState b (isLoading st) (questions st) (visibleAnswers st).
Definition setIsLoading (b : bool) (st : State) : State :=
  mkState (generated st) b (questions st) (visibleAnswers st).
Definition setQuestions (v : value) (st : State) : State :=
  mkState (generated st) (isLoading st) v (visibleAnswers st).
Definition setVisibleAnswers (l : list Z) (st : State) : State :=
  mkState (generated st) (isLoading st) (questions st) l.

(** The state the hooks start from: no paper, nothing loading. *)
Definition initial : State := mkState false false (VArr []) [].

(** [handleGenerate]; [settled] is how the promise returned by
    [generateQuestionPaper(...)] settles. The call to [console.log] leaves
    no trace in the world. *)
Definition handleGenerate (settled : Completion value)
  : ST (State * World) unit :=
  setState (setIsLoading true) ;;
  try_finally
    (try_catch
       (let! response := await settled in
        let! success := GetV response "success" in
        let! ok :=
          (if ToBoolean success then
             let! paper := GetV response "questionPaper" in
             if ToBoolean paper then
               let! paper' := GetV response "questionPaper" in
               ret (Array_isArray paper')
             else ret false
           else ret false) in
        if (ok : bool) then
          let! paper1 := GetV response "questionPaper" in
          liftW (CacheManager.set QUESTION_PAPER paper1 None) ;;
          let! paper2 := GetV response "questionPaper" in
          setState (setQuestions paper2) ;;
          setState (setGenerated true) ;;
          setState (setVisibleAnswers []) ;;
          liftW (toast_success (VStr "Question paper generated and cached!"))
        else
          liftW (toast_error
                   (VStr "Failed to generate question paper - no data received")))
       (fun error =>
          liftW (console_error "Question paper generation error:" error) ;;
          liftW (toast_error
                   (message_or error "Failed to generate question paper"))))
    (setState (setIsLoading false)).

(** The [beforeunload] listener. *)
Definition handleBeforeUnload : M unit :=
  CacheManager.remove QUESTION_PAPER.

End QuestionPaper.

(** ** [src/components/PDFUpload.tsx] *)

Module PDFUpload.

Inductive Status : Type := uploading | processing | completed | error.

Record UploadedFile : Type := mkUploadedFile {
  id : string;
  name : string;
  size : Z;
  status : Status;
  progress : Z
}.

(** The component state read by [processFiles]. *)
Definition State : Type := list UploadedFile.

(** One file handed to [processFiles], with what the environment decides
    while it is processed: the identifier drawn from [Math.random], how
    often the progress timer fires during the upload, and how the promise
    of [uploadDocument(file)] settles. The timer only moves the progress
    shown; its firings after the promise has settled are not part of the
    model. *)
Record Upload : Type := mkUpload {
  file_name : string;
  file_size : Z;
  random_id : string;
  progress_ticks : nat;
  settled : Completion value
}.

Definition bump_progress (uid : string) (f : UploadedFile) : UploadedFile :=
  if String.eqb (id f) uid && (progress f <? 90)%Z
  then mkUploadedFile (id f) (name f) (size f) (status f) (progress f + 10)
  else f.

Definition mark (uid : string) (s : Status) (p : Z) (f : UploadedFile)
  : UploadedFile :=
  if String.eqb (id f) uid
  then mkUploadedFile (id f) (name f) (size f) s p
  else f.

Fixpoint repeat_ticks (n : nat) (tick : ST (State * World) unit)
  : ST (State * World) unit :=
  match n with
  | O => ret tt
  | S n' => tick ;; repeat_ticks n' tick
  end.

(** The body of the [for] loop for one file. *)
Definition processFile (u : Upload) : ST (State * World) unit :=
  let uploadedFile :=
    mkUploadedFile (random_id u) (file_name u) (file_size u) uploading 0 in
  setState (fun prev : State => (prev ++ [uploadedFile])%list) ;;
  try_catch
    (repeat_ticks (progress_ticks u)
       (setState (fun prev => map (bump_progress (id uploadedFile)) prev)) ;;
     let! response := await (settled u) in
     liftW CacheManager.clear ;;
     setState (fun prev => map (mark (id uploadedFile) completed 100) prev) ;;
     let! message := GetV response "message" in
     liftW (toast_success message) ;;
     liftW (setTimeout_navigate "/chat" 1000))
    (fun err =>
       setState (fun prev => map (mark (id uploadedFile) error 0) prev) ;;
       liftW (toast_error (message_or err "Upload failed"))).

Fixpoint for_of (l : list Upload) (body : Upload -> ST (State * World) unit)
  : ST (State * World) unit :=
  match l with
  | [] => ret tt
  | u :: l' => body u ;; for_of l' body
  end.

Definition processFiles (fileList : list Upload) : ST (State * World) unit :=
  match fileList with
  | [] => liftW (toast_error (VStr "Please select PDF files only"))
  | _ => for_of fileList processFile
  end.

End PDFUpload.

(** ** What a JSON round trip does to a value *)

(** The value [JSON.parse(JSON.stringify(v))] yields: properties holding
    [undefined] are dropped, [undefined] array elements become [null]. *)
Fixpoint normalise (v : value) : value :=
  match v with
  | VArr elems =>
      VArr ((fix go (l : list value) : list value :=
               match l with
               | [] => []
               | x :: l' =>
                   match x with
                   | VUndefined => VNull
                   | _ => normalise x
                   end :: go l'
               end) elems)
  | VObj props =>
      VObj (obj_of_members
              ((fix go (l : list (string * value)) : list (string * value) :=
                  match l with
                  | [] => []
                  | (k, x) :: l' =>
                      match x with
                      | VUndefined => go l'
                      | _ => (k, normalise x) :: go l'
                      end
                  end) props))
  | _ => v
  end.

Fixpoint normalise_elements (l : list value) : list value :=
  match l with
  | [] => []
  | x :: l' =>
      match x with
      | VUndefined => VNull
      | _ => normalise x
      end :: normalise_elements l'
  end.

Fixpoint normalise_members (l : list (string * value)) : list (string * value) :=
  match l with
  | [] => []
  | (k, x) :: l' =>
      match x with
      | VUndefined => normalise_members l'
      | _ => (k, normalise x) :: normalise_members l'
      end
  end.

Fixpoint distinct (l : list string) : bool :=
  match l with
  | [] => true
  | k :: l' => negb (existsb (String.eqb k) l') && distinct l'
  end.

(** A JSON-serializable value: built from null, booleans, numbers, strings,
    arrays and objects, the keys of an object being distinct. Such a value
    survives a JSON round trip unchanged. *)
Fixpoint JSON_serializable (v : value) : bool :=
  match v with
  | VUndefined | VBigInt _ => false
  | VNull | VBool _ | VNum _ | VStr _ => true
  | VArr elems =>
      (fix go (l : list value) : bool :=
         match l with
         | [] => true
         | x :: l' => JSON_serializable x && go l'
         end) elems
  | VObj props =>
      distinct (map fst props) &&
      (fix go (l : list (string * value)) : bool :=
         match l with
         | [] => true
         | (_, x) :: l' => JSON_serializable x && go l'
         end) props
  end.

(** Nested calls the parser makes on the text of a value. *)
Fixpoint cost (v : value) : nat :=
  match v with
  | VArr elems =>
      S ((fix go (l : list value) : nat :=
            match l with
            | [] => O
            | x :: l' => S (cost x + go l')
            end) elems)
  | VObj props =>
      S ((fix go (l : list (string * value)) : nat :=
            match l with
            | [] => O
            | (_, x) :: l' =>
                match x with
                | VUndefined => go l'
                | _ => S (cost x + go l')
                end
            end) props)
  | _ => 1
  end.

Fixpoint cost_elements (l : list value) : nat :=
  match l with
  | [] => O
  | x :: l' => S (cost x + cost_elements l')
  end.

Fixpoint cost_members (l : list (string * value)) : nat :=
  match l with
  | [] => O
  | (_, x) :: l' =>
      match x with
      | VUndefined => cost_members l'
      | _ => S (cost x + cost_members l')
      end
  end.

(** Characters a value's text may start with. *)
Definition value_start (c : ascii) : bool :=
  is_dquote c || Ascii.eqb c "n" || Ascii.eqb c "t" || Ascii.eqb c "f"
  || Ascii.eqb c "[" || Ascii.eqb c "{" || Ascii.eqb c "-"
  || match digit_of c with Some _ => true | None => false end.

(** What may follow the text of a value inside a larger text. *)
Definition terminated (rest : string) : Prop :=
  match rest with
  | EmptyString => True
  | String c _ => c = ","%char \/ c = "]"%char \/ c = "}"%char
  end.

(** The world after [console.error(label, e)]. *)
Definition log_error (label : string) (e : exn) (w : World) : World :=
  exec (console_error label e) w.

(** The object [set] stores, before it is serialized. *)
Definition cache_item (data : value) (timestamp : Z) (expiresIn : option Z) : value :=
  VObj [("data", data);
        ("timestamp", VNum timestamp);
        ("expiresIn", CacheManager.optional_number expiresIn)].

(** [set] went through: no error was logged. *)
Definition set_succeeds (key : CacheKey) (data : value) (expiresIn : option Z)
  (w : World) : Prop :=
  console (exec (CacheManager.set key data expiresIn) w) = console w.

(** A world for examples: empty storage of 1000 characters, clock at 100. *)
Definition w0 : World := mkWorld ∅ 1000 false 100 [] [] [].

(** Is [name] the storage key of one of the registered slots? *)
Definition is_cache_key (name : string) : bool :=
  existsb (fun key => String.eqb (CacheManager.getKey key) name) CACHE_KEYS.

(** The own property [name] of a value, if it is an object that has it. *)
Definition own_property (name : string) (v : value) : option value :=
  match v with
  | VObj props => obj_lookup name props
  | _ => None
  end.

(** Characters an integer literal may start with. *)
Definition number_start (c : ascii) : bool :=
  Ascii.eqb c "-" || match digit_of c with Some _ => true | None => false end.

(** A world in which every slot reads as a miss. *)
Definition cleared (w : World) : Prop :=
  storage_blocked w = true \/ forall key, storage w !! CacheManager.getKey key = None.

(** Is the value [undefined] or [null]? Reading a property of such a value
    throws. *)
Definition is_nullish (v : value) : bool :=
  match v with
  | VUndefined | VNull => true
  | _ => false
  end.

(** What [get] reads back for a stored [data]: [undefined] stays
    [undefined] (the property is dropped), anything else is normalised. *)
Definition JSON_roundtrip (data : value) : value :=
  match data with
  | VUndefined => VUndefined
  | _ => normalise data
  end.

(** [v] is read back from its own JSON text, whatever follows it. *)
Definition roundtrips (v : value) : Prop :=
  forall t, serialize v = Some (Some t) ->
  forall fuel rest, (cost v <= fuel)%nat -> terminated rest ->
  parse_value fuel (t +:+ rest) = Some (normalise v, rest).

(** ** Platform: further operators *)

(** [a || b] *)
Definition js_or (a b : value) : value := if ToBoolean a then a else b.

(** [a > n] for a number [n]: the left side is converted to a number, and
    the comparison is false when that gives [NaN]. *)
Definition gt_number (a : value) (n : Z) : bool :=
  match a with
  | VUndefined => false
  | VNull => (n <? 0)%Z
  | VBool b => (n <? (if b then 1 else 0))%Z
  | VNum x | VBigInt x => (n <? x)%Z
  | VStr s =>
      match StringToNumber s with Finite x => (n <? x)%Z | NaN => false end
  | VArr _ | VObj _ =>
      match StringToNumber (ToString a) with
      | Finite x => (n <? x)%Z
      | NaN => false
      end
  end.

(** [a?.length] *)
Definition optional_length {S} (a : value) : ST S value :=
  if is_nullish a then ret VUndefined else GetV a "length".

(** [a % b] on numbers: [NaN] when the divisor is zero or an operand is
    [NaN]; otherwise the remainder has the sign of the dividend. *)
Definition js_rem (a b : number) : number :=
  match a, b with
  | Finite x, Finite y => if (y =? 0)%Z then NaN else Finite (Z.rem x y)
  | _, _ => NaN
  end.

(** [a + b] on numbers. *)
Definition js_add (a b : number) : number :=
  match a, b with
  | Finite x, Finite y => Finite (x + y)
  | _, _ => NaN
  end.

(** Number::toString *)
Definition number_to_string (a : number) : string :=
  match a with
  | Finite x => Z_to_string x
  | NaN => "NaN"
  end.

(** The numeric value of [a + b] for a number [a]: the operands are added
    as numbers, or joined as strings when [b] is a string, an array or an
    object; a BigInt cannot be mixed in. *)
Definition plus_as_number (a : number) (b : value) : Completion number :=
  match b with
  | VUndefined => Normal NaN
  | VNull => Normal (js_add a (Finite 0))
  | VBool c => Normal (js_add a (Finite (if c then 1 else 0)))
  | VNum n => Normal (js_add a (Finite n))
  | VBigInt _ => Throw TypeError
  | VStr s => Normal (StringToNumber (number_to_string a +:+ s))
  | VArr _ | VObj _ =>
      Normal (StringToNumber (number_to_string a +:+ ToString b))
  end.

Fixpoint string_rev (s : string) : string :=
  match s with
  | EmptyString => EmptyString
  | String c r => string_rev r +:+ String c EmptyString
  end.

(** [s.trim()] *)
Definition trim (s : string) : string :=
  string_rev (skip_str_ws (string_rev (skip_str_ws s))).

(** ** [src/services/api.ts] *)

Definition API_BASE_URL : string := "https://eclipsewastaken-eduseva.hf.space".

(** What [fetch] is given: the address, the method, the headers and the
    body, which is a text or a form holding the file under its field name. *)
Inductive RequestBody : Type :=
| TextBody (text : option string)
| FormDataBody (fields : list (string * string)).

Record Request : Type := mkRequest {
  url : string;
  method : string;
  headers : list (string * string);
  body : RequestBody
}.

(** A response, as far as the wrappers look at it: [response.ok], and how
    the promise of [response.json()] settles. *)
Record Response : Type := mkResponse {
  ok : bool;
  json : Completion value
}.

(** The network: how the promise of [fetch(request)] settles. *)
Definition Fetch : Type := Request -> Completion Response.

(** [new Error(message)] for a message that is not [undefined]. *)
Definition new_Error (message : value) : exn := Error (ToString message).

Module Api.

(** An optional string or number parameter, [undefined] when left out. *)
Definition opt_str (o : option string) : value :=
  match o with Some s => VStr s | None => VUndefined end.
Definition opt_num (o : option Z) : value :=
  match o with Some n => VNum n | None => VUndefined end.

Definition json_headers : list (string * string) :=
  [("Content-Type", "application/json")].

Definition uploadDocument (fetch : Fetch) (file : string) : M value :=
  let formData := [("file", file)] in
  let! response :=
    await (fetch (mkRequest (API_BASE_URL +:+ "/api/upload") "POST" []
                    (FormDataBody formData))) in
  if negb (ok response) then
    let! error := await (json response) in
    let! detail := GetV error "detail" in
    throw (new_Error (js_or detail (VStr "Failed to upload document")))
  else
    await (json response).

Definition chat (fetch : Fetch) (question : string) (sessionId : option string)
  : M value :=
  let sessionId := match sessionId with Some s => s | None => "default" end in
  let! text :=
    JSON_stringify
      (VObj [("question", VStr question); ("sessionId", VStr sessionId)]) in
  let! response :=
    await (fetch (mkRequest (API_BASE_URL +:+ "/api/chat") "POST" json_headers
                    (TextBody text))) in
  if negb (ok response) then
    let! error := await (json response) in
    let! detail := GetV error "detail" in
    throw (new_Error (js_or detail (VStr "Failed to chat")))
  else
    await (json response).

Record FlashcardsParams : Type := mkFlashcardsParams {
  fc_documentId : option string;
  fc_topic : option string;
  fc_numCards : option Z;
  fc_difficulty : option string;
  fc_cardTypes : option (list string);
  fc_tags : option (list string)
}.

Definition opt_strs (o : option (list string)) : value :=
  match o with Some l => VArr (map VStr l) | None => VUndefined end.

Definition generateFlashcards (fetch : Fetch) (params : FlashcardsParams)
  : M value :=
  let! text :=
    JSON_stringify
      (VObj [("documentId", js_or (opt_str (fc_documentId params)) VNull);
             ("topic", js_or (opt_str (fc_topic params)) (VStr EmptyString));
             ("numCards", js_or (opt_num (fc_numCards params)) (VNum 10));
             ("difficulty",
              js_or (opt_str (fc_difficulty params)) (VStr "intermediate"));
             ("cardTypes",
              js_or (opt_strs (fc_cardTypes params))
                (VArr [VStr "basic"; VStr "concept"; VStr "application"]));
             ("tags", js_or (opt_strs (fc_tags params)) (VArr []))]) in
  let! response :=
    await (fetch (mkRequest (API_BASE_URL +:+ "/api/generate") "POST"
                    json_headers (TextBody text))) in
  if negb (ok response) then
    let! error := await (json response) in
    let! detail := GetV error "detail" in
    throw (new_Error (js_or detail (VStr "Failed to generate flashcards")))
  else
    await (json response).

Record QuestionPaperParams : Type := mkQuestionPaperParams {
  qp_documentId : option string;
  qp_oneMarkCount : option Z;
  qp_twoMarkCount : option Z;
  qp_threeMarkCount : option Z;
  qp_topic : option string;
  qp_difficulty : option string
}.

Definition generateQuestionPaper (fetch : Fetch) (params : QuestionPaperParams)
  : M value :=
  let! text :=
    JSON_stringify
      (VObj [("documentId", js_or (opt_str (qp_documentId params)) VNull);
             ("oneMarkCount", js_or (opt_num (qp_oneMarkCount params)) (VNum 10));
             ("twoMarkCount", js_or (opt_num (qp_twoMarkCount params)) (VNum 8));
             ("threeMarkCount",
              js_or (opt_num (qp_threeMarkCount params)) (VNum 8));
             ("topic", js_or (opt_str (qp_topic params)) (VStr EmptyString));
             ("difficulty",
              js_or (opt_str (qp_difficulty params)) (VStr "mixed"))]) in
  let! response :=
    await (fetch (mkRequest (API_BASE_URL +:+ "/api/question-paper") "POST"
                    json_headers (TextBody text))) in
  if negb (ok response) then
    let! error := await (json response) in
    let! detail := GetV error "detail" in
    throw (new_Error (js_or detail (VStr "Failed to generate question paper")))
  else
    await (json response).

Record QuizParams : Type := mkQuizParams {
  qz_documentId : option string;
  qz_numQuestions : option Z;
  qz_topic : option string;
  qz_difficulty : option string
}.

Definition generateQuiz (fetch : Fetch) (params : QuizParams) : M value :=
  let! text :=
    JSON_stringify
      (VObj [("documentId", js_or (opt_str (qz_documentId params)) VNull);
             ("numQuestions", js_or (opt_num (qz_numQuestions params)) (VNum 10));
             ("topic", js_or (opt_str (qz_topic params)) (VStr EmptyString));
             ("difficulty",
              js_or (opt_str (qz_difficulty params)) (VStr "medium"))]) in
  let! response :=
    await (fetch (mkRequest (API_BASE_URL +:+ "/api/quiz/generate") "POST"
                    json_headers (TextBody text))) in
  if negb (ok response) then
    let! error := await (json response) in
    let! detail := GetV error "detail" in
    throw (new_Error (js_or detail (VStr "Failed to generate quiz")))
  else
    await (json response).

(** [submitQuiz(quizId, answers)]; [quizId] is a string or [null]. *)
Definition submitQuiz (fetch : Fetch) (quizId : value) (answers : value)
  : M value :=
  let! text :=
    JSON_stringify
      (VObj [("quizId", js_or quizId VNull); ("answers", answers)]) in
  let! response :=
    await (fetch (mkRequest (API_BASE_URL +:+ "/api/quiz/submit") "POST"
                    json_headers (TextBody text))) in
  if negb (ok response) then
    let! error := await (json response) in
    let! detail := GetV error "detail" in
    throw (new_Error (js_or detail (VStr "Failed to submit quiz")))
  else
    await (json response).

(** [getPodcastAudioUrl(podcastId)] *)
Definition getPodcastAudioUrl (podcastId : value) : string :=
  API_BASE_URL +:+ "/api/podcast/stream/" +:+ ToString podcastId.

End Api.

(** ** [src/pages/Quiz.tsx], the other handlers *)

Module QuizHandlers.

(** The effect that runs on mount: load the cached quiz. *)
Definition loadCachedQuiz : ST (Quiz.State * World) unit :=
  let! cachedQuiz := liftW (CacheManager.get QUIZ) in
  if ToBoolean cachedQuiz then
    let! questions := GetV cachedQuiz "questions" in
    setState (Quiz.setQuiz (js_or questions (VArr []))) ;;
    let! quizId := GetV cachedQuiz "quizId" in
    setState (Quiz.setQuizId (js_or quizId VNull)) ;;
    let! questions' := GetV cachedQuiz "questions" in
    let! len := optional_length questions' in
    if gt_number len 0 then
      setState (Quiz.setActiveTab Quiz.take) ;;
      liftW (toast_success (VStr "Loaded cached quiz"))
    else ret tt
  else ret tt.

(** The own enumerable properties an object spread copies: those of an
    object, the indexed elements of an array, the indexed characters of a
    string, none for the other values. Properties are kept in the order they
    were added. *)
Fixpoint indexed {A} (f : A -> value) (i : nat) (l : list A)
  : list (string * value) :=
  match l with
  | [] => []
  | x :: l' => (Z_to_string (Z.of_nat i), f x) :: indexed f (S i) l'
  end.

Definition spread (v : value) : list (string * value) :=
  match v with
  | VObj props => props
  | VArr l => indexed (fun x => x) 0 l
  | VStr s => indexed (fun c => VStr (String c EmptyString)) 0 (list_ascii_of_string s)
  | _ => []
  end.

(** [handleAnswerChange(questionId, answer)] *)
Definition handleAnswerChange (questionId answer : string)
  : ST (Quiz.State * World) unit :=
  setState (fun st =>
              Quiz.setAnswers
                (VObj (obj_set questionId (VStr answer) (spread (Quiz.answers st))))
                st).

(** [handleSubmitQuiz]; [settled] is how the promise returned by
    [submitQuiz(quizId, answers)] settles. *)
Definition handleSubmitQuiz (settled : Completion value)
  : ST (Quiz.State * World) unit :=
  setState (Quiz.setIsLoading true) ;;
  try_finally
    (try_catch
       (let! response := await settled in
        let! results := GetV response "results" in
        setState (Quiz.setResults results) ;;
        let! summary := GetV response "summary" in
        setState (Quiz.setSummary summary) ;;
        setState (Quiz.setSubmitted true) ;;
        let! summary' := GetV response "summary" in
        let! score := GetV summary' "score" in
        liftW (toast_success
                 (VStr ("Quiz completed! Score: " +:+ ToString score +:+ "%"))))
       (fun error =>
          liftW (toast_error (message_or error "Failed to submit quiz"))))
    (setState (Quiz.setIsLoading false)).

End QuizHandlers.

(** ** [src/pages/QuestionPaper.tsx], the other handlers *)

Module QuestionPaperHandlers.

(** The effect that runs on mount: load the cached question paper. *)
Definition loadCachedPaper : ST (QuestionPaper.State * World) unit :=
  let! cachedPaper := liftW (CacheManager.get QUESTION_PAPER) in
  if ToBoolean cachedPaper && Array_isArray cachedPaper then
    setState (QuestionPaper.setQuestions cachedPaper) ;;
    setState (QuestionPaper.setGenerated true) ;;
    liftW (toast_success (VStr "Loaded cached question paper"))
  else ret tt.

(** The updater of [toggleAnswer(index)] on the set of visible answers, a
    set being the list of its elements in insertion order. *)
Definition toggle (index : Z) (prev : list Z) : list Z :=
  if existsb (Z.eqb index) prev
  then List.filter (fun i => negb (Z.eqb index i)) prev
  else (prev ++ [index])%list.

Definition toggleAnswer (index : Z) : ST (QuestionPaper.State * World) unit :=
  setState (fun st =>
              QuestionPaper.setVisibleAnswers
                (toggle index (QuestionPaper.visibleAnswers st)) st).

End QuestionPaperHandlers.

(** ** [src/components/PDFUpload.tsx], the other handlers *)

Module PDFUploadHandlers.

(** The whole component state: the drag flag and the files. *)
Record State : Type := mkState {
  isDragging : bool;
  files : PDFUpload.State
}.

(** Running a computation on the files inside the whole state. *)
Definition on_files {A} (m : ST (PDFUpload.State * World) A)
  : ST (State * World) A :=
  fun s =>
    match m (files (fst s), snd s) with
    | (c, (files', w')) => (c, (mkState (isDragging (fst s)) files', w'))
    end.

(** A file as it is dropped or selected: its MIME type, and the rest. *)
Record File : Type := mkFile {
  type : string;
  upload : PDFUpload.Upload
}.

Definition handleDragOver : ST (State * World) unit :=
  setState (fun st => mkState true (files st)).

Definition handleDragLeave : ST (State * World) unit :=
  setState (fun st => mkState false (files st)).

Definition handleDrop (dropped : list File) : ST (State * World) unit :=
  setState (fun st => mkState false (files st)) ;;
  let droppedFiles :=
    List.filter (fun file => String.eqb (type file) "application/pdf") dropped in
  on_files (PDFUpload.processFiles (map upload droppedFiles)).

(** [handleFileSelect]; [selected] is [e.target.files], if any. *)
Definition handleFileSelect (selected : option (list File))
  : ST (State * World) unit :=
  match selected with
  | Some selectedFiles =>
      on_files (PDFUpload.processFiles (map upload selectedFiles))
  | None => ret tt
  end.


End PDFUploadHandlers.

(** ** The chat component ([ChatInterface]) *)

Module ChatInterface.

Inductive Role : Type := user | assistant.

(** A message; [timestamp] is the time value of its [Date]. *)
Record Message : Type := mkMessage {
  id : string;
  role : Role;
  content : value;
  timestamp : Z
}.

Record State : Type := mkState {
  messages : list Message;
  input : string;
  isTyping : bool
}.

Definition initial : State := mkState [] EmptyString false.

Definition setMessages (f : list Message -> list Message) (st : State) : State :=
  mkState (f (messages st)) (input st) (isTyping st).
Definition setInput (s : string) (st : State) : State :=
  mkState (messages st) s (isTyping st).
Definition setIsTyping (b : bool) (st : State) : State :=
  mkState (messages st) (input st) b.

(** The effect that runs on mount: a fresh start. *)
Definition clearOnMount : ST (State * World) unit :=
  liftW (CacheManager.remove CHAT_HISTORY) ;;
  setState (setMessages (fun _ => [])).

(** Time passing while a request is awaited. *)
Definition elapse {Q} (d : Z) : ST (Q * World) unit :=
  fun s => (Normal tt, (fst s, advance d (snd s))).

(** [handleSend], called in a render whose [input] is the one of the state;
    the request takes [elapsed] milliseconds and [settled] is how the promise
    returned by [chat(input, "default")] settles. *)
Definition handleSend (elapsed : Z) (settled : Completion value)
  : ST (State * World) unit :=
  fun s =>
    let input := input (fst s) in
    (if String.eqb (trim input) EmptyString then ret tt
     else
       let! now := liftW Date_now in
       let userMessage := mkMessage (Z_to_string now) user (VStr input) now in
       setState (setMessages (fun prev => prev ++ [userMessage])%list) ;;
       setState (setInput EmptyString) ;;
       setState (setIsTyping true) ;;
       try_catch
         (elapse elapsed ;;
          let! response := await settled in
          setState (setIsTyping false) ;;
          let! now' := liftW Date_now in
          let! answer := GetV response "answer" in
          let! now'' := liftW Date_now in
          let aiMessage :=
            mkMessage (Z_to_string (now' + 1)) assistant answer now'' in
          setState (setMessages (fun prev => prev ++ [aiMessage])%list))
         (fun error =>
            setState (setIsTyping false) ;;
            liftW (toast_error (message_or error "Failed to get response")) ;;
            let! now' := liftW Date_now in
            let! now'' := liftW Date_now in
            let errorMessage :=
              mkMessage (Z_to_string (now' + 1)) assistant
                (VStr "Sorry, I encountered an error. Please make sure you've uploaded a document first.")
                now'' in
            setState (setMessages (fun prev => prev ++ [errorMessage])%list)))
      s.

End ChatInterface.

(** ** The flashcard component ([FlashcardView]) *)

Module FlashcardView.

Record State : Type := mkState {
  currentIndex : number;
  isFlipped : bool;
  flashcards : value;
  isLoading : bool
}.

Definition initial : State := mkState (Finite 0) false (VArr []) false.

Definition setCurrentIndex (f : number -> number) (st : State) : State :=
  mkState (f (currentIndex st)) (isFlipped st) (flashcards st) (isLoading st).
Definition setIsFlipped (b : bool) (st : State) : State :=
  mkState (currentIndex st) b (flashcards st) (isLoading st).
Definition setFlashcards (v : value) (st : State) : State :=
  mkState (currentIndex st) (isFlipped st) v (isLoading st).
Definition setIsLoading (b : bool) (st : State) : State :=
  mkState (currentIndex st) (isFlipped st) (flashcards st) b.

(** [loadFlashcards]; [settled] is how the promise returned by
    [generateFlashcards(...)] settles, should it be called. *)
Definition loadFlashcards (settled : Completion value)
  : ST (State * World) unit :=
  let! cachedFlashcards := liftW (CacheManager.get FLASHCARDS) in
  let! hit :=
    (if ToBoolean cachedFlashcards && Array_isArray cachedFlashcards then
       let! len := GetV cachedFlashcards "length" in
       ret (gt_number len 0)
     else ret false) in
  if (hit : bool) then
    setState (setFlashcards cachedFlashcards) ;;
    let! len := GetV cachedFlashcards "length" in
    liftW (toast_success
             (VStr ("Loaded " +:+ ToString len +:+ " cached flashcards")))
  else
    setState (setIsLoading true) ;;
    try_finally
      (try_catch
         (let! response := await settled in
          let! cards := GetV response "flashcards" in
          liftW (CacheManager.set FLASHCARDS cards None) ;;
          let! cards' := GetV response "flashcards" in
          setState (setFlashcards cards') ;;
          let! cards'' := GetV response "flashcards" in
          let! len := GetV cards'' "length" in
          liftW (toast_success
                   (VStr ("Generated " +:+ ToString len +:+ " flashcards"))))
         (fun error =>
            liftW (toast_error (message_or error "Failed to load flashcards"))))
      (setState (setIsLoading false)).

(** [(prev + 1) % flashcards.length], in a render whose [flashcards] is the
    one of the state. *)
Definition handleNext : ST (State * World) unit :=
  fun s =>
    let flashcards := flashcards (fst s) in
    (setState (setIsFlipped false) ;;
     (fun s' =>
        let prev := currentIndex (fst s') in
        (let! len := GetV flashcards "length" in
         let! n := liftW (ToNumber len) in
         setState (setCurrentIndex (fun _ => js_rem (js_add prev (Finite 1)) n)))
          s'))
      s.

(** [(prev - 1 + flashcards.length) % flashcards.length] *)
Definition handlePrevious : ST (State * World) unit :=
  fun s =>
    let flashcards := flashcards (fst s) in
    (setState (setIsFlipped false) ;;
     (fun s' =>
        let prev := currentIndex (fst s') in
        (let! len := GetV flashcards "length" in
         let! sum := await (plus_as_number (js_add prev (Finite (-1))) len) in
         let! len' := GetV flashcards "length" in
         let! n := liftW (ToNumber len') in
         setState (setCurrentIndex (fun _ => js_rem sum n)))
          s'))
      s.

Definition handleFlip : ST (State * World) unit :=
  fun s => setState (setIsFlipped (negb (isFlipped (fst s)))) s.

End FlashcardView.

(** How a wrapper settles, given how [fetch] did: a network failure is
    passed on; an ok response settles as its [json()] does; any other
    response rejects with the [detail] of its JSON body, or with the
    wrapper's own message when the detail is missing or falsy. *)
Definition settle (fallback : string) (fetched : Completion Response)
  : Completion value :=
  match fetched with
  | Throw e => Throw e
  | Normal response =>
      if ok response then json response
      else
        match json response with
        | Throw e => Throw e
        | Normal error =>
            if is_nullish error then Throw TypeError
            else
              Throw (new_Error
                       (js_or (default VUndefined (own_property "detail" error))
                          (VStr fallback)))
        end
  end.

(** [count || d] for an optional count: a count of zero, like a count left
    out, stands for the default. *)
Definition or_default (d : Z) (count : option Z) : option Z :=
  match count with
  | Some n => if (n =? 0)%Z then Some d else Some n
  | None => Some d
  end.

(** ** [src/pages/Summary.tsx] *)

Module Summary.

Record State : Type := mkState {
  generated : bool;
  isLoading : bool;
  summary : value
}.

Definition setGenerated (b : bool) (st : State) : State :=
  mkState b (isLoading st) (summary st).
Definition setIsLoading (b : bool) (st : State) : State :=
  mkState (generated st) b (summary st).
Definition setSummary (v : value) (st : State) : State :=
  mkState (generated st) (isLoading st) v.

(** The state the hooks start from: an empty summary. *)
Definition initial : State :=
  mkState false false
    (VObj [("overall", VStr EmptyString); ("pageWise", VArr []);
           ("keyTopics", VArr [])]).

(** [a ?? b], for a [b] that is evaluated only when it is needed. *)
Definition coalesce {S} (a : value) (b : ST S value) : ST S value :=
  if is_nullish a then b else ret a.

(** The effect that runs on mount: load the cached summary. *)
Definition loadCachedSummary : ST (State * World) unit :=
  let! cachedSummary := liftW (CacheManager.get SUMMARY) in
  if ToBoolean cachedSummary then
    let! overall := GetV cachedSummary "overall" in
    let! pageWise := GetV cachedSummary "pageWise" in
    let! keyTopics := GetV cachedSummary "keyTopics" in
    setState (setSummary
                (VObj [("overall", js_or overall (VStr EmptyString));
                       ("pageWise", js_or pageWise (VArr []));
                       ("keyTopics", js_or keyTopics (VArr []))])) ;;
    setState (setGenerated true) ;;
    liftW (toast_success (VStr "Loaded cached summary"))
  else ret tt.

(** [handleGenerate]; [settled] is how the promise returned by
    [summarizeDocument(...)] settles. The call to [console.log] leaves no
    trace in the world. *)
Definition handleGenerate (settled : Completion value)
  : ST (State * World) unit :=
  setState (setIsLoading true) ;;
  try_finally
    (try_catch
       (let! response := await settled in
        let! success := GetV response "success" in
        let! ok :=
          (if ToBoolean success then
             let! s := GetV response "summary" in
             ret (ToBoolean s)
           else ret false) in
        if (ok : bool) then
          let! s := GetV response "summary" in
          let! overall0 := GetV s "overall" in
          let! overall1 := coalesce overall0 (GetV s "overallSummary") in
          let! overall := coalesce overall1 (ret (VStr EmptyString)) in
          let! pageWise0 := GetV s "pageWise" in
          let! pageWise1 := coalesce pageWise0 (GetV s "pageWiseSummary") in
          let! pageWise := coalesce pageWise1 (ret (VArr [])) in
          let! keyTopics0 := GetV s "keyTopics" in
          let! keyTopics := coalesce keyTopics0 (ret (VArr [])) in
          let summaryData :=
            VObj [("overall", overall); ("pageWise", pageWise);
                  ("keyTopics", keyTopics)] in
          liftW (CacheManager.set SUMMARY summaryData None) ;;
          setState (setSummary summaryData) ;;
          setState (setGenerated true) ;;
          liftW (toast_success (VStr "Summary generated and cached!"))
        else
          liftW (toast_error
                   (VStr "Failed to generate summary - no data received")))
       (fun error =>
          liftW (console_error "Summary generation error:" error) ;;
          liftW (toast_error (message_or error "Failed to generate summary"))))
    (setState (setIsLoading false)).

(** The value of [a ?? b ?? c] for values already at hand. *)
Definition first_present (a b c : value) : value :=
  if is_nullish a then (if is_nullish b then c else b) else a.

End Summary.

(** ** [processFiles] of [src/components/PDFUpload.tsx], with its intervals

    The loop body again, this time keeping track of the interval that
    simulates the progress: which intervals are live, and which of them
    fire while the upload is awaited and afterwards. *)

Module UploadIntervals.

(** A live interval: its handle, and the identifier of the file whose
    progress its callback raises. *)
Record Interval : Type := mkInterval {
  handle : nat;
  target : string
}.

Record State : Type := mkState {
  files : PDFUpload.State;
  live : list Interval;
  next_handle : nat
}.

Definition setFiles (f : PDFUpload.State -> PDFUpload.State)
  : ST (State * World) unit :=
  setState (fun st => mkState (f (files st)) (live st) (next_handle st)).

(** [setInterval(callback, 300)], for the callback that raises the progress
    of the files with identifier [uid]; the result is the new handle. *)
Definition setInterval (uid : string) : ST (State * World) nat :=
  fun s =>
    let st := fst s in
    (Normal (next_handle st),
     (mkState (files st) (live st ++ [mkInterval (next_handle st) uid])%list
        (S (next_handle st)),
      snd s)).

(** [clearInterval(h)] *)
Definition clearInterval (h : nat) : ST (State * World) unit :=
  setState (fun st =>
              mkState (files st)
                (List.filter (fun i => negb (Nat.eqb (handle i) h)) (live st))
                (next_handle st)).

(** The timer with handle [h] fires: the callback of that interval runs,
    if the interval is live. *)
Definition fire (h : nat) : ST (State * World) unit :=
  fun s =>
    match List.find (fun i => Nat.eqb (handle i) h) (live (fst s)) with
    | Some i => setFiles (fun prev => map (PDFUpload.bump_progress (target i)) prev) s
    | None => (Normal tt, s)
    end.

Fixpoint fire_all (hs : list nat) : ST (State * World) unit :=
  match hs with
  | [] => ret tt
  | h :: hs' => fire h ;; fire_all hs'
  end.

(** One file handed to [processFiles], with what the environment decides
    while it is processed: the identifier drawn from [Math.random], the
    handles of the timers that fire while the upload is awaited, in order,
    and how the promise of [uploadDocument(file)] settles. *)
Record Upload : Type := mkUpload {
  file_name : string;
  file_size : Z;
  random_id : string;
  firings : list nat;
  settled : Completion value
}.

(** The body of the [for] loop for one file. *)
Definition processFile (u : Upload) : ST (State * World) unit :=
  let uploadedFile :=
    PDFUpload.mkUploadedFile (random_id u) (file_name u) (file_size u)
      PDFUpload.uploading 0 in
  setFiles (fun prev => (prev ++ [uploadedFile])%list) ;;
  try_catch
    (let! progressInterval := setInterval (PDFUpload.id uploadedFile) in
     fire_all (firings u) ;;
     let! response := await (settled u) in
     clearInterval progressInterval ;;
     liftW CacheManager.clear ;;
     setFiles (fun prev =>
                 map (PDFUpload.mark (PDFUpload.id uploadedFile)
                        PDFUpload.completed 100) prev) ;;
     let! message := GetV response "message" in
     liftW (toast_success message) ;;
     liftW (setTimeout_navigate "/chat" 1000))
    (fun err =>
       setFiles (fun prev =>
                   map (PDFUpload.mark (PDFUpload.id uploadedFile)
                          PDFUpload.error 0) prev) ;;
       liftW (toast_error (message_or err "Upload failed"))).

End UploadIntervals.
(** * Proofs *)

Lemma append_cons (x : ascii) (a b : string) :
  String x a +:+ b = String x (a +:+ b).
Proof. reflexivity. Qed.

Lemma append_nil (b : string) : EmptyString +:+ b = b.
Proof. reflexivity. Qed.

Ltac norm_app := repeat (rewrite append_cons || rewrite append_nil).

Lemma app_assoc_s (a b c : string) : (a +:+ b) +:+ c = a +:+ (b +:+ c).
Proof.
  induction a as [|x a IH]; norm_app; [reflexivity | f_equal; exact IH].
Qed.

Lemma length_app_s (a b : string) :
  String.length (a +:+ b) = (String.length a + String.length b)%nat.
Proof.
  induction a as [|x a IH]; norm_app; cbn; [reflexivity | by rewrite IH].
Qed.

(** ** String literals *)

Lemma parse_string_body_escape (s rest : string) :
  parse_string_body (escape s +:+ String dquote rest) = Some (s, rest).
Proof.
  induction s as [|c s IH]; [reflexivity|].
  cbn [escape]. rewrite app_assoc_s.
  set (tail := escape s +:+ String dquote rest) in *. clearbody tail.
  destruct c as [[] [] [] [] [] [] [] []];
    match goal with
    | |- context [escape_char ?c] =>
        let e := eval vm_compute in (escape_char c) in
        change (escape_char c) with e
    end; norm_app; cbn; rewrite IH; reflexivity.
Qed.

Lemma starts_with_quote (s rest : string) :
  starts_with dquote (quote s +:+ rest) = Some (escape s +:+ String dquote rest).
Proof. unfold quote. norm_app. cbn. by rewrite app_assoc_s. Qed.

(** ** Numbers *)

Lemma read_digits_uint (d : uint) (rest : string) :
  match rest with String c _ => digit_of c = None | EmptyString => True end ->
  read_digits (NilEmpty.string_of_uint d +:+ rest) = (d, rest).
Proof.
  intros Hrest. induction d; cbn [NilEmpty.string_of_uint]; norm_app; cbn;
    try (rewrite IHd; reflexivity).
  destruct rest as [|c r]; [reflexivity|]. cbn. rewrite Hrest. reflexivity.
Qed.

Lemma unorm_D0 (d d' : uint) : unorm d = D0 d' -> d' = Nil.
Proof.
  induction d; cbn; intros H; try discriminate; try (by inversion H); auto.
Qed.

Lemma to_uint_head (p : positive) :
  match Pos.to_uint p with Nil | D0 _ => False | _ => True end.
Proof.
  pose proof (DecimalPos.Unsigned.to_of (Pos.to_uint p)) as H.
  rewrite DecimalPos.Unsigned.of_to in H. cbn in H.
  pose proof (DecimalPos.Unsigned.to_uint_nonzero p) as Hz.
  destruct (Pos.to_uint p) eqn:E; try exact I.
  - symmetry in H. cbn in H. discriminate.
  - symmetry in H. apply unorm_D0 in H. subst. by destruct Hz.
Qed.

(** Induction on values, with the hypothesis available for every element of
    an array and every property of an object. *)
Lemma value_ind' (P : value -> Prop) :
  P VUndefined -> P VNull -> (forall b, P (VBool b)) -> (forall n, P (VNum n)) ->
  (forall n, P (VBigInt n)) -> (forall s, P (VStr s)) ->
  (forall l, Forall P l -> P (VArr l)) ->
  (forall l, Forall (fun kv => P (snd kv)) l -> P (VObj l)) ->
  forall v, P v.
Proof.
  intros Hundefined Hnull Hbool Hnum Hbigint Hstr Harr Hobj.
  fix IH 1. intros v. destruct v as [| |b|n|n|s|elems|props].
  - exact Hundefined.
  - exact Hnull.
  - apply Hbool.
  - apply Hnum.
  - apply Hbigint.
  - apply Hstr.
  - apply Harr. induction elems as [|x l IHl]; constructor; [apply IH | exact IHl].
  - apply Hobj. induction props as [|kv l IHl]; constructor; [apply IH | exact IHl].
Qed.

Lemma serialize_arr l :
  serialize (VArr l) =
  match serialize_elements l with
  | Some ts => Some (Some ("[" +:+ join_comma ts +:+ "]"))
  | None => None
  end.
Proof. reflexivity. Qed.

Lemma serialize_obj l :
  serialize (VObj l) =
  match serialize_members l with
  | Some ts => Some (Some ("{" +:+ join_comma ts +:+ "}"))
  | None => None
  end.
Proof. reflexivity. Qed.

Lemma normalise_arr l : normalise (VArr l) = VArr (normalise_elements l).
Proof. reflexivity. Qed.

Lemma normalise_obj l :
  normalise (VObj l) = VObj (obj_of_members (normalise_members l)).
Proof. reflexivity. Qed.

Lemma cost_arr l : cost (VArr l) = S (cost_elements l).
Proof. reflexivity. Qed.

Lemma cost_obj l : cost (VObj l) = S (cost_members l).
Proof. reflexivity. Qed.

Lemma value_start_facts c :
  value_start c = true ->
  is_ws c = false /\ Ascii.eqb "]" c = false /\ Ascii.eqb "}" c = false
  /\ Ascii.eqb "," c = false /\ Ascii.eqb ":" c = false.
Proof.
  destruct c as [[] [] [] [] [] [] [] []]; vm_compute; intros H;
    first [discriminate H | repeat split].
Qed.

Lemma number_start_facts c :
  number_start c = true ->
  is_ws c = false /\ is_dquote c = false /\ Ascii.eqb c "n" = false
  /\ Ascii.eqb c "t" = false /\ Ascii.eqb c "f" = false
  /\ Ascii.eqb c "[" = false /\ Ascii.eqb c "{" = false.
Proof.
  destruct c as [[] [] [] [] [] [] [] []]; vm_compute; intros H;
    first [discriminate H | repeat split].
Qed.

Lemma number_dispatch fuel c r :
  number_start c = true ->
  parse_value (S fuel) (String c r) =
  match parse_number (String c r) with
  | Some (n, rest) => Some (VNum n, rest)
  | None => None
  end.
Proof.
  intros H. apply number_start_facts in H.
  destruct H as (H1 & H2 & H3 & H4 & H5 & H6 & H7).
  cbn [parse_value skip_ws]. rewrite H1, H2, H3, H4, H5, H6, H7. reflexivity.
Qed.

Lemma terminated_facts rest :
  terminated rest ->
  match rest with String c _ => digit_of c = None | EmptyString => True end
  /\ fraction_follows rest = false.
Proof.
  destruct rest as [|c r]; cbn; [auto|].
  intros [-> | [-> | ->]]; split; reflexivity.
Qed.

Lemma parse_unsigned_uint d rest :
  terminated rest ->
  match d with Nil | D0 _ => False | _ => True end ->
  parse_unsigned (NilEmpty.string_of_uint d +:+ rest) = Some (Z.of_uint d, rest).
Proof.
  intros Hrest Hd. destruct (terminated_facts rest Hrest) as [Hdig Hfrac].
  unfold parse_unsigned. rewrite (read_digits_uint d rest Hdig).
  destruct d; try contradiction; rewrite Hfrac; reflexivity.
Qed.

Lemma of_uint_to_uint p : Z.of_uint (Pos.to_uint p) = Z.pos p.
Proof.
  unfold Z.of_uint. rewrite DecimalPos.Unsigned.of_to. reflexivity.
Qed.

Lemma string_of_to_uint p :
  NilZero.string_of_uint (Pos.to_uint p) = NilEmpty.string_of_uint (Pos.to_uint p).
Proof.
  pose proof (to_uint_head p) as H.
  unfold NilZero.string_of_uint. destruct (Pos.to_uint p); [contradiction | reflexivity ..].
Qed.

Lemma to_uint_text p :
  exists c r, NilEmpty.string_of_uint (Pos.to_uint p) = String c r
              /\ number_start c = true /\ Ascii.eqb "-" c = false.
Proof.
  pose proof (to_uint_head p) as H.
  destruct (Pos.to_uint p); try contradiction; cbn [NilEmpty.string_of_uint];
    eexists _, _; repeat split; reflexivity.
Qed.

Lemma parse_value_num fuel n rest :
  terminated rest ->
  parse_value (S fuel) (Z_to_string n +:+ rest) = Some (VNum n, rest).
Proof.
  intros Hrest. destruct n as [|p|p].
  - change (Z_to_string 0) with (NilEmpty.string_of_uint (D0 Nil)).
    destruct (terminated_facts rest Hrest) as [Hdig Hfrac].
    change (NilEmpty.string_of_uint (D0 Nil) +:+ rest) with (String "0" rest) at 1.
    rewrite number_dispatch by reflexivity.
    unfold parse_number. cbn [starts_with]. 
    change (Ascii.eqb "-" "0") with false. cbv iota.
    change (String "0" rest) with (NilEmpty.string_of_uint (D0 Nil) +:+ rest).
    unfold parse_unsigned. rewrite (read_digits_uint _ rest Hdig).
    rewrite Hfrac. reflexivity.
  - unfold Z_to_string, Z.to_int, NilZero.string_of_int.
    rewrite string_of_to_uint.
    destruct (to_uint_text p) as (c & r & E & Hc & Hm).
    rewrite E at 1. norm_app. rewrite number_dispatch by exact Hc.
    unfold parse_number. cbn [starts_with]. rewrite Hm.
    rewrite <- append_cons, <- E.
    rewrite parse_unsigned_uint; [| exact Hrest | apply to_uint_head].
    rewrite of_uint_to_uint. reflexivity.
  - unfold Z_to_string, Z.to_int, NilZero.string_of_int.
    rewrite string_of_to_uint. norm_app.
    rewrite number_dispatch by reflexivity.
    unfold parse_number. cbn [starts_with].
    change (Ascii.eqb "-" "-") with true. cbv iota.
    rewrite parse_unsigned_uint; [| exact Hrest | apply to_uint_head].
    rewrite of_uint_to_uint. reflexivity.
Qed.

(** ** Values *)

Lemma serialize_undefined v : serialize v = Some None -> v = VUndefined.
Proof.
  destruct v; try discriminate; [reflexivity | |].
  - rewrite serialize_arr. destruct (serialize_elements elems); discriminate.
  - rewrite serialize_obj. destruct (serialize_members props); discriminate.
Qed.

Lemma serialize_head v t :
  serialize v = Some (Some t) ->
  exists c r, t = String c r /\ value_start c = true.
Proof.
  destruct v; intros H; try discriminate.
  - inversion H. eexists _, _. split; reflexivity.
  - inversion H. destruct b; eexists _, _; split; reflexivity.
  - cbn [serialize] in H. inversion H. destruct n as [|p|p].
    + eexists _, _. split; reflexivity.
    + unfold Z_to_string, Z.to_int, NilZero.string_of_int.
      rewrite string_of_to_uint.
      destruct (to_uint_text p) as (c & r & E & Hc & Hm).
      exists c, r. split; [exact E|].
      unfold number_start in Hc. unfold value_start.
      destruct (is_dquote c), (Ascii.eqb c "n"), (Ascii.eqb c "t"),
        (Ascii.eqb c "f"), (Ascii.eqb c "["), (Ascii.eqb c "{"); try reflexivity.
      exact Hc.
    + eexists _, _. split; reflexivity.
  - inversion H. eexists _, _. split; reflexivity.
  - rewrite serialize_arr in H. destruct (serialize_elements elems); inversion H.
    eexists _, _. split; reflexivity.
  - rewrite serialize_obj in H. destruct (serialize_members props); inversion H.
    eexists _, _. split; reflexivity.
Qed.

(** Decide the tests on the punctuation of a text whose head is known. *)
Ltac closed_char c :=
  match c with
  | Ascii _ _ _ _ _ _ _ _ => idtac
  | dquote => idtac
  end.

Ltac char_test :=
  match goal with
  | |- context [is_ws ?c] =>
      closed_char c;
      let y := eval vm_compute in (is_ws c) in
      change (is_ws c) with y
  | |- context [is_dquote ?c] =>
      closed_char c;
      let y := eval vm_compute in (is_dquote c) in
      change (is_dquote c) with y
  | |- context [Ascii.eqb ?c ?d] =>
      closed_char c; closed_char d;
      let y := eval vm_compute in (Ascii.eqb c d) in
      change (Ascii.eqb c d) with y
  end.

Ltac punct :=
  norm_app; cbn [skip_ws starts_with];
  repeat (char_test; cbv iota; cbn [skip_ws starts_with]).

Lemma skip_ws_head c r : is_ws c = false -> skip_ws (String c r) = String c r.
Proof. intros H. cbn [skip_ws]. by rewrite H. Qed.

(** The text of an array element, which is null for [undefined]. *)
Lemma parse_element x o fuel rest :
  roundtrips x -> serialize x = Some o ->
  (cost x <= fuel)%nat -> terminated rest ->
  parse_value fuel (default "null" o +:+ rest) =
  Some (match x with VUndefined => VNull | _ => normalise x end, rest).
Proof.
  intros Hx Hs Hfuel Hrest. destruct o as [t|].
  - cbn [from_option id]. rewrite (Hx t Hs fuel rest Hfuel Hrest).
    destruct x; try reflexivity. discriminate Hs.
  - apply serialize_undefined in Hs. subst x. cbn [from_option id].
    destruct fuel as [|f]; [cbn in Hfuel; lia|]. reflexivity.
Qed.

Lemma element_head x o :
  serialize x = Some o ->
  exists c r, default "null" o = String c r /\ value_start c = true.
Proof.
  destruct o as [t|]; intros H.
  - exact (serialize_head x t H).
  - eexists _, _. split; reflexivity.
Qed.

Lemma serialize_elements_head x l ts :
  serialize_elements (x :: l) = Some ts ->
  exists c r, join_comma ts = String c r /\ value_start c = true.
Proof.
  cbn [serialize_elements]. destruct (serialize x) as [o|] eqn:E; [|discriminate].
  destruct (serialize_elements l) as [ts'|]; [|discriminate].
  intros H. inversion H. subst ts.
  destruct (element_head x o E) as (c & r & E' & Hc).
  destruct ts' as [|t2 ts''].
  - exists c, r. split; [exact E' | exact Hc].
  - cbn [join_comma]. rewrite E'. norm_app. eexists _, _. split; [reflexivity | exact Hc].
Qed.

Lemma parse_elements_text l :
  Forall roundtrips l ->
  forall ts, serialize_elements l = Some ts -> l <> [] ->
  forall fuel rest, (cost_elements l <= fuel)%nat ->
  parse_elements fuel (join_comma ts +:+ String "]" rest)
  = Some (normalise_elements l, rest).
Proof.
  induction 1 as [|x l Hx Hl IH]; intros ts Hs Hne fuel rest Hfuel; [congruence|].
  cbn [serialize_elements] in Hs.
  destruct (serialize x) as [o|] eqn:Ex; [|discriminate].
  destruct (serialize_elements l) as [ts'|] eqn:El; [|discriminate].
  inversion Hs; subst ts; clear Hs.
  cbn [cost_elements] in Hfuel. destruct fuel as [|f]; [lia|].
  cbn [parse_elements normalise_elements].
  destruct l as [|y l'].
  - cbn in El. inversion El; subst ts'. cbn [join_comma].
    rewrite (parse_element x o f (String "]" rest) Hx Ex); [| lia | norm_app; cbn; auto].
    punct. reflexivity.
  - destruct (serialize_elements_head y l' ts' El) as (c & r & Ej & Hc).
    assert (Hj : join_comma (default "null" o :: ts')
                 = default "null" o +:+ "," +:+ join_comma ts').
    { destruct ts'; [discriminate Ej | reflexivity]. }
    rewrite Hj, !app_assoc_s.
    rewrite (parse_element x o f _ Hx Ex); [| lia | norm_app; cbn; auto].
    punct.
    rewrite (IH ts' eq_refl ltac:(discriminate) f rest ltac:(cbn [cost_elements] in *; lia)).
    reflexivity.
Qed.

Lemma serialize_members_nil l :
  serialize_members l = Some [] -> normalise_members l = [].
Proof.
  induction l as [|[k x] l IH]; [reflexivity|].
  cbn [serialize_members normalise_members].
  destruct (serialize x) as [[t|]|] eqn:Ex; try discriminate.
  - destruct (serialize_members l); discriminate.
  - apply serialize_undefined in Ex. subst x.
    destruct (serialize_members l) as [ts|]; [|discriminate].
    intros H. inversion H; subst. apply IH. reflexivity.
Qed.

Lemma serialize_members_head l ts :
  serialize_members l = Some ts -> ts <> [] ->
  exists r, join_comma ts = String dquote r.
Proof.
  intros H Hne. destruct ts as [|t ts']; [congruence|].
  assert (Ht : exists r, t = String dquote r).
  { clear Hne. revert t ts' H. induction l as [|[k x] l IH]; intros t ts' H.
    - discriminate H.
    - cbn [serialize_members] in H.
      destruct (serialize x) as [[tx|]|]; try discriminate;
        destruct (serialize_members l) as [ts|] eqn:El; try discriminate.
      + inversion H. unfold quote. norm_app. eexists. reflexivity.
      + inversion H; subst. eapply IH. reflexivity. }
  destruct Ht as [r ->]. destruct ts'; cbn [join_comma]; norm_app; eexists; reflexivity.
Qed.

Lemma parse_members_text l :
  Forall (fun kv => roundtrips (snd kv)) l ->
  forall ts, serialize_members l = Some ts -> ts <> [] ->
  forall fuel rest, (cost_members l <= fuel)%nat ->
  parse_members fuel (join_comma ts +:+ String "}" rest)
  = Some (normalise_members l, rest).
Proof.
  induction 1 as [|[k x] l Hx Hl IH]; intros ts Hs Hne fuel rest Hfuel.
  { cbn in Hs. congruence. }
  cbn [serialize_members] in Hs. cbn [snd] in Hx.
  destruct (serialize x) as [[t|]|] eqn:Ex; try discriminate;
    destruct (serialize_members l) as [ts'|] eqn:El; try discriminate;
    inversion Hs; subst ts; clear Hs.
  - assert (Hnu : x <> VUndefined) by (intros ->; discriminate Ex).
    assert (Hn : normalise_members ((k, x) :: l)
                 = (k, normalise x) :: normalise_members l).
    { cbn [normalise_members]. destruct x; congruence. }
    assert (Hc : cost_members ((k, x) :: l) = S (cost x + cost_members l)).
    { cbn [cost_members]. destruct x; congruence. }
    rewrite Hn. rewrite Hc in Hfuel. destruct fuel as [|f]; [lia|].
    cbn [parse_members].
    destruct ts' as [|t2 ts''].
    + cbn [join_comma]. rewrite !app_assoc_s.
      unfold quote at 1. punct.
      rewrite app_assoc_s. norm_app.
      rewrite parse_string_body_escape. punct.
      rewrite (Hx t Ex f (String "}" rest)); [| lia | cbn; auto].
      punct. rewrite (serialize_members_nil l El). reflexivity.
    + assert (Hj : join_comma ((quote k +:+ ":" +:+ t) :: t2 :: ts'')
                   = (quote k +:+ ":" +:+ t) +:+ "," +:+ join_comma (t2 :: ts''))
        by reflexivity.
      rewrite Hj, !app_assoc_s.
      unfold quote at 1. punct.
      rewrite app_assoc_s. norm_app.
      rewrite parse_string_body_escape. punct.
      rewrite (Hx t Ex f _); [| lia | cbn; auto].
      punct.
      rewrite (IH (t2 :: ts'') eq_refl ltac:(discriminate) f rest ltac:(lia)).
      reflexivity.
  - apply serialize_undefined in Ex. subst x.
    cbn [normalise_members]. cbn [cost_members] in Hfuel.
    apply IH; [reflexivity | exact Hne | exact Hfuel].
Qed.

(** Every value that has a JSON text is read back from it, up to
    [normalise]. *)
Lemma parse_serialize v : roundtrips v.
Proof.
  induction v using value_ind'; intros t Hs fuel rest Hfuel Hrest;
    try discriminate Hs.
  - inversion Hs. destruct fuel as [|f]; [cbn in Hfuel; lia | reflexivity].
  - inversion Hs. destruct fuel as [|f]; [cbn in Hfuel; lia|].
    destruct b; reflexivity.
  - inversion Hs. destruct fuel as [|f]; [cbn in Hfuel; lia|].
    apply parse_value_num. exact Hrest.
  - inversion Hs. destruct fuel as [|f]; [cbn in Hfuel; lia|].
    unfold quote. norm_app. cbn [parse_value]. punct.
    rewrite app_assoc_s. norm_app. rewrite parse_string_body_escape. reflexivity.
  - rewrite serialize_arr in Hs.
    destruct (serialize_elements l) as [ts|] eqn:El; [|discriminate].
    inversion Hs; clear Hs. rewrite cost_arr in Hfuel.
    destruct fuel as [|f]; [lia|]. rewrite normalise_arr.
    rewrite !app_assoc_s. norm_app.
    cbn [parse_value]. punct.
    destruct l as [|x l'].
    + inversion El. reflexivity.
    + destruct (serialize_elements_head x l' ts El) as (c & r & Ej & Hc).
      destruct (value_start_facts c Hc) as (Hw & Hb & _).
      rewrite Ej at 1. norm_app. rewrite (skip_ws_head c _ Hw).
      cbn [starts_with]. rewrite Hb.
      rewrite (parse_elements_text (x :: l') H ts El ltac:(discriminate) f rest
                 ltac:(lia)).
      reflexivity.
  - rewrite serialize_obj in Hs.
    destruct (serialize_members l) as [ts|] eqn:El; [|discriminate].
    inversion Hs; clear Hs. rewrite cost_obj in Hfuel.
    destruct fuel as [|f]; [lia|]. rewrite normalise_obj.
    rewrite !app_assoc_s. norm_app.
    cbn [parse_value]. punct.
    destruct ts as [|t1 ts'].
    + rewrite (serialize_members_nil l El). reflexivity.
    + destruct (serialize_members_head l (t1 :: ts') El ltac:(discriminate)) as [r Ej].
      rewrite Ej at 1. norm_app. rewrite (skip_ws_head dquote _ eq_refl).
      punct.
      rewrite (parse_members_text l H (t1 :: ts') El ltac:(discriminate) f rest
                 ltac:(lia)).
      reflexivity.
Qed.

(** ** Enough fuel *)

Lemma append_empty_r (s : string) : s +:+ EmptyString = s.
Proof. induction s as [|c s IH]; norm_app; [reflexivity | by rewrite IH]. Qed.

Lemma length_quote k : String.length (quote k) = S (S (String.length (escape k))).
Proof.
  unfold quote. cbn [String.length]. rewrite length_app_s. cbn. lia.
Qed.

Lemma join_comma_cons t ts :
  String.length (join_comma (t :: ts)) =
  match ts with
  | [] => String.length t
  | _ => (String.length t + S (String.length (join_comma ts)))%nat
  end.
Proof.
  destruct ts; [reflexivity|]. cbn [join_comma].
  rewrite !length_app_s. reflexivity.
Qed.

Lemma cost_length v :
  forall t, serialize v = Some (Some t) -> (cost v <= String.length t)%nat.
Proof.
  induction v using value_ind'; intros t Hs; try discriminate Hs.
  - inversion Hs. cbn. lia.
  - inversion Hs. destruct b; cbn; lia.
  - destruct (serialize_head _ _ Hs) as (c & r & -> & _). cbn. lia.
  - inversion Hs. rewrite length_quote. cbn. lia.
  - rewrite serialize_arr in Hs.
    destruct (serialize_elements l) as [ts|] eqn:El; [|discriminate].
    inversion Hs; clear Hs. rewrite cost_arr.
    norm_app. cbn [String.length]. rewrite length_app_s. cbn [String.length].
    enough (cost_elements l <= S (String.length (join_comma ts)))%nat by lia.
    clear -H El. revert ts El.
    induction H as [|x l Hx Hl IH]; intros ts El; [cbn; lia|].
    cbn [serialize_elements] in El.
    destruct (serialize x) as [o|] eqn:Ex; [|discriminate].
    destruct (serialize_elements l) as [ts'|] eqn:El'; [|discriminate].
    inversion El; subst ts; clear El.
    specialize (IH ts' eq_refl). cbn [cost_elements]. rewrite join_comma_cons.
    assert (cost x <= String.length (default "null" o))%nat.
    { destruct o as [t|]; [apply Hx; reflexivity|].
      apply serialize_undefined in Ex. subst x. cbn. lia. }
    destruct l as [|y l'].
    + destruct ts'; cbn [cost_elements] in *; lia.
    + destruct ts' as [|t2 ts'']; [|lia].
      cbn [serialize_elements] in El'. exfalso.
      destruct (serialize y); [|discriminate].
      destruct (serialize_elements l'); discriminate.
  - rewrite serialize_obj in Hs.
    destruct (serialize_members l) as [ts|] eqn:El; [|discriminate].
    inversion Hs; clear Hs. rewrite cost_obj.
    norm_app. cbn [String.length]. rewrite length_app_s. cbn [String.length].
    enough (cost_members l <= S (String.length (join_comma ts)))%nat by lia.
    clear -H El. revert ts El.
    induction H as [|[k x] l Hx Hl IH]; intros ts El; [cbn; lia|].
    cbn [serialize_members] in El. cbn [snd] in Hx.
    destruct (serialize x) as [[t|]|] eqn:Ex; try discriminate;
      destruct (serialize_members l) as [ts'|]; try discriminate;
      inversion El; subst ts; clear El; specialize (IH ts' eq_refl).
    + assert (Hc : cost_members ((k, x) :: l) = S (cost x + cost_members l)).
      { cbn [cost_members]. destruct x; try reflexivity. discriminate Ex. }
      rewrite Hc, join_comma_cons, !length_app_s, length_quote.
      specialize (Hx t eq_refl). cbn [String.length].
      destruct ts'; [cbn [join_comma String.length] in IH|]; lia.
    + apply serialize_undefined in Ex. subst x. cbn [cost_members]. exact IH.
Qed.

(** [JSON.parse(JSON.stringify(v))] is [normalise v]. *)
Lemma JSON_parse_stringify v t :
  serialize v = Some (Some t) -> JSON_parse_text t = Some (normalise v).
Proof.
  intros Hs. unfold JSON_parse_text.
  pose proof (cost_length v t Hs) as Hc.
  assert (Hf : (cost v <= S (2 * String.length t))%nat) by lia.
  pose proof (parse_serialize v t Hs _ EmptyString Hf I) as Hp.
  rewrite append_empty_r in Hp. rewrite Hp. reflexivity.
Qed.

(** ** Serializable values *)

Lemma obj_set_fresh k v o :
  existsb (String.eqb k) (map fst o) = false ->
  obj_set k v o = (o ++ [(k, v)])%list.
Proof.
  induction o as [|[k' v'] o IH]; cbn [obj_set map fst existsb app]; [reflexivity|].
  destruct (String.eqb k k'); [discriminate|]. cbn [orb].
  intros H. by rewrite IH.
Qed.

Lemma obj_of_members_distinct_acc ms acc :
  distinct (map fst ms) = true ->
  forallb (fun k => negb (existsb (String.eqb k) (map fst acc))) (map fst ms) = true ->
  fold_left (fun o kv => obj_set (fst kv) (snd kv) o) ms acc = (acc ++ ms)%list.
Proof.
  revert acc. induction ms as [|[k v] ms IH]; intros acc Hd Hf.
  - cbn. by rewrite app_nil_r.
  - cbn [map fst distinct forallb fold_left snd] in *.
    apply andb_prop in Hd as [Hk Hd]. apply andb_prop in Hf as [Hka Hf].
    rewrite obj_set_fresh by (by apply negb_true_iff).
    rewrite IH; [by rewrite <- app_assoc | exact Hd |].
    clear IH. revert Hk Hf. generalize (map fst ms) as ks. clear.
    induction ks as [|k' ks IH]; [reflexivity|].
    cbn [existsb forallb]. intros Hk Hf.
    apply andb_prop in Hf as [Hk' Hf].
    rewrite negb_orb in Hk. apply andb_prop in Hk as [Hne Hk].
    rewrite IH by assumption. rewrite andb_true_r.
    rewrite map_app, existsb_app. cbn [map fst existsb].
    apply negb_true_iff in Hk'. rewrite Hk'. cbn [orb].
    rewrite orb_false_r. rewrite String.eqb_sym. exact Hne.
Qed.

Lemma obj_of_members_distinct ms :
  distinct (map fst ms) = true -> obj_of_members ms = ms.
Proof.
  intros H. unfold obj_of_members.
  rewrite obj_of_members_distinct_acc; [reflexivity | exact H |].
  generalize (map fst ms) as ks. intros ks.
  induction ks as [|k ks IH]; [reflexivity | exact IH].
Qed.

Lemma serializable_roundtrip v :
  JSON_serializable v = true ->
  normalise v = v /\ exists t, serialize v = Some (Some t).
Proof.
  induction v using value_ind'; intros Hs; try discriminate Hs;
    try (split; [reflexivity | eexists; reflexivity]).
  - (* arrays *)
    assert (Hl : normalise_elements l = l
                 /\ exists ts, serialize_elements l = Some ts).
    { change (JSON_serializable (VArr l)) with
        ((fix go (l : list value) : bool :=
            match l with
            | [] => true
            | x :: l' => JSON_serializable x && go l'
            end) l) in Hs.
      induction H as [|x l Hx Hl IH]; [split; [reflexivity | eexists; reflexivity]|].
      apply andb_prop in Hs as [Hsx Hsl].
      destruct (Hx Hsx) as [Hn [t Ht]]. destruct (IH Hsl) as [Hnl [ts Hts]].
      cbn [normalise_elements serialize_elements]. rewrite Hn, Hnl, Ht, Hts.
      split; [|eexists; reflexivity].
      destruct x; try reflexivity. discriminate Hsx. }
    destruct Hl as [Hn [ts Hts]].
    rewrite normalise_arr, serialize_arr, Hn, Hts.
    split; [reflexivity | eexists; reflexivity].
  - (* objects *)
    change (JSON_serializable (VObj l)) with
      (distinct (map fst l) &&
       (fix go (l : list (string * value)) : bool :=
          match l with
          | [] => true
          | (_, x) :: l' => JSON_serializable x && go l'
          end) l) in Hs.
    apply andb_prop in Hs as [Hd Hs].
    assert (Hl : normalise_members l = l
                 /\ exists ts, serialize_members l = Some ts).
    { clear Hd. induction H as [|[k x] l Hx Hl IH];
        [split; [reflexivity | eexists; reflexivity]|].
      apply andb_prop in Hs as [Hsx Hsl]. cbn [snd] in Hx.
      destruct (Hx Hsx) as [Hn [t Ht]]. destruct (IH Hsl) as [Hnl [ts Hts]].
      cbn [normalise_members serialize_members]. rewrite Hn, Hnl, Ht, Hts.
      split; [|eexists; reflexivity].
      destruct x; try reflexivity. discriminate Hsx. }
    destruct Hl as [Hn [ts Hts]].
    rewrite normalise_obj, serialize_obj, Hn, Hts, (obj_of_members_distinct l Hd).
    split; [reflexivity | eexists; reflexivity].
Qed.

(** ** The cache manager, operation by operation *)

Import CacheManager.

Lemma remove_run key w :
  remove key w =
  (Normal tt,
   if storage_blocked w
   then log_error "Error removing from cache:" SecurityError w
   else set_storage (delete (getKey key) (storage w)) w).
Proof.
  unfold remove, try_catch, bind, localStorage, removeItem, log_error, exec.
  destruct (storage_blocked w); reflexivity.
Qed.

Lemma forEach_remove_run l w :
  forEach l remove w =
  (Normal tt,
   if storage_blocked w
   then fold_left
          (fun w' _ => log_error "Error removing from cache:" SecurityError w') l w
   else set_storage
          (fold_left (fun m key => delete (getKey key) m) l (storage w)) w).
Proof.
  revert w. induction l as [|k l IH]; intros w; cbn [forEach fold_left].
  - unfold ret. destruct w as [m q b c co t ti]. cbn. destruct b; reflexivity.
  - unfold bind. rewrite remove_run.
    destruct (storage_blocked w) eqn:E; rewrite IH; cbn; rewrite E; reflexivity.
Qed.

Lemma clear_run w :
  clear w =
  (Normal tt,
   if storage_blocked w
   then fold_left
          (fun w' _ => log_error "Error removing from cache:" SecurityError w')
          CACHE_KEYS w
   else set_storage
          (fold_left (fun m key => delete (getKey key) m) CACHE_KEYS (storage w)) w).
Proof. unfold clear, try_catch. rewrite forEach_remove_run. reflexivity. Qed.

Lemma fold_delete_lookup (l : list CacheKey) (m : gmap string string) (k : string) :
  fold_left (fun m key => delete (getKey key) m) l m !! k =
  if existsb (fun key => String.eqb (getKey key) k) l then None else m !! k.
Proof.
  revert m. induction l as [|x l IH]; intros m; cbn [fold_left existsb]; [reflexivity|].
  rewrite IH. destruct (String.eqb_spec (getKey x) k) as [<-|Hne]; cbn [orb].
  - destruct (existsb _ l); [reflexivity|]. apply lookup_delete_eq.
  - destruct (existsb _ l); [reflexivity|]. by apply lookup_delete_ne.
Qed.

Lemma fold_log_storage (l : list CacheKey) label e w :
  storage (fold_left (fun w' _ => log_error label e w') l w) = storage w
  /\ storage_blocked (fold_left (fun w' _ => log_error label e w') l w)
     = storage_blocked w.
Proof.
  revert w. induction l as [|x l IH]; intros w; cbn [fold_left]; [auto|].
  destruct (IH (log_error label e w)) as [-> ->]. split; reflexivity.
Qed.

Lemma get_blocked key w :
  storage_blocked w = true ->
  get key w = (Normal VNull, log_error "Error reading from cache:" SecurityError w).
Proof.
  intros E. unfold get, try_catch, bind, localStorage. rewrite E. reflexivity.
Qed.

Lemma get_absent key w :
  storage_blocked w = false -> storage w !! getKey key = None ->
  get key w = (Normal VNull, w).
Proof.
  intros E H. unfold get, try_catch, bind, localStorage, getItem.
  rewrite E, H. reflexivity.
Qed.



Lemma set_run key data expiresIn w :
  set key data expiresIn w =
  (Normal tt,
   if storage_blocked w
   then log_error "Error saving to cache:" SecurityError w
   else
     match serialize (cache_item data (clock w) expiresIn) with
     | None => log_error "Error saving to cache:" TypeError w
     | Some text =>
         let m := <[getKey key := DOMString text]> (storage w) in
         if (storage_size m <=? quota w)%nat
         then set_storage m w
         else log_error "Error saving to cache:" QuotaExceededError w
     end).
Proof.
  unfold set, try_catch, bind, Date_now, localStorage, JSON_stringify, setItem.
  fold (cache_item data (clock w) expiresIn).
  destruct (storage_blocked w); [reflexivity|].
  destruct (serialize (cache_item data (clock w) expiresIn)) as [text|]; [|reflexivity].
  unfold ret. cbn zeta.
  destruct (storage_size _ <=? quota w)%nat; reflexivity.
Qed.

Lemma is_cache_key_spec name :
  is_cache_key name = true <-> exists key, name = getKey key.
Proof.
  unfold is_cache_key. rewrite existsb_exists. split.
  - intros (key & _ & H). exists key. symmetry. by apply String.eqb_eq.
  - intros (key & ->). exists key. split; [|apply String.eqb_refl].
    destruct key; cbn; tauto.
Qed.

Lemma clear_storage w name :
  storage (exec clear w) !! name =
  if storage_blocked w then storage w !! name
  else if is_cache_key name then None else storage w !! name.
Proof.
  unfold exec. rewrite clear_run. cbn [snd].
  destruct (storage_blocked w).
  - by destruct (fold_log_storage CACHE_KEYS "Error removing from cache:"
                   SecurityError w) as [-> _].
  - unfold set_storage. cbn [storage]. apply fold_delete_lookup.
Qed.

Lemma clear_blocked w : storage_blocked (exec clear w) = storage_blocked w.
Proof.
  unfold exec. rewrite clear_run. cbn [snd].
  destruct (storage_blocked w) eqn:E.
  - by destruct (fold_log_storage CACHE_KEYS "Error removing from cache:"
                   SecurityError w) as [_ ->].
  - exact E.
Qed.

Lemma cleared_get w key : cleared w -> eval (get key) w = Normal VNull.
Proof.
  intros [Hb | Hs]; unfold eval.
  - by rewrite get_blocked.
  - destruct (storage_blocked w) eqn:E; [by rewrite get_blocked|].
    by rewrite get_absent.
Qed.

Lemma clear_cleared w : cleared (exec clear w).
Proof.
  destruct (storage_blocked w) eqn:E.
  - left. by rewrite clear_blocked.
  - right. intros key. rewrite clear_storage, E.
    destruct key; reflexivity.
Qed.

(** C4. [clear()] returns normally in every world, whether or not any slot
    was ever set, and afterwards [get(key)] is a miss ([null]) for each of
    the seven registered keys; when storage is accessible it logs nothing. *)
Theorem clear_empties_every_slot (w : World) :
  List.length CACHE_KEYS = 7%nat
  /\ (forall key : CacheKey, In key CACHE_KEYS)
  /\ eval clear w = Normal tt
  /\ (forall key, eval (get key) (exec clear w) = Normal VNull)
  /\ (if storage_blocked w then True else console (exec clear w) = console w).
Proof.
  split; [reflexivity|]. split; [intros key; destruct key; cbn; tauto|].
  split; [unfold eval; by rewrite clear_run|].
  split; [intros key; apply cleared_get, clear_cleared|].
  unfold exec. rewrite clear_run. cbn [snd].
  destruct (storage_blocked w); [exact I | reflexivity].
Qed.

(** C10. A storage key that is not the namespaced key of a registry slot
    keeps its value across [clear()], [remove(key)] and [set(key, ...)];
    the namespaced key is the prefix followed by the slot name, and with
    storage accessible [clear()] removes each of the seven. *)
Theorem other_keys_untouched (w : World) (name : string) :
  (forall key, name <> getKey key) ->
  storage (exec clear w) !! name = storage w !! name
  /\ (forall key, storage (exec (remove key) w) !! name = storage w !! name)
  /\ (forall key data expiresIn,
        storage (exec (set key data expiresIn) w) !! name = storage w !! name)
  /\ (forall key, getKey key = "eduseva_" +:+ key_string key)
  /\ (forall key, storage_blocked w = false ->
        storage (exec clear w) !! getKey key = None).
Proof.
  intros Hname.
  assert (Hk : is_cache_key name = false).
  { destruct (is_cache_key name) eqn:E; [|reflexivity].
    apply is_cache_key_spec in E as [key ->]. by destruct (Hname key). }
  split; [|split; [|split; [|split]]].
  - rewrite clear_storage, Hk. by destruct (storage_blocked w).
  - intros key. unfold exec. rewrite remove_run. cbn [snd].
    destruct (storage_blocked w); [reflexivity|].
    unfold set_storage. cbn [storage]. apply lookup_delete_ne. auto.
  - intros key data expiresIn. unfold exec. rewrite set_run. cbn [snd].
    destruct (storage_blocked w); [reflexivity|].
    destruct (serialize _) as [text|]; [|reflexivity]. cbn zeta.
    destruct (storage_size _ <=? quota w)%nat; [|reflexivity].
    unfold set_storage. cbn [storage]. apply lookup_insert_ne. auto.
  - reflexivity.
  - intros key E. rewrite clear_storage, E. destruct key; reflexivity.
Qed.

Lemma other_keys_untouched_witness :
  storage (exec clear (set_storage {[ "theme" := "dark" ]} w0)) !! "theme"
  = Some "dark".
Proof.
  destruct (other_keys_untouched (set_storage {[ "theme" := "dark" ]} w0) "theme")
    as [H _].
  - intros key. destruct key; discriminate.
  - rewrite H. reflexivity.
Defined.

(** C7. [set] returns normally on every input. When storage is denied, when
    the value has no JSON text, or when the entry does not fit the quota,
    the write is dropped: the storage area is left as it was, so the key
    keeps its previous value, and one error is logged to the console. *)
Theorem set_never_throws (w : World) (key : CacheKey) (data : value)
  (expiresIn : option Z) :
  eval (set key data expiresIn) w = Normal tt
  /\ (storage_blocked w = true ->
        exec (set key data expiresIn) w
        = log_error "Error saving to cache:" SecurityError w)
  /\ (storage_blocked w = false ->
        serialize (cache_item data (clock w) expiresIn) = None ->
        exec (set key data expiresIn) w
        = log_error "Error saving to cache:" TypeError w)
  /\ (forall text,
        storage_blocked w = false ->
        serialize (cache_item data (clock w) expiresIn) = Some text ->
        (quota w < storage_size (<[getKey key := DOMString text]> (storage w)))%nat ->
        exec (set key data expiresIn) w
        = log_error "Error saving to cache:" QuotaExceededError w)
  /\ (forall label e,
        storage (log_error label e w) = storage w
        /\ console (log_error label e w) = (console w ++ [(label, e)])%list).
Proof.
  unfold eval, exec. rewrite set_run. cbn [fst snd].
  split; [reflexivity|]. split; [|split; [|split]].
  - intros ->. reflexivity.
  - intros -> ->. reflexivity.
  - intros text -> -> Hq. cbn zeta.
    destruct (Nat.leb_spec (storage_size (<[getKey key:=DOMString text]> (storage w)))
                (quota w)); [lia | reflexivity].
  - intros label e. split; reflexivity.
Qed.

Lemma set_never_throws_witness :
  eval (set QUIZ (VBigInt 1) None) w0 = Normal tt
  /\ exec (set QUIZ (VBigInt 1) None) w0
     = log_error "Error saving to cache:" TypeError w0.
Proof.
  destruct (set_never_throws w0 QUIZ (VBigInt 1) None) as (H1 & _ & H3 & _).
  split; [exact H1|]. apply H3; reflexivity.
Defined.





(** [get] once the stored text has been parsed. *)
Lemma get_parsed key w s cacheItem :
  storage_blocked w = false -> storage w !! getKey key = Some s ->
  JSON_parse_text s = Some cacheItem ->
  get key w =
  try_catch
    (let! expiresIn := GetV cacheItem "expiresIn" in
     let! isExpired :=
       (if ToBoolean expiresIn then
          let! now := Date_now in
          let! timestamp := GetV cacheItem "timestamp" in
          let! age := js_sub now timestamp in
          let! expiresIn' := GetV cacheItem "expiresIn" in
          js_gt age expiresIn'
        else ret false) in
     if isExpired then
       remove key ;;
       ret VNull
     else
       GetV cacheItem "data")
    (fun error =>
       console_error "Error reading from cache:" error ;;
       ret VNull) w.
Proof.
  intros E Hs Hp. unfold get, try_catch, bind, localStorage, getItem, JSON_parse.
  rewrite E, Hs. destruct s as [|c s]; [discriminate Hp|]. rewrite Hp. reflexivity.
Qed.

Lemma has_run key w :
  has key w =
  (match eval (get key) w with
   | Normal v => Normal (strict_not_null v)
   | Throw e => Throw e
   end, exec (get key) w).
Proof.
  unfold has, bind, eval, exec, ret. destruct (get key w) as [[v|e] w']; reflexivity.
Qed.




(** ** Reading back what [set] wrote *)

Lemma snoc_neq {A} (l : list A) (x : A) : (l ++ [x])%list <> l.
Proof.
  intros H. apply (f_equal (@List.length A)) in H.
  rewrite length_app in H. cbn in H. lia.
Qed.

Lemma serialize_cache_item data t ttl o :
  serialize (cache_item data t ttl) = Some o -> exists text, o = Some text.
Proof.
  unfold cache_item. rewrite serialize_obj.
  destruct (serialize_members _); [|discriminate].
  intros H. inversion H. eexists. reflexivity.
Qed.

Lemma set_succeeds_inv key data ttl w :
  set_succeeds key data ttl w ->
  storage_blocked w = false
  /\ exists text,
       serialize (cache_item data (clock w) ttl) = Some (Some text)
       /\ exec (set key data ttl) w
          = set_storage (<[getKey key := text]> (storage w)) w.
Proof.
  unfold set_succeeds, exec. rewrite set_run. cbn [snd].
  destruct (storage_blocked w); [intros H; by apply snoc_neq in H|].
  destruct (serialize _) as [o|] eqn:Es; [|intros H; by apply snoc_neq in H].
  destruct (serialize_cache_item _ _ _ _ Es) as [text ->]. cbn zeta.
  cbn [from_option id].
  destruct (storage_size _ <=? quota w)%nat; [|intros H; by apply snoc_neq in H].
  intros _. split; [reflexivity|]. exists text. split; reflexivity.
Qed.

Lemma cache_item_fields data t ttl :
  exists props,
    normalise (cache_item data t ttl) = VObj props
    /\ obj_lookup "expiresIn" props = option_map VNum ttl
    /\ obj_lookup "timestamp" props = Some (VNum t)
    /\ obj_lookup "data" props
       = match data with VUndefined => None | _ => Some (normalise data) end.
Proof.
  destruct data, ttl; eexists; (split; [reflexivity|]); repeat split; reflexivity.
Qed.

(** The world [set] leaves, and the entry as [get] will parse it. *)
Lemma set_then_parse key data ttl w :
  set_succeeds key data ttl w ->
  exists text props,
    exec (set key data ttl) w = set_storage (<[getKey key := text]> (storage w)) w
    /\ storage_blocked w = false
    /\ JSON_parse_text text = Some (VObj props)
    /\ obj_lookup "expiresIn" props = option_map VNum ttl
    /\ obj_lookup "timestamp" props = Some (VNum (clock w))
    /\ obj_lookup "data" props
       = match data with VUndefined => None | _ => Some (normalise data) end.
Proof.
  intros Hok. destruct (set_succeeds_inv key data ttl w Hok) as (E & text & Hs & Hw).
  destruct (cache_item_fields data (clock w) ttl) as (props & Hn & H1 & H2 & H3).
  exists text, props. repeat split; try assumption.
  rewrite (JSON_parse_stringify _ _ Hs). by rewrite Hn.
Qed.

(** An entry whose [expiresIn] is absent or zero is served as it is. *)
Lemma get_unexpiring key w text props :
  storage_blocked w = false ->
  storage w !! getKey key = Some text ->
  JSON_parse_text text = Some (VObj props) ->
  ToBoolean (default VUndefined (obj_lookup "expiresIn" props)) = false ->
  get key w = (Normal (default VUndefined (obj_lookup "data" props)), w).
Proof.
  intros E Hs Hp Hexp. rewrite (get_parsed key w text (VObj props) E Hs Hp).
  unfold try_catch, bind, GetV, ret. rewrite Hexp. reflexivity.
Qed.

(** C2, as amended. For a ttl other than zero: once [set(key, value, ttl)]
    has written the entry and more than [ttl] milliseconds have passed,
    [get(key)] returns the miss signal and removes the entry from storage,
    and a following [has(key)] answers false. *)
Theorem get_expired_entry (w : World) (key : CacheKey) (data : value)
  (ttl d : Z) :
  ttl <> 0 ->
  set_succeeds key data (Some ttl) w ->
  ttl < d ->
  let w1 := advance d (exec (set key data (Some ttl)) w) in
  eval (get key) w1 = Normal VNull
  /\ storage (exec (get key) w1) !! getKey key = None
  /\ eval (has key) (exec (get key) w1) = Normal false.
Proof.
  intros Hnz Hok Hd.
  destruct (set_then_parse key data (Some ttl) w Hok)
    as (text & props & Hw & E & Hp & H1 & H2 & H3).
  cbn zeta. rewrite Hw.
  set (w1 := advance d (set_storage (<[getKey key:=text]> (storage w)) w)).
  assert (Hclock : clock w1 = clock w + d) by reflexivity.
  assert (Hs : storage w1 !! getKey key = Some text) by apply lookup_insert_eq.
  change (storage_blocked w = false) with (storage_blocked w1 = false) in E.
  assert (Hrun : get key w1
                 = (Normal VNull,
                    set_storage (delete (getKey key) (storage w1)) w1)).
  { rewrite (get_parsed key w1 text (VObj props) E Hs Hp).
    unfold try_catch, bind, GetV, ret, Date_now, js_sub, js_gt, ToNumber.
    rewrite H1, H2. cbn [option_map from_option id ToBoolean].
    destruct (Z.eqb_spec ttl 0) as [|_]; [contradiction|]. cbn [negb].
    unfold bind, ret.
    rewrite Hclock.
    destruct (Z.ltb_spec ttl (clock w + d - clock w)) as [_|]; [|lia].
    rewrite remove_run, E. reflexivity. }
  unfold eval, exec. rewrite Hrun. cbn [fst snd].
  split; [reflexivity|]. split.
  - unfold set_storage. cbn [storage]. apply lookup_delete_eq.
  - rewrite has_run. unfold eval. rewrite get_absent; [reflexivity | exact E |].
    unfold set_storage. cbn [storage]. apply lookup_delete_eq.
Qed.

Lemma get_expired_entry_witness :
  let w1 := advance 11 (exec (set QUIZ (VNum 5) (Some 10)) w0) in
  eval (get QUIZ) w1 = Normal VNull
  /\ storage (exec (get QUIZ) w1) !! getKey QUIZ = None
  /\ eval (has QUIZ) (exec (get QUIZ) w1) = Normal false.
Proof.
  apply (get_expired_entry w0 QUIZ (VNum 5) 10 11); [lia | reflexivity | lia].
Defined.

(** C2 as stated fails for a ttl of zero: [get] takes a stored [expiresIn]
    of 0 for an absent one, so the entry written by [set(key, value, 0)] is
    still served, and still stored, after any time. *)
Lemma get_expired_entry_counterexample :
  let w1 := advance 1 (exec (set QUIZ (VNum 5) (Some 0)) w0) in
  set_succeeds QUIZ (VNum 5) (Some 0) w0
  /\ 0 < 1
  /\ eval (get QUIZ) w1 = Normal (VNum 5)
  /\ eval (has QUIZ) (exec (get QUIZ) w1) = Normal true.
Proof. cbv zeta. repeat split; vm_compute; reflexivity. Qed.

(** C8. An entry written with a ttl of 0 does not expire: whatever time has
    passed since [set(key, value, 0)] wrote it, [get(key)] returns the stored
    value (the value itself when it is JSON-serializable) and leaves the world
    as it is, exactly as for an entry written by [set(key, value)] without a
    ttl. *)
Theorem zero_ttl_never_expires (w : World) (key : CacheKey) (data : value)
  (d : Z) :
  set_succeeds key data (Some 0) w ->
  (let w1 := advance d (exec (set key data (Some 0)) w) in
   get key w1 = (Normal (JSON_roundtrip data), w1))
  /\ (set_succeeds key data None w ->
      let w2 := advance d (exec (set key data None) w) in
      get key w2 = (Normal (JSON_roundtrip data), w2))
  /\ (JSON_serializable data = true -> JSON_roundtrip data = data).
Proof.
  intros Hok0.
  assert (Hd : default VUndefined
                 match data with
                 | VUndefined => None
                 | _ => Some (normalise data)
                 end = JSON_roundtrip data) by (destruct data; reflexivity).
  split; [|split].
  - destruct (set_then_parse key data _ w Hok0)
      as (text & props & Hw & E & Hp & H1 & H2 & H3).
    cbn zeta. rewrite Hw.
    set (w1 := advance d (set_storage (<[getKey key:=text]> (storage w)) w)).
    rewrite (get_unexpiring key w1 text props E (lookup_insert_eq _ _ _) Hp);
      [| rewrite H1; reflexivity].
    by rewrite H3, Hd.
  - intros Hok. destruct (set_then_parse key data _ w Hok)
      as (text & props & Hw & E & Hp & H1 & H2 & H3).
    cbn zeta. rewrite Hw.
    set (w2 := advance d (set_storage (<[getKey key:=text]> (storage w)) w)).
    rewrite (get_unexpiring key w2 text props E (lookup_insert_eq _ _ _) Hp);
      [| rewrite H1; reflexivity].
    by rewrite H3, Hd.
  - intros Hser. destruct (serializable_roundtrip data Hser) as [Hn _].
    destruct data; try exact Hn; reflexivity.
Qed.

Lemma zero_ttl_never_expires_witness :
  let w1 := advance 86400000 (exec (set QUIZ (VStr "q") (Some 0)) w0) in
  get QUIZ w1 = (Normal (VStr "q"), w1).
Proof.
  destruct (zero_ttl_never_expires w0 QUIZ (VStr "q") 86400000) as [H _];
    [reflexivity|].
  exact H.
Defined.

(** C3, as amended. For every registry key and every JSON-serializable
    value: when [set(key, value)] has written the entry (no error was
    logged), a [get(key)] that follows at once returns that value. *)
Theorem get_after_set_returns_value (w : World) (key : CacheKey) (data : value) :
  JSON_serializable data = true ->
  set_succeeds key data None w ->
  eval (get key) (exec (set key data None) w) = Normal data.
Proof.
  intros Hser Hok. destruct (serializable_roundtrip data Hser) as [Hn _].
  destruct (set_then_parse key data None w Hok)
    as (text & props & Hw & E & Hp & H1 & H2 & H3).
  rewrite Hw. unfold eval.
  rewrite (get_unexpiring key (set_storage (<[getKey key:=text]> (storage w)) w)
             text props E (lookup_insert_eq _ _ _) Hp);
    [| rewrite H1; reflexivity].
  rewrite H3, Hn. destruct data; reflexivity.
Qed.

Lemma get_after_set_returns_value_witness :
  eval (get SUMMARY)
    (exec (set SUMMARY (VObj [("overall", VStr "text"); ("keyTopics", VArr [])]) None) w0)
  = Normal (VObj [("overall", VStr "text"); ("keyTopics", VArr [])]).
Proof.
  apply (get_after_set_returns_value w0 SUMMARY); reflexivity.
Defined.

(** C3 as stated fails when the write does not go through: with no room
    left in storage, [set] drops the entry and the following [get] is a miss,
    not the value. *)
Lemma get_after_set_returns_value_counterexample :
  let w := mkWorld ∅ 10 false 100 [] [] [] in
  JSON_serializable (VNum 5) = true
  /\ eval (get QUIZ) (exec (set QUIZ (VNum 5) None) w) = Normal VNull
  /\ console (exec (set QUIZ (VNum 5) None) w)
     = [("Error saving to cache:", QuotaExceededError)].
Proof. cbv zeta. repeat split; vm_compute; reflexivity. Qed.

(** ** Components *)

Lemma cleared_ext w w' :
  storage w' = storage w -> storage_blocked w' = storage_blocked w ->
  cleared w -> cleared w'.
Proof. unfold cleared. intros -> ->. auto. Qed.

Lemma repeat_ticks_run n (f : PDFUpload.State -> PDFUpload.State) files w :
  PDFUpload.repeat_ticks n (setState f) (files, w)
  = (Normal tt, (Nat.iter n f files, w)).
Proof.
  revert files. induction n as [|n IH]; intros files; [reflexivity|].
  cbn [PDFUpload.repeat_ticks]. unfold bind, setState. cbn [fst snd].
  rewrite IH. by rewrite Nat.iter_succ_r.
Qed.

(** One pass of the loop whose upload succeeds. *)
Lemma processFile_success u files w response :
  PDFUpload.settled u = Normal response ->
  exists files',
    PDFUpload.processFile u (files, w) =
    (Normal tt,
     (files',
      if is_nullish response
      then exec (toast_error (VStr (exn_message TypeError))) (exec clear w)
      else exec (setTimeout_navigate "/chat" 1000)
             (exec (toast_success
                      (default VUndefined (own_property "message" response)))
                (exec clear w)))).
Proof.
  intros Hs. unfold PDFUpload.processFile.
  unfold bind at 1. unfold setState at 1. cbn [fst snd].
  unfold try_catch, bind. rewrite repeat_ticks_run.
  unfold await. rewrite Hs. unfold liftW at 1. cbn [fst snd].
  unfold exec. rewrite clear_run. cbn [fst snd].
  unfold setState at 1. cbn [fst snd].
  destruct response; cbn; eexists; reflexivity.
Qed.

(** One pass of the loop whose upload fails. *)
Lemma processFile_failure u files w e :
  PDFUpload.settled u = Throw e ->
  exists files',
    PDFUpload.processFile u (files, w) =
    (Normal tt, (files', exec (toast_error (VStr (exn_message e))) w)).
Proof.
  intros Hs. unfold PDFUpload.processFile.
  unfold bind at 1. unfold setState at 1. cbn [fst snd].
  unfold try_catch, bind. rewrite repeat_ticks_run.
  unfold await. rewrite Hs. cbn. eexists. reflexivity.
Qed.

Lemma processFile_cleared u files w :
  cleared w \/ (exists response, PDFUpload.settled u = Normal response) ->
  eval (PDFUpload.processFile u) (files, w) = Normal tt
  /\ cleared (snd (exec (PDFUpload.processFile u) (files, w))).
Proof.
  intros H. unfold eval, exec.
  destruct (PDFUpload.settled u) as [response|e] eqn:Hs.
  - destruct (processFile_success u files w response Hs) as [files' ->].
    cbn [fst snd]. split; [reflexivity|].
    destruct (is_nullish response);
      (eapply cleared_ext; [| | apply (clear_cleared w)]; reflexivity).
  - destruct (processFile_failure u files w e Hs) as [files' ->].
    cbn [fst snd]. split; [reflexivity|].
    destruct H as [H | [response H]]; [|discriminate H].
    eapply cleared_ext; [| | exact H]; reflexivity.
Qed.

Lemma for_of_cleared l files w :
  cleared w \/ Exists (fun u => exists response, PDFUpload.settled u = Normal response) l ->
  cleared (snd (exec (PDFUpload.for_of l PDFUpload.processFile) (files, w))).
Proof.
  revert files w. induction l as [|u l IH]; intros files w H.
  - destruct H as [H | H]; [exact H | inversion H].
  - cbn [PDFUpload.for_of]. unfold exec, bind.
    assert (Hc : cleared w \/ (exists r, PDFUpload.settled u = Normal r)
                 \/ Exists (fun u => exists r, PDFUpload.settled u = Normal r) l).
    { destruct H as [H | H]; [auto|]. inversion H; subst; auto. }
    destruct (PDFUpload.processFile u (files, w)) as [[[]|e] [files' w']] eqn:Hrun.
    + apply IH. destruct Hc as [Hc | [Hc | Hc]]; [left | left | right; exact Hc].
      * destruct (processFile_cleared u files w (or_introl Hc)) as [_ Hcl].
        unfold exec in Hcl. by rewrite Hrun in Hcl.
      * destruct (processFile_cleared u files w (or_intror Hc)) as [_ Hcl].
        unfold exec in Hcl. by rewrite Hrun in Hcl.
    + exfalso.
      assert (He : eval (PDFUpload.processFile u) (files, w) = Normal tt).
      { destruct (PDFUpload.settled u) as [response|e'] eqn:Hs; unfold eval.
        - by destruct (processFile_success u files w response Hs) as [? ->].
        - by destruct (processFile_failure u files w e' Hs) as [? ->]. }
      unfold eval in He. rewrite Hrun in He. discriminate He.
Qed.

(** C1. When the upload of a file completes successfully, [processFile]
    calls [cache.clear()] first, then shows the notification, then sets the
    timer that redirects to the chat: the world it leaves is the world right
    after [clear()], in which no redirect was yet scheduled, with that
    notification and that timer added (when the response is [null] or
    [undefined], reading its message throws and no timer is set). In that
    world, and at the end of a whole [processFiles] in which some upload
    succeeded, [get(key)] is a miss for every registered key, whatever the
    slots held before. *)
Theorem upload_clears_cache_before_redirect (u : PDFUpload.Upload)
  (files : PDFUpload.State) (w : World) (response : value) :
  PDFUpload.settled u = Normal response ->
  let s' := exec (PDFUpload.processFile u) (files, w) in
  let w1 := exec clear w in
  (forall key, eval (get key) (snd s') = Normal VNull)
  /\ snd s' =
     (if is_nullish response
      then exec (toast_error (VStr (exn_message TypeError))) w1
      else exec (setTimeout_navigate "/chat" 1000)
             (exec (toast_success
                      (default VUndefined (own_property "message" response)))
                w1))
  /\ storage (snd s') = storage w1
  /\ timers w1 = timers w
  /\ timers (snd s') =
     (if is_nullish response then timers w
      else timers w ++ [mkTimer 1000 "/chat"])%list
  /\ (forall before after files' w' key,
        eval (get key)
          (snd (exec (PDFUpload.processFiles (before ++ u :: after)) (files', w')))
        = Normal VNull).
Proof.
  intros Hs. cbn zeta.
  assert (Ht : forall w, timers (exec clear w) = timers w).
  { intros w'. unfold exec. rewrite clear_run. cbn [snd].
    destruct (storage_blocked w'); [|reflexivity].
    generalize CACHE_KEYS. intros l. revert w'.
    induction l as [|k l IH]; intros w'; [reflexivity|].
    cbn [fold_left]. by rewrite IH. }
  split; [|split; [|split; [|split; [|split]]]].
  - intros key. apply cleared_get.
    apply (processFile_cleared u files w). right. by exists response.
  - unfold exec at 1. destruct (processFile_success u files w response Hs) as [files' ->].
    reflexivity.
  - unfold exec at 1. destruct (processFile_success u files w response Hs) as [files' ->].
    cbn [snd]. by destruct (is_nullish response).
  - apply Ht.
  - unfold exec at 1. destruct (processFile_success u files w response Hs) as [files' ->].
    cbn [snd]. destruct (is_nullish response); cbn; by rewrite Ht.
  - intros l1 l2 files0 w' key. apply cleared_get.
    assert (Hl : PDFUpload.processFiles (l1 ++ u :: l2)
                 = PDFUpload.for_of (l1 ++ u :: l2) PDFUpload.processFile)
      by (destruct l1; reflexivity).
    rewrite Hl. apply for_of_cleared. right.
    apply Exists_app. right. apply Exists_cons_hd. by exists response.
Qed.

Lemma upload_clears_cache_before_redirect_witness :
  let w :=
    exec (set SUMMARY (VStr "s") None)
      (exec (set FLASHCARDS (VArr [VStr "card"]) None) w0) in
  let u :=
    PDFUpload.mkUpload "notes.pdf" 1024 "k3j9x0q1z" 3
      (Normal (VObj [("success", VBool true); ("message", VStr "Uploaded")])) in
  let s' := exec (PDFUpload.processFile u) ([], w) in
  eval (get FLASHCARDS) w = Normal (VArr [VStr "card"])
  /\ eval (get SUMMARY) w = Normal (VStr "s")
  /\ eval (get FLASHCARDS) (snd s') = Normal VNull
  /\ eval (get SUMMARY) (snd s') = Normal VNull
  /\ timers (snd s') = [mkTimer 1000 "/chat"].
Proof.
  cbv zeta.
  destruct (upload_clears_cache_before_redirect
              (PDFUpload.mkUpload "notes.pdf" 1024 "k3j9x0q1z" 3
                 (Normal (VObj [("success", VBool true); ("message", VStr "Uploaded")])))
              []
              (exec (set SUMMARY (VStr "s") None)
                 (exec (set FLASHCARDS (VArr [VStr "card"]) None) w0))
              (VObj [("success", VBool true); ("message", VStr "Uploaded")])
              eq_refl) as (Hget & _ & _ & _ & Htimers & _).
  split; [reflexivity|]. split; [reflexivity|].
  split; [apply Hget|]. split; [apply Hget|]. exact Htimers.
Defined.




(** ** The model at work *)

Example set_writes_entry :
  storage (exec (set QUIZ (VNum 5) None) w0) !! "eduseva_quiz"
  = Some ("{" +:+ quote "data" +:+ ":5," +:+ quote "timestamp" +:+ ":100}").
Proof. reflexivity. Qed.

Example set_writes_ttl :
  storage (exec (set QUIZ (VStr "a") (Some 60000)) w0) !! "eduseva_quiz"
  = Some ("{" +:+ quote "data" +:+ ":" +:+ quote "a" +:+ ","
          +:+ quote "timestamp" +:+ ":100,"
          +:+ quote "expiresIn" +:+ ":60000}").
Proof. reflexivity. Qed.

Example get_within_ttl :
  eval (get QUIZ) (advance 60000 (exec (set QUIZ (VStr "a") (Some 60000)) w0))
  = Normal (VStr "a").
Proof. reflexivity. Qed.

Example get_past_ttl :
  eval (get QUIZ) (advance 60001 (exec (set QUIZ (VStr "a") (Some 60000)) w0))
  = Normal VNull.
Proof. reflexivity. Qed.

Example parse_keeps_last_duplicate :
  JSON_parse_text ("{" +:+ quote "a" +:+ ":1," +:+ quote "a" +:+ ":2}")
  = Some (VObj [("a", VNum 2)]).
Proof. reflexivity. Qed.

Example parse_rejects_trailing_comma : JSON_parse_text "[1,]" = None.
Proof. reflexivity. Qed.

Example quiz_generated :
  let response :=
    VObj [("success", VBool true);
          ("quiz", VObj [("quizId", VStr "id9"); ("questions", VArr [VStr "q"])])] in
  let s' := exec (Quiz.handleGenerateQuiz (Normal response)) (Quiz.initial, w0) in
  Quiz.quiz (fst s') = VArr [VStr "q"]
  /\ Quiz.activeTab (fst s') = Quiz.take
  /\ eval (get QUIZ) (snd s')
     = Normal (VObj [("questions", VArr [VStr "q"]); ("quizId", VStr "id9")]).
Proof. cbv zeta. repeat split; reflexivity. Qed.

(** * Further properties of the cache manager *)

(** Operations that only compute leave the world alone. *)
Lemma GetV_pure (o : value) name (w : World) :
  GetV o name w = (eval (GetV o name) w, w).
Proof. destruct o; reflexivity. Qed.

Lemma ToNumber_pure v (w : World) : ToNumber v w = (eval (ToNumber v) w, w).
Proof. destruct v; reflexivity. Qed.

Lemma js_sub_pure a b (w : World) : js_sub a b w = (eval (js_sub a b) w, w).
Proof.
  unfold js_sub, bind, eval. rewrite ToNumber_pure.
  destruct (eval (ToNumber b) w); reflexivity.
Qed.

Lemma js_gt_pure a b (w : World) : js_gt a b w = (eval (js_gt a b) w, w).
Proof.
  unfold js_gt, eval. destruct b; try reflexivity;
    unfold bind; cbn; reflexivity.
Qed.

(** What one call of [get] can do to the world: nothing, log one error, or
    delete its own entry; and a result other than [null] comes with an
    unchanged world. *)
Lemma get_world_cases key w :
  (exec (get key) w = w
   \/ (exists e, exec (get key) w = log_error "Error reading from cache:" e w)
   \/ exec (get key) w = set_storage (delete (getKey key) (storage w)) w)
  /\ (eval (get key) w <> Normal VNull -> exec (get key) w = w).
Proof.
  unfold exec, eval, get, try_catch, bind, localStorage, getItem.
  destruct (storage_blocked w) eqn:E.
  { split; [right; left; eexists; reflexivity | cbn; congruence]. }
  destruct (storage w !! getKey key) as [[|c s]|];
    try (split; [left; reflexivity | cbn; congruence]).
  unfold JSON_parse. destruct (JSON_parse_text (String c s)) as [item|].
  2:{ split; [right; left; eexists; reflexivity | cbn; congruence]. }
  unfold ret. cbv beta iota. rewrite GetV_pure.
  destruct (eval (GetV item "expiresIn") w) as [expiresIn|e].
  2:{ split; [right; left; eexists; reflexivity | cbn; congruence]. }
  destruct (ToBoolean expiresIn).
  - unfold bind, Date_now. rewrite GetV_pure.
    destruct (eval (GetV item "timestamp") w) as [ts|e].
    2:{ split; [right; left; eexists; reflexivity | cbn; congruence]. }
    rewrite js_sub_pure. destruct (eval (js_sub (clock w) ts) w) as [age|e].
    2:{ split; [right; left; eexists; reflexivity | cbn; congruence]. }
    rewrite GetV_pure. destruct (eval (GetV item "expiresIn") w) as [ex'|e].
    2:{ split; [right; left; eexists; reflexivity | cbn; congruence]. }
    rewrite js_gt_pure. destruct (eval (js_gt age ex') w) as [[|]|e].
    + rewrite remove_run, E. cbn [fst snd].
      split; [right; right; reflexivity | congruence].
    + rewrite GetV_pure. destruct (eval (GetV item "data") w) as [d|e].
      * split; [left; reflexivity | reflexivity].
      * split; [right; left; eexists; reflexivity | cbn; congruence].
    + split; [right; left; eexists; reflexivity | cbn; congruence].
  - rewrite GetV_pure.
    destruct (eval (GetV item "data") w) as [d|e].
    + split; [left; reflexivity | reflexivity].
    + split; [right; left; eexists; reflexivity | cbn; congruence].
Qed.

Lemma set_storage_id w : set_storage (storage w) w = w.
Proof. by destruct w. Qed.

(** X1. [remove(key)] returns normally in every world, a [get(key)] that
    follows is a miss, and removing a slot that holds nothing changes
    nothing (storage accessible). *)
Theorem remove_then_get_misses (w : World) (key : CacheKey) :
  eval (remove key) w = Normal tt
  /\ eval (get key) (exec (remove key) w) = Normal VNull
  /\ (storage_blocked w = false -> storage w !! getKey key = None ->
      exec (remove key) w = w).
Proof.
  unfold eval, exec. rewrite remove_run. cbn [fst snd].
  split; [reflexivity|]. destruct (storage_blocked w) eqn:E.
  - split; [by rewrite get_blocked | discriminate].
  - split.
    + rewrite get_absent; [reflexivity | exact E |].
      unfold set_storage. cbn [storage]. apply lookup_delete_eq.
    + intros _ Habs. rewrite delete_id by exact Habs. apply set_storage_id.
Qed.

Lemma remove_then_get_misses_witness :
  exec (remove PODCAST) w0 = w0.
Proof.
  destruct (remove_then_get_misses w0 PODCAST) as (_ & _ & H).
  apply H; reflexivity.
Defined.

(** X2. A hit is read-only: when [get(key)] returns anything but [null] it
    leaves the world exactly as it was, so asking again gives the same
    answer. *)
Theorem get_hit_changes_nothing (w : World) (key : CacheKey) (v : value) :
  eval (get key) w = Normal v ->
  v <> VNull ->
  exec (get key) w = w /\ eval (get key) (exec (get key) w) = Normal v.
Proof.
  intros Hv Hnn. destruct (get_world_cases key w) as [_ H].
  assert (Hw : exec (get key) w = w) by (apply H; rewrite Hv; congruence).
  split; [exact Hw | by rewrite Hw].
Qed.

Lemma get_hit_changes_nothing_witness :
  let w := exec (set MINDMAP (VStr "tree") (Some 5000)) w0 in
  exec (get MINDMAP) w = w.
Proof.
  cbv zeta.
  apply (get_hit_changes_nothing (exec (set MINDMAP (VStr "tree") (Some 5000)) w0)
           MINDMAP (VStr "tree")); [reflexivity | discriminate].
Defined.

(** X3. Whatever [get(key)] does, it touches no other storage key than its
    own: the entry it may evict is the one under [getKey key], and the
    quota, the clock, the notifications and the timers stay as they were. *)
Theorem get_touches_own_key_only (w : World) (key : CacheKey) (name : string) :
  name <> getKey key ->
  storage (exec (get key) w) !! name = storage w !! name
  /\ clock (exec (get key) w) = clock w
  /\ toasts (exec (get key) w) = toasts w
  /\ timers (exec (get key) w) = timers w.
Proof.
  intros Hne. destruct (get_world_cases key w) as [[H | [[e H] | H]] _];
    rewrite H; repeat split; try reflexivity.
  unfold set_storage. cbn [storage]. by apply lookup_delete_ne.
Qed.

Lemma get_touches_own_key_only_witness :
  let w := advance 10 (exec (set QUIZ (VNum 1) (Some 5))
                         (set_storage {[ "theme" := "dark" ]} w0)) in
  storage (exec (get QUIZ) w) !! "theme" = Some "dark"
  /\ storage (exec (get QUIZ) w) !! "eduseva_quiz" = None.
Proof.
  cbv zeta. split; [|reflexivity].
  destruct (get_touches_own_key_only
              (advance 10 (exec (set QUIZ (VNum 1) (Some 5))
                             (set_storage {[ "theme" := "dark" ]} w0)))
              QUIZ "theme") as [H _]; [discriminate|].
  rewrite H. reflexivity.
Defined.

(** X4. An entry is served up to and including the moment its ttl has
    elapsed: after a successful [set(key, value, ttl)] and [d <= ttl]
    milliseconds, [get(key)] returns the stored value and changes nothing. *)
Theorem entry_served_within_ttl (w : World) (key : CacheKey) (data : value) (ttl d : Z) :
  set_succeeds key data (Some ttl) w ->
  d <= ttl ->
  let w1 := advance d (exec (set key data (Some ttl)) w) in
  get key w1 = (Normal (JSON_roundtrip data), w1).
Proof.
  intros Hok Hd.
  destruct (set_then_parse key data (Some ttl) w Hok)
    as (text & props & Hw & E & Hp & H1 & H2 & H3).
  cbn zeta. rewrite Hw.
  set (w1 := advance d (set_storage (<[getKey key:=text]> (storage w)) w)).
  assert (Hs : storage w1 !! getKey key = Some text) by apply lookup_insert_eq.
  change (storage_blocked w = false) with (storage_blocked w1 = false) in E.
  rewrite (get_parsed key w1 text (VObj props) E Hs Hp).
  unfold try_catch, bind, GetV, ret, Date_now, js_sub, js_gt, ToNumber.
  rewrite H1, H2, H3. cbn [option_map from_option id ToBoolean].
  assert (Hdata : default VUndefined
                    match data with
                    | VUndefined => None
                    | _ => Some (normalise data)
                    end = JSON_roundtrip data) by (destruct data; reflexivity).
  destruct (Z.eqb_spec ttl 0) as [|_]; cbn [negb]; [by rewrite Hdata|].
  unfold bind, ret.
  change (clock w1) with (clock w + d).
  destruct (Z.ltb_spec ttl (clock w + d - clock w)) as [|_]; [lia|].
  by rewrite Hdata.
Qed.

Lemma entry_served_within_ttl_witness :
  let w1 := advance 5000 (exec (set SUMMARY (VStr "s") (Some 5000)) w0) in
  get SUMMARY w1 = (Normal (VStr "s"), w1).
Proof.
  apply (entry_served_within_ttl w0 SUMMARY (VStr "s") 5000 5000); [reflexivity | lia].
Defined.

Lemma GetV_eval_any (o : value) name (w w' : World) :
  eval (GetV o name) w = eval (GetV o name) w'.
Proof. destruct o; reflexivity. Qed.

Lemma js_sub_eval_any a b (w w' : World) :
  eval (js_sub a b) w = eval (js_sub a b) w'.
Proof. destruct b; reflexivity. Qed.

Lemma js_gt_eval_any a b (w w' : World) :
  eval (js_gt a b) w = eval (js_gt a b) w'.
Proof. destruct b; reflexivity. Qed.

(** The answer of [get] depends on the world through three things only:
    whether storage is accessible, what is stored under the key, and the
    clock. *)
Lemma get_eval_ext key w1 w2 :
  storage_blocked w1 = storage_blocked w2 ->
  storage w1 !! getKey key = storage w2 !! getKey key ->
  clock w1 = clock w2 ->
  eval (get key) w1 = eval (get key) w2.
Proof.
  intros Hb Hs Hc.
  unfold eval, get, try_catch, bind, localStorage, getItem.
  rewrite Hb. destruct (storage_blocked w2) eqn:E; [reflexivity|].
  rewrite Hs. destruct (storage w2 !! getKey key) as [[|c s]|]; try reflexivity.
  unfold JSON_parse. destruct (JSON_parse_text (String c s)) as [item|];
    [|reflexivity].
  unfold ret. cbv beta iota. rewrite !GetV_pure.
  rewrite (GetV_eval_any item "expiresIn" w1 w2).
  destruct (eval (GetV item "expiresIn") w2) as [expiresIn|e]; [|reflexivity].
  destruct (ToBoolean expiresIn).
  - unfold bind, Date_now. rewrite Hc.
    rewrite !GetV_pure. rewrite (GetV_eval_any item "timestamp" w1 w2).
    destruct (eval (GetV item "timestamp") w2) as [ts|e]; [|reflexivity].
    rewrite !js_sub_pure. rewrite (js_sub_eval_any _ _ w1 w2).
    destruct (eval (js_sub (clock w2) ts) w2) as [age|e]; [|reflexivity].
    rewrite !GetV_pure. rewrite (GetV_eval_any item "expiresIn" w1 w2).
    destruct (eval (GetV item "expiresIn") w2) as [ex'|e]; [|reflexivity].
    rewrite !js_gt_pure. rewrite (js_gt_eval_any _ _ w1 w2).
    destruct (eval (js_gt age ex') w2) as [[|]|e]; [| |reflexivity].
    + rewrite !remove_run. reflexivity.
    + rewrite !GetV_pure. rewrite (GetV_eval_any item "data" w1 w2).
      destruct (eval (GetV item "data") w2); reflexivity.
  - rewrite !GetV_pure. rewrite (GetV_eval_any item "data" w1 w2).
    destruct (eval (GetV item "data") w2); reflexivity.
Qed.

Lemma getKey_inj key key' : getKey key = getKey key' -> key = key'.
Proof. destruct key, key'; intros H; first [reflexivity | discriminate H]. Qed.

Lemma set_world_fields key data ttl w :
  storage_blocked (exec (set key data ttl) w) = storage_blocked w
  /\ clock (exec (set key data ttl) w) = clock w
  /\ toasts (exec (set key data ttl) w) = toasts w
  /\ timers (exec (set key data ttl) w) = timers w
  /\ forall name, name <> getKey key ->
       storage (exec (set key data ttl) w) !! name = storage w !! name.
Proof.
  unfold exec. rewrite set_run. cbn [snd].
  destruct (storage_blocked w) eqn:E; [by repeat split|].
  destruct (serialize _) as [text|]; [|by repeat split]. cbn zeta.
  destruct (storage_size _ <=? quota w)%nat; [|by repeat split].
  repeat split; try exact E. intros name Hne.
  unfold set_storage. cbn [storage]. apply lookup_insert_ne. auto.
Qed.

(** X5. The slots are independent: writing or removing one slot, whether it
    works or fails, never changes what [get] answers for another slot. *)
Theorem slots_are_independent (w : World) (key key' : CacheKey) :
  key <> key' ->
  (forall data expiresIn,
     eval (get key') (exec (set key data expiresIn) w) = eval (get key') w)
  /\ eval (get key') (exec (remove key) w) = eval (get key') w.
Proof.
  intros Hne.
  assert (Hk : getKey key' <> getKey key)
    by (intros H; apply getKey_inj in H; congruence).
  split.
  - intros data expiresIn.
    destruct (set_world_fields key data expiresIn w) as (Hb & Hc & _ & _ & Hs).
    apply get_eval_ext; auto.
  - unfold exec. rewrite remove_run. cbn [snd].
    destruct (storage_blocked w) eqn:E; apply get_eval_ext; try reflexivity;
      try exact E.
    unfold set_storage. cbn [storage]. by apply lookup_delete_ne.
Qed.

Lemma slots_are_independent_witness :
  let w := exec (set QUIZ (VStr "kept") None) w0 in
  eval (get QUIZ) (exec (set SUMMARY (VStr "new") None) w) = Normal (VStr "kept")
  /\ eval (get QUIZ) (exec (remove SUMMARY) w) = Normal (VStr "kept").
Proof.
  cbv zeta.
  destruct (slots_are_independent (exec (set QUIZ (VStr "kept") None) w0)
              SUMMARY QUIZ) as [H1 H2]; [discriminate|].
  rewrite H1, H2. split; reflexivity.
Defined.

Lemma strict_not_null_roundtrip v :
  strict_not_null (JSON_roundtrip v) = strict_not_null v.
Proof. destruct v; reflexivity. Qed.

(** X6. Right after a successful [set(key, value)], [has(key)] answers
    false exactly when the value is [null]: a stored [null] cannot be told
    from an empty slot, any other value is a hit. *)
Theorem has_after_set (w : World) (key : CacheKey) (data : value) :
  set_succeeds key data None w ->
  eval (has key) (exec (set key data None) w) = Normal (strict_not_null data)
  /\ (strict_not_null data = false <-> data = VNull).
Proof.
  intros Hok. split; [|destruct data; cbn; split; congruence].
  destruct (set_then_parse key data None w Hok)
    as (text & props & Hw & E & Hp & H1 & H2 & H3).
  rewrite Hw. unfold eval at 1. rewrite has_run. unfold eval.
  rewrite (get_unexpiring key (set_storage (<[getKey key:=text]> (storage w)) w)
             text props E (lookup_insert_eq _ _ _) Hp);
    [| rewrite H1; reflexivity].
  cbn [fst]. rewrite H3. destruct data; reflexivity.
Qed.

Lemma has_after_set_witness :
  eval (has QUIZ) (exec (set QUIZ VNull None) w0) = Normal false
  /\ eval (has QUIZ) (exec (set QUIZ (VBool false) None) w0) = Normal true.
Proof.
  split.
  - destruct (has_after_set w0 QUIZ VNull) as [H _]; [reflexivity | exact H].
  - destruct (has_after_set w0 QUIZ (VBool false)) as [H _];
      [reflexivity | exact H].
Defined.

(** X7. [set] replaces the whole entry: after a later successful
    [set(key, value)] without ttl, nothing of the entry written before is
    left, in particular not its ttl, and [get(key)] returns the new value
    at any later time. *)
Theorem set_replaces_entry (w : World) (key : CacheKey) (old new : value)
  (ttl : option Z) (d : Z) :
  let w1 := exec (set key old ttl) w in
  set_succeeds key new None w1 ->
  let w2 := advance d (exec (set key new None) w1) in
  get key w2 = (Normal (JSON_roundtrip new), w2)
  /\ forall name, name <> getKey key -> storage w2 !! name = storage w !! name.
Proof.
  cbn zeta. intros Hok.
  destruct (set_then_parse key new None _ Hok)
    as (text & props & Hw & E & Hp & H1 & H2 & H3).
  split.
  - rewrite Hw.
    set (w2 := advance d _).
    rewrite (get_unexpiring key w2 text props E (lookup_insert_eq _ _ _) Hp);
      [| rewrite H1; reflexivity].
    rewrite H3. by destruct new.
  - intros name Hne.
    destruct (set_world_fields key new None (exec (set key old ttl) w))
      as (_ & _ & _ & _ & Hs).
    destruct (set_world_fields key old ttl w) as (_ & _ & _ & _ & Hs').
    cbn [advance storage]. rewrite Hs, Hs'; auto.
Qed.

Lemma set_replaces_entry_witness :
  let w2 :=
    advance 60000
      (exec (set PODCAST (VStr "new") None)
         (exec (set PODCAST (VStr "old") (Some 1000)) w0)) in
  get PODCAST w2 = (Normal (VStr "new"), w2).
Proof.
  destruct (set_replaces_entry w0 PODCAST (VStr "old") (VStr "new") (Some 1000)
              60000) as [H _]; [reflexivity | exact H].
Defined.

(** X8. What a successful [set(key, data, expiresIn)] leaves under the
    namespaced key is a JSON text for an object whose [timestamp] is the
    clock at the time of the call, whose [expiresIn] is the ttl given (absent
    when none was given) and whose [data] is the value; nothing else in the
    world changes. *)
Theorem set_stores_stamped_item (w : World) (key : CacheKey) (data : value)
  (expiresIn : option Z) :
  set_succeeds key data expiresIn w ->
  exists text props,
    exec (set key data expiresIn) w
    = set_storage (<[getKey key := text]> (storage w)) w
    /\ JSON_parse_text text = Some (VObj props)
    /\ obj_lookup "timestamp" props = Some (VNum (clock w))
    /\ obj_lookup "expiresIn" props = option_map VNum expiresIn
    /\ default VUndefined (obj_lookup "data" props) = JSON_roundtrip data.
Proof.
  intros Hok.
  destruct (set_then_parse key data expiresIn w Hok)
    as (text & props & Hw & E & Hp & H1 & H2 & H3).
  exists text, props. repeat split; try assumption.
  rewrite H3. by destruct data.
Qed.

Lemma set_stores_stamped_item_witness :
  exists text props,
    exec (set QUIZ (VNum 5) (Some 30)) w0
    = set_storage (<[getKey QUIZ := text]> (storage w0)) w0
    /\ JSON_parse_text text = Some (VObj props)
    /\ obj_lookup "timestamp" props = Some (VNum 100)
    /\ obj_lookup "expiresIn" props = Some (VNum 30)
    /\ default VUndefined (obj_lookup "data" props) = VNum 5.
Proof.
  apply (set_stores_stamped_item w0 QUIZ (VNum 5) (Some 30)). reflexivity.
Defined.

(** * The API wrappers *)

Lemma JSON_stringify_run v t (w : World) :
  serialize v = Some t -> JSON_stringify v w = (Normal t, w).
Proof. intros H. unfold JSON_stringify. by rewrite H. Qed.

Lemma serialize_or_num o n :
  exists t, serialize (js_or (Api.opt_num o) (VNum n)) = Some (Some t).
Proof.
  destruct o as [x|]; unfold js_or; cbn [Api.opt_num ToBoolean];
    [destruct (negb (x =? 0)%Z)|]; eexists; reflexivity.
Qed.

Lemma serialize_or_str o s :
  exists t, serialize (js_or (Api.opt_str o) (VStr s)) = Some (Some t).
Proof.
  destruct o as [x|]; unfold js_or; cbn [Api.opt_str ToBoolean];
    [destruct (negb (String.eqb x EmptyString))|]; eexists; reflexivity.
Qed.

Lemma serialize_or_null o :
  exists t, serialize (js_or (Api.opt_str o) VNull) = Some (Some t).
Proof.
  destruct o as [x|]; unfold js_or; cbn [Api.opt_str ToBoolean];
    [destruct (negb (String.eqb x EmptyString))|]; eexists; reflexivity.
Qed.

Lemma serialize_strs l :
  exists ts, serialize_elements (map VStr l) = Some ts.
Proof.
  induction l as [|s l [ts IH]]; [eexists; reflexivity|].
  cbn [map serialize_elements]. rewrite IH.
  cbn [serialize]. eexists. reflexivity.
Qed.

Lemma serialize_or_strs o l :
  exists t, serialize (js_or (Api.opt_strs o) (VArr (map VStr l))) = Some (Some t).
Proof.
  destruct o as [x|]; unfold js_or; cbn [Api.opt_strs ToBoolean].
  - rewrite serialize_arr. destruct (serialize_strs x) as [ts ->].
    eexists. reflexivity.
  - rewrite serialize_arr. destruct (serialize_strs l) as [ts ->].
    eexists. reflexivity.
Qed.

(** The text of an object literal whose property values all have one. *)
Lemma serialize_members_all l :
  Forall (fun kv => exists t, serialize (snd kv) = Some (Some t)) l ->
  exists ts, serialize_members l = Some ts.
Proof.
  induction 1 as [|[k x] l [t Hx] Hl [ts IH]]; [eexists; reflexivity|].
  cbn [serialize_members]. cbn [snd] in Hx. rewrite Hx, IH.
  eexists. reflexivity.
Qed.

Lemma serialize_literal l :
  Forall (fun kv => exists t, serialize (snd kv) = Some (Some t)) l ->
  exists t, serialize (VObj l) = Some (Some t).
Proof.
  intros H. rewrite serialize_obj.
  destruct (serialize_members_all l H) as [ts ->]. eexists. reflexivity.
Qed.

Lemma after_fetch_run fallback fetched (w : World) :
  (let! response := await fetched in
   if negb (ok response) then
     let! error := await (json response) in
     let! detail := GetV error "detail" in
     throw (new_Error (js_or detail (VStr fallback)))
   else
     await (json response)) w
  = (settle fallback fetched, w).
Proof.
  unfold bind, await, settle. destruct fetched as [response|e]; [|reflexivity].
  destruct (ok response); cbn [negb]; [by destruct (json response)|].
  destruct (json response) as [error|e]; [|reflexivity].
  destruct error; reflexivity.
Qed.

(** Each wrapper sends one POST request to its endpoint and settles as
    [settle] says. *)
Lemma uploadDocument_run fetch file w :
  Api.uploadDocument fetch file w
  = (settle "Failed to upload document"
       (fetch (mkRequest (API_BASE_URL +:+ "/api/upload") "POST" []
                 (FormDataBody [("file", file)]))), w).
Proof. unfold Api.uploadDocument. cbv zeta. apply after_fetch_run. Qed.

Lemma generateQuiz_run fetch params w :
  exists text,
    Api.generateQuiz fetch params w
    = (settle "Failed to generate quiz"
         (fetch (mkRequest (API_BASE_URL +:+ "/api/quiz/generate") "POST"
                   Api.json_headers (TextBody (Some text)))), w).
Proof.
  unfold Api.generateQuiz.
  edestruct serialize_literal as [text Ht];
    [| exists text; unfold bind at 1; rewrite (JSON_stringify_run _ _ w Ht);
       apply after_fetch_run].
  repeat constructor; cbn [snd];
    first [apply serialize_or_null | apply serialize_or_num | apply serialize_or_str].
Qed.

Lemma generateQuestionPaper_run fetch params w :
  exists text,
    Api.generateQuestionPaper fetch params w
    = (settle "Failed to generate question paper"
         (fetch (mkRequest (API_BASE_URL +:+ "/api/question-paper") "POST"
                   Api.json_headers (TextBody (Some text)))), w).
Proof.
  unfold Api.generateQuestionPaper.
  edestruct serialize_literal as [text Ht];
    [| exists text; unfold bind at 1; rewrite (JSON_stringify_run _ _ w Ht);
       apply after_fetch_run].
  repeat constructor; cbn [snd];
    first [apply serialize_or_null | apply serialize_or_num | apply serialize_or_str].
Qed.

Lemma generateFlashcards_run fetch params w :
  exists text,
    Api.generateFlashcards fetch params w
    = (settle "Failed to generate flashcards"
         (fetch (mkRequest (API_BASE_URL +:+ "/api/generate") "POST"
                   Api.json_headers (TextBody (Some text)))), w).
Proof.
  unfold Api.generateFlashcards.
  edestruct serialize_literal as [text Ht];
    [| exists text; unfold bind at 1; rewrite (JSON_stringify_run _ _ w Ht);
       apply after_fetch_run].
  repeat constructor; cbn [snd];
    first [apply serialize_or_null | apply serialize_or_num | apply serialize_or_str
          | apply (serialize_or_strs _ ["basic"; "concept"; "application"])
          | apply (serialize_or_strs _ [])].
Qed.

Lemma chat_run fetch question sessionId w :
  exists text,
    Api.chat fetch question sessionId w
    = (settle "Failed to chat"
         (fetch (mkRequest (API_BASE_URL +:+ "/api/chat") "POST"
                   Api.json_headers (TextBody (Some text)))), w).
Proof.
  unfold Api.chat. cbv zeta.
  edestruct serialize_literal as [text Ht];
    [| exists text; unfold bind at 1; rewrite (JSON_stringify_run _ _ w Ht);
       apply after_fetch_run].
  repeat constructor; cbn [snd]; eexists; reflexivity.
Qed.

(** X9. When the server answers a request with a status that is not ok and
    a JSON object as body, every wrapper rejects with an [Error] whose
    message is the body's [detail], or the wrapper's own message when the
    detail is missing or falsy. *)
Theorem wrappers_surface_detail (fetch : Fetch) (props : list (string * value))
  (w : World) :
  (forall request, fetch request = Normal (mkResponse false (Normal (VObj props)))) ->
  let message fallback :=
    ToString (js_or (default VUndefined (obj_lookup "detail" props))
                (VStr fallback)) in
  (forall file,
     eval (Api.uploadDocument fetch file) w
     = Throw (Error (message "Failed to upload document")))
  /\ (forall params,
        eval (Api.generateQuiz fetch params) w
        = Throw (Error (message "Failed to generate quiz")))
  /\ (forall params,
        eval (Api.generateQuestionPaper fetch params) w
        = Throw (Error (message "Failed to generate question paper")))
  /\ (forall params,
        eval (Api.generateFlashcards fetch params) w
        = Throw (Error (message "Failed to generate flashcards")))
  /\ (forall question sessionId,
        eval (Api.chat fetch question sessionId) w
        = Throw (Error (message "Failed to chat")))
  /\ (forall d fallback,
        obj_lookup "detail" props = Some (VStr d) -> d <> EmptyString ->
        message fallback = d)
  /\ (forall fallback,
        obj_lookup "detail" props = None -> message fallback = fallback).
Proof.
  intros Hfetch. cbv zeta. unfold eval. repeat split.
  - intros file. rewrite uploadDocument_run, Hfetch. reflexivity.
  - intros params. destruct (generateQuiz_run fetch params w) as [text ->].
    rewrite Hfetch. reflexivity.
  - intros params. destruct (generateQuestionPaper_run fetch params w) as [text ->].
    rewrite Hfetch. reflexivity.
  - intros params. destruct (generateFlashcards_run fetch params w) as [text ->].
    rewrite Hfetch. reflexivity.
  - intros question sessionId.
    destruct (chat_run fetch question sessionId w) as [text ->].
    rewrite Hfetch. reflexivity.
  - intros d fallback -> Hd. unfold js_or. cbn [from_option id ToBoolean].
    destruct (String.eqb_spec d EmptyString); [contradiction | reflexivity].
  - intros fallback ->. reflexivity.
Qed.

Lemma wrappers_surface_detail_witness :
  eval (Api.generateQuiz
          (fun _ => Normal (mkResponse false
                              (Normal (VObj [("detail", VStr "No document uploaded")]))))
          (Api.mkQuizParams None (Some 10) (Some EmptyString) (Some "medium"))) w0
  = Throw (Error "No document uploaded").
Proof.
  destruct (wrappers_surface_detail
              (fun _ => Normal (mkResponse false
                                  (Normal (VObj [("detail", VStr "No document uploaded")]))))
              [("detail", VStr "No document uploaded")] w0 ltac:(reflexivity))
    as (_ & H & _).
  apply H.
Defined.

(** X10. On an ok response a wrapper settles exactly as [response.json()]
    does, without looking at the body; a network failure, and a body of an
    error response that is not JSON, are passed on as they are. *)
Theorem wrappers_pass_through (fetch : Fetch) (w : World) :
  (forall settled,
     (forall request, fetch request = Normal (mkResponse true settled)) ->
     (forall file, eval (Api.uploadDocument fetch file) w = settled)
     /\ (forall params, eval (Api.generateQuiz fetch params) w = settled)
     /\ (forall params, eval (Api.generateQuestionPaper fetch params) w = settled)
     /\ (forall params, eval (Api.generateFlashcards fetch params) w = settled)
     /\ (forall q s, eval (Api.chat fetch q s) w = settled))
  /\ (forall e,
        (forall request,
           fetch request = Throw e
           \/ fetch request = Normal (mkResponse false (Throw e))) ->
        (forall file, eval (Api.uploadDocument fetch file) w = Throw e)
        /\ (forall params, eval (Api.generateQuiz fetch params) w = Throw e)
        /\ (forall params, eval (Api.generateQuestionPaper fetch params) w = Throw e)
        /\ (forall params, eval (Api.generateFlashcards fetch params) w = Throw e)
        /\ (forall q s, eval (Api.chat fetch q s) w = Throw e)).
Proof.
  unfold eval. split.
  - intros settled Hfetch. repeat split.
    + intros file. rewrite uploadDocument_run, Hfetch. reflexivity.
    + intros params. destruct (generateQuiz_run fetch params w) as [text ->].
      rewrite Hfetch. reflexivity.
    + intros params. destruct (generateQuestionPaper_run fetch params w) as [text ->].
      rewrite Hfetch. reflexivity.
    + intros params. destruct (generateFlashcards_run fetch params w) as [text ->].
      rewrite Hfetch. reflexivity.
    + intros q s. destruct (chat_run fetch q s w) as [text ->].
      rewrite Hfetch. reflexivity.
  - intros e Hfetch.
    assert (Hs : forall fallback request, settle fallback (fetch request) = Throw e).
    { intros fallback request. by destruct (Hfetch request) as [-> | ->]. }
    repeat split.
    + intros file. rewrite uploadDocument_run. cbn [fst]. apply Hs.
    + intros params. destruct (generateQuiz_run fetch params w) as [text ->].
      cbn [fst]. apply Hs.
    + intros params. destruct (generateQuestionPaper_run fetch params w) as [text ->].
      cbn [fst]. apply Hs.
    + intros params. destruct (generateFlashcards_run fetch params w) as [text ->].
      cbn [fst]. apply Hs.
    + intros q s. destruct (chat_run fetch q s w) as [text ->].
      cbn [fst]. apply Hs.
Qed.

Lemma wrappers_pass_through_witness :
  eval (Api.uploadDocument
          (fun _ => Normal (mkResponse true (Normal (VObj [("success", VBool false)]))))
          "notes.pdf") w0
  = Normal (VObj [("success", VBool false)]).
Proof.
  destruct (wrappers_pass_through
              (fun _ => Normal (mkResponse true (Normal (VObj [("success", VBool false)]))))
              w0) as [H _].
  destruct (H (Normal (VObj [("success", VBool false)])) ltac:(reflexivity))
    as (Hu & _).
  apply Hu.
Defined.

Lemma js_or_default d o :
  js_or (Api.opt_num o) (VNum d) = js_or (Api.opt_num (or_default d o)) (VNum d).
Proof.
  destruct o as [n|]; unfold or_default, js_or; cbn [Api.opt_num ToBoolean].
  - destruct (Z.eqb_spec n 0) as [->|Hn]; cbn [negb Api.opt_num ToBoolean].
    + by destruct (d =? 0)%Z.
    + by destruct (Z.eqb_spec n 0).
  - by destruct (d =? 0)%Z.
Qed.

(** X11. A count of zero cannot be requested: [generateQuestionPaper] and
    [generateQuiz] send the default (10, 8 and 8 questions for the paper, 10
    for the quiz) in place of a count that is 0 or left out, so they behave
    on every network exactly as if the default had been passed. *)
Theorem zero_count_sends_default (fetch : Fetch) (w : World) :
  (forall doc one two three topic difficulty,
     Api.generateQuestionPaper fetch
       (Api.mkQuestionPaperParams doc one two three topic difficulty) w
     = Api.generateQuestionPaper fetch
         (Api.mkQuestionPaperParams doc (or_default 10 one) (or_default 8 two)
            (or_default 8 three) topic difficulty) w)
  /\ (forall doc n topic difficulty,
        Api.generateQuiz fetch (Api.mkQuizParams doc n topic difficulty) w
        = Api.generateQuiz fetch
            (Api.mkQuizParams doc (or_default 10 n) topic difficulty) w)
  /\ or_default 10 (Some 0) = Some 10
  /\ or_default 10 None = Some 10
  /\ or_default 10 (Some 3) = Some 3.
Proof.
  split; [|split; [|repeat split]].
  - intros. unfold Api.generateQuestionPaper.
    cbn [Api.qp_documentId Api.qp_oneMarkCount Api.qp_twoMarkCount
           Api.qp_threeMarkCount Api.qp_topic Api.qp_difficulty].
    by rewrite <- !js_or_default.
  - intros. unfold Api.generateQuiz.
    cbn [Api.qz_documentId Api.qz_numQuestions Api.qz_topic Api.qz_difficulty].
    by rewrite <- !js_or_default.
Qed.

Lemma settle_detail fallback fetched props d :
  fetched = Normal (mkResponse false (Normal (VObj props))) ->
  obj_lookup "detail" props = Some (VStr d) -> d <> EmptyString ->
  settle fallback fetched = Throw (Error d).
Proof.
  intros -> Hd Hne. unfold settle. cbn [ok json is_nullish own_property].
  rewrite Hd. unfold js_or, new_Error. cbn [from_option id ToBoolean].
  destruct (String.eqb_spec d EmptyString); [contradiction | reflexivity].
Qed.

(** X12. End to end: when the server refuses a request with a non-empty
    [detail] text, that text is what the user is shown. The quiz and the
    question-paper pages show it as an error notification and change
    nothing but the loading flag; the upload marks the file as failed, shows
    the text, leaves the cache as it is and sets no redirect. *)
Theorem server_detail_reaches_user (fetch : Fetch)
  (props : list (string * value)) (d : string) :
  (forall request, fetch request = Normal (mkResponse false (Normal (VObj props)))) ->
  obj_lookup "detail" props = Some (VStr d) ->
  d <> EmptyString ->
  (forall params st w,
     Quiz.handleGenerateQuiz (eval (Api.generateQuiz fetch params) w) (st, w)
     = (Normal tt,
        (Quiz.setIsLoading false st, exec (toast_error (VStr d)) w)))
  /\ (forall params st w,
        QuestionPaper.handleGenerate
          (eval (Api.generateQuestionPaper fetch params) w) (st, w)
        = (Normal tt,
           (QuestionPaper.setIsLoading false st,
            exec (toast_error (VStr d))
              (exec (console_error "Question paper generation error:" (Error d))
                 w))))
  /\ (forall name size uid ticks files w,
        let u :=
          PDFUpload.mkUpload name size uid ticks
            (eval (Api.uploadDocument fetch name) w) in
        let s' := exec (PDFUpload.processFile u) (files, w) in
        snd s' = exec (toast_error (VStr d)) w
        /\ storage (snd s') = storage w
        /\ timers (snd s') = timers w).
Proof.
  intros Hfetch Hd Hne. split; [|split].
  - intros params st w. unfold eval.
    destruct (generateQuiz_run fetch params w) as [text ->]. cbn [fst].
    rewrite (settle_detail _ _ props d (Hfetch _) Hd Hne). reflexivity.
  - intros params st w. unfold eval.
    destruct (generateQuestionPaper_run fetch params w) as [text ->]. cbn [fst].
    rewrite (settle_detail _ _ props d (Hfetch _) Hd Hne). reflexivity.
  - intros name size uid ticks files w. cbv zeta.
    assert (Hs : PDFUpload.settled
                   (PDFUpload.mkUpload name size uid ticks
                      (eval (Api.uploadDocument fetch name) w))
                 = Throw (Error d)).
    { cbn [PDFUpload.settled]. unfold eval. rewrite uploadDocument_run. cbn [fst].
      apply (settle_detail _ _ props d (Hfetch _) Hd Hne). }
    destruct (processFile_failure _ files w _ Hs) as [files' Hrun].
    assert (Hw : snd (exec (PDFUpload.processFile
                              (PDFUpload.mkUpload name size uid ticks
                                 (eval (Api.uploadDocument fetch name) w)))
                        (files, w))
                 = exec (toast_error (VStr d)) w)
      by (unfold exec at 1; rewrite Hrun; reflexivity).
    rewrite Hw. repeat split.
Qed.

Lemma server_detail_reaches_user_witness :
  let fetch : Fetch :=
    fun _ => Normal (mkResponse false
                       (Normal (VObj [("detail", VStr "No document uploaded")]))) in
  toasts (snd (exec (Quiz.handleGenerateQuiz
                       (eval (Api.generateQuiz fetch
                                (Api.mkQuizParams None (Some 5) (Some EmptyString) (Some "hard")))
                          w0))
                 (Quiz.initial, w0)))
  = [ToastError (VStr "No document uploaded")].
Proof.
  cbv zeta.
  destruct (server_detail_reaches_user
              (fun _ => Normal (mkResponse false
                                  (Normal (VObj [("detail", VStr "No document uploaded")]))))
              [("detail", VStr "No document uploaded")] "No document uploaded"
              ltac:(reflexivity) eq_refl ltac:(discriminate)) as [H _].
  unfold exec. rewrite H. reflexivity.
Defined.

(** * The quiz page *)

Lemma obj_lookup_set_eq k v o : obj_lookup k (obj_set k v o) = Some v.
Proof.
  induction o as [|[k' v'] o IH]; cbn [obj_set obj_lookup].
  - by rewrite String.eqb_refl.
  - destruct (String.eqb k k') eqn:E; cbn [obj_lookup]; rewrite ?String.eqb_refl;
      [reflexivity | by rewrite E].
Qed.

Lemma obj_lookup_set_ne k k' v o :
  k' <> k -> obj_lookup k' (obj_set k v o) = obj_lookup k' o.
Proof.
  intros Hne. induction o as [|[k0 v0] o IH]; cbn [obj_set obj_lookup].
  - destruct (String.eqb_spec k' k); [contradiction | reflexivity].
  - destruct (String.eqb_spec k k0) as [->|Hk]; cbn [obj_lookup].
    + destruct (String.eqb_spec k' k0); [contradiction | reflexivity].
    + by rewrite IH.
Qed.

Lemma obj_set_keys k v o :
  map fst (obj_set k v o)
  = if existsb (String.eqb k) (map fst o) then map fst o
    else (map fst o ++ [k])%list.
Proof.
  induction o as [|[k' v'] o IH]; cbn [obj_set map fst existsb app]; [reflexivity|].
  destruct (String.eqb_spec k k') as [->|Hk]; cbn [map fst orb]; [reflexivity|].
  rewrite IH. by destruct (existsb (String.eqb k) (map fst o)).
Qed.

Lemma distinct_snoc ks k :
  distinct ks = true -> existsb (String.eqb k) ks = false ->
  distinct (ks ++ [k]) = true.
Proof.
  induction ks as [|k0 ks IH]; cbn [distinct existsb app]; [reflexivity|].
  intros Hd Hk. apply andb_prop in Hd as [Hk0 Hd].
  apply orb_false_elim in Hk as [Hne Hk].
  rewrite IH by assumption. rewrite andb_true_r.
  rewrite existsb_app. cbn [existsb]. apply negb_true_iff in Hk0. rewrite Hk0.
  cbn [orb]. rewrite orb_false_r. rewrite String.eqb_sym. by rewrite Hne.
Qed.

(** X13. [handleAnswerChange(questionId, answer)] records the answer under
    the question and leaves the answers to the other questions, the rest of
    the state and the world as they are; a question never gets a second
    entry, so distinct questions stay distinct. *)
Theorem answer_is_recorded (st : Quiz.State) (w : World) (questionId answer : string) :
  let s' := exec (QuizHandlers.handleAnswerChange questionId answer) (st, w) in
  let before := QuizHandlers.spread (Quiz.answers st) in
  exists after,
    Quiz.answers (fst s') = VObj after
    /\ obj_lookup questionId after = Some (VStr answer)
    /\ (forall other, other <> questionId ->
          obj_lookup other after = obj_lookup other before)
    /\ (distinct (map fst before) = true -> distinct (map fst after) = true)
    /\ List.length after
       = (if existsb (String.eqb questionId) (map fst before)
          then List.length before else S (List.length before))
    /\ Quiz.quiz (fst s') = Quiz.quiz st
    /\ Quiz.submitted (fst s') = Quiz.submitted st
    /\ snd s' = w.
Proof.
  cbv zeta. eexists. split; [reflexivity|].
  split; [apply obj_lookup_set_eq|].
  split; [intros other Hne; by apply obj_lookup_set_ne|].
  split; [|split; [|repeat split]].
  - intros Hd. rewrite obj_set_keys.
    destruct (existsb _ _) eqn:E; [exact Hd | by apply distinct_snoc].
  - rewrite <- (length_map fst (obj_set _ _ _)), obj_set_keys.
    destruct (existsb _ _); rewrite ?length_app, length_map; cbn; lia.
Qed.

Lemma answer_is_recorded_witness :
  let st :=
    Quiz.mkState Quiz.take (VArr []) (VStr "id9")
      (VObj [("q1", VStr "a"); ("q2", VStr "c")]) false VNull VNull false in
  exists after,
    Quiz.answers (fst (exec (QuizHandlers.handleAnswerChange "q1" "b") (st, w0)))
    = VObj after
    /\ obj_lookup "q1" after = Some (VStr "b")
    /\ obj_lookup "q2" after = Some (VStr "c")
    /\ List.length after = 2%nat.
Proof.
  cbv zeta.
  destruct (answer_is_recorded
              (Quiz.mkState Quiz.take (VArr []) (VStr "id9")
                 (VObj [("q1", VStr "a"); ("q2", VStr "c")]) false VNull VNull false)
              w0 "q1" "b") as (after & Ha & Hq & Ho & _ & Hl & _).
  exists after. split; [exact Ha|]. split; [exact Hq|].
  split; [rewrite Ho; [reflexivity | discriminate] | exact Hl].
Defined.

(** X14. A submission that is rejected is shown as an error and changes
    nothing but the loading flag, so the quiz can be submitted again. One
    that succeeds with a result summary stores the results and the summary,
    marks the quiz as submitted and announces the score. When the response
    has results but no summary, the results are stored and the quiz is
    marked as submitted all the same, and then an error is shown in place
    of the score. *)
Theorem submission_outcomes (props sprops : list (string * value))
  (st : Quiz.State) (w : World) :
  let results := default VUndefined (obj_lookup "results" props) in
  let shown st' :=
    Quiz.setIsLoading false
      (Quiz.setSubmitted true (Quiz.setSummary st' (Quiz.setResults results
         (Quiz.setIsLoading true st)))) in
  (forall e,
     QuizHandlers.handleSubmitQuiz (Throw e) (st, w)
     = (Normal tt,
        (Quiz.setIsLoading false st,
         exec (toast_error (VStr (exn_message e))) w)))
  /\ (obj_lookup "summary" props = Some (VObj sprops) ->
   QuizHandlers.handleSubmitQuiz (Normal (VObj props)) (st, w)
   = (Normal tt,
      (shown (VObj sprops),
       exec (toast_success
               (VStr ("Quiz completed! Score: "
                      +:+ ToString (default VUndefined (obj_lookup "score" sprops))
                      +:+ "%"))) w)))
  /\ (obj_lookup "summary" props = None ->
      QuizHandlers.handleSubmitQuiz (Normal (VObj props)) (st, w)
      = (Normal tt,
         (shown VUndefined,
          exec (toast_error (VStr (exn_message TypeError))) w))).
Proof.
  cbv zeta. split; [reflexivity|].
  split; intros Hs; unfold QuizHandlers.handleSubmitQuiz;
    unfold bind at 1; unfold setState at 1; cbn [fst snd];
    unfold try_finally, try_catch, bind, await, GetV, ret, setState, liftW;
    cbn [fst snd]; rewrite Hs; reflexivity.
Qed.

Lemma submission_outcomes_witness :
  toasts (snd (exec (QuizHandlers.handleSubmitQuiz
                       (Normal (VObj [("results", VArr []);
                                      ("summary", VObj [("score", VNum 80)])])))
                 (Quiz.initial, w0)))
  = [ToastSuccess (VStr "Quiz completed! Score: 80%")].
Proof.
  destruct (submission_outcomes
              [("results", VArr []); ("summary", VObj [("score", VNum 80)])]
              [("score", VNum 80)] Quiz.initial w0) as (_ & H & _).
  unfold exec. rewrite H; reflexivity.
Defined.

(** * What the pages find in the cache when they are mounted *)

Lemma get_reads_back key data w w1 :
  set_succeeds key data None w ->
  storage_blocked w1 = storage_blocked w ->
  storage w1 !! getKey key = storage (exec (set key data None) w) !! getKey key ->
  get key w1 = (Normal (JSON_roundtrip data), w1).
Proof.
  intros Hok Hb Hs.
  destruct (set_then_parse key data None w Hok)
    as (text & props & Hw & E & Hp & Hexp & _ & Hd).
  rewrite Hw in Hs. cbn [storage set_storage] in Hs. rewrite lookup_insert_eq in Hs.
  rewrite (get_unexpiring key w1 text props); [| congruence | exact Hs | exact Hp |].
  - rewrite Hd. by destruct data.
  - by rewrite Hexp.
Qed.

Lemma handleGenerateQuiz_stored props qprops st w :
  obj_lookup "quiz" props = Some (VObj qprops) ->
  let questions := default VUndefined (obj_lookup "questions" qprops) in
  let quizId := default VUndefined (obj_lookup "quizId" qprops) in
  exec (Quiz.handleGenerateQuiz (Normal (VObj props))) (st, w)
  = (Quiz.mkState Quiz.take questions quizId (VObj []) false VNull VNull false,
     exec (toast_success (VStr "Quiz generated and cached!"))
       (exec (set QUIZ (VObj [("questions", questions); ("quizId", quizId)]) None) w)).
Proof.
  intros Hq. cbv zeta. unfold exec at 1, Quiz.handleGenerateQuiz.
  unfold bind at 1. unfold setState at 1. cbn [fst snd].
  unfold try_finally, try_catch, bind, await, GetV, ret, liftW, setState.
  cbn [fst snd]. rewrite Hq. cbn [from_option id fst snd].
  unfold exec at 2.
  destruct (set QUIZ _ None w) as [c w'] eqn:E.
  rewrite set_run in E. injection E as <- _. reflexivity.
Qed.

(** X15. A quiz that was generated and written to the cache is found again
    when the page is mounted afresh, however much later: the mount effect
    loads the same questions and quiz id (a falsy id becomes [null]), opens
    the take tab, announces the cached quiz, and leaves storage alone. *)
Theorem generated_quiz_survives_reload
  (props qprops : list (string * value)) (l : list value) (qid : value)
  (st : Quiz.State) (w : World) (d : Z) :
  obj_lookup "quiz" props = Some (VObj qprops) ->
  obj_lookup "questions" qprops = Some (VArr l) ->
  obj_lookup "quizId" qprops = Some qid ->
  l <> [] ->
  JSON_serializable (VObj [("questions", VArr l); ("quizId", qid)]) = true ->
  set_succeeds QUIZ (VObj [("questions", VArr l); ("quizId", qid)]) None w ->
  let s1 := exec (Quiz.handleGenerateQuiz (Normal (VObj props))) (st, w) in
  let s2 := exec QuizHandlers.loadCachedQuiz (Quiz.initial, advance d (snd s1)) in
  Quiz.quiz (fst s1) = VArr l
  /\ Quiz.quiz (fst s2) = VArr l
  /\ Quiz.quizId (fst s2) = js_or qid VNull
  /\ Quiz.activeTab (fst s2) = Quiz.take
  /\ toasts (snd s2)
     = (toasts (snd s1) ++ [ToastSuccess (VStr "Loaded cached quiz")])%list
  /\ storage (snd s2) = storage (snd s1).
Proof.
  intros Hq Hl Hi Hne Hser Hok. cbv zeta.
  rewrite (handleGenerateQuiz_stored props qprops st w Hq).
  rewrite Hl, Hi. cbn [from_option id fst snd].
  set (data := VObj [("questions", VArr l); ("quizId", qid)]) in *.
  set (w1 := advance d _).
  assert (Hg : get QUIZ w1 = (Normal (JSON_roundtrip data), w1))
    by (apply (get_reads_back QUIZ data w w1 Hok); [|reflexivity];
        cbn; by destruct (set_world_fields QUIZ data None w) as (-> & _)).
  destruct (serializable_roundtrip data Hser) as [Hn _].
  assert (Hr : JSON_roundtrip data = data) by exact Hn.
  rewrite Hr in Hg.
  destruct l as [|x l]; [contradiction|].
  assert (Hload : exec QuizHandlers.loadCachedQuiz (Quiz.initial, w1)
                  = (Quiz.mkState Quiz.take (VArr (x :: l)) (js_or qid VNull)
                       (VObj []) false VNull VNull false,
                     exec (toast_success (VStr "Loaded cached quiz")) w1)).
  { unfold exec at 1, QuizHandlers.loadCachedQuiz.
    unfold bind at 1. unfold liftW at 1. cbn [fst snd]. rewrite Hg.
    reflexivity. }
  rewrite Hload. repeat split.
Qed.

Lemma generated_quiz_survives_reload_witness :
  let response :=
    VObj [("quiz", VObj [("quizId", VStr "id9"); ("questions", VArr [VStr "q"])])] in
  let s1 := exec (Quiz.handleGenerateQuiz (Normal response)) (Quiz.initial, w0) in
  let s2 := exec QuizHandlers.loadCachedQuiz (Quiz.initial, advance 5000 (snd s1)) in
  Quiz.quiz (fst s2) = VArr [VStr "q"] /\ Quiz.activeTab (fst s2) = Quiz.take.
Proof.
  cbv zeta.
  destruct (generated_quiz_survives_reload
              [("quiz", VObj [("quizId", VStr "id9"); ("questions", VArr [VStr "q"])])]
              [("quizId", VStr "id9"); ("questions", VArr [VStr "q"])]
              [VStr "q"] (VStr "id9") Quiz.initial w0 5000)
    as (_ & H1 & _ & H2 & _); try reflexivity; [discriminate|].
  split; [exact H1 | exact H2].
Defined.

Lemma handleGenerate_stored props l st w :
  ToBoolean (default VUndefined (obj_lookup "success" props)) = true ->
  obj_lookup "questionPaper" props = Some (VArr l) ->
  exec (QuestionPaper.handleGenerate (Normal (VObj props))) (st, w)
  = (QuestionPaper.mkState true false (VArr l) [],
     exec (toast_success (VStr "Question paper generated and cached!"))
       (exec (set QUESTION_PAPER (VArr l) None) w)).
Proof.
  intros Hs Hp. unfold exec at 1, QuestionPaper.handleGenerate.
  unfold bind at 1. unfold setState at 1. cbn [fst snd].
  unfold try_finally, try_catch, bind, await, GetV, ret, liftW, setState.
  cbn [fst snd]. rewrite Hs, Hp. cbn [from_option id fst snd ToBoolean Array_isArray].
  unfold exec at 2.
  destruct (set QUESTION_PAPER _ None w) as [c w'] eqn:E.
  rewrite set_run in E. injection E as <- _. reflexivity.
Qed.

Lemma get_miss_quiet key w :
  storage_blocked w = true \/ storage w !! getKey key = None ->
  eval (get key) w = Normal VNull
  /\ toasts (exec (get key) w) = toasts w
  /\ storage (exec (get key) w) = storage w.
Proof.
  intros H. unfold eval, exec. destruct (storage_blocked w) eqn:E.
  - by rewrite get_blocked.
  - destruct H as [H|H]; [discriminate|]. by rewrite get_absent.
Qed.

Lemma loadCachedQuiz_miss st w :
  eval (get QUIZ) w = Normal VNull ->
  exec QuizHandlers.loadCachedQuiz (st, w) = (st, exec (get QUIZ) w).
Proof.
  unfold eval, exec, QuizHandlers.loadCachedQuiz, bind, liftW. cbn [fst snd].
  destruct (get QUIZ w) as [c w']. cbn [fst snd]. by intros ->.
Qed.

Lemma loadCachedPaper_miss st w :
  eval (get QUESTION_PAPER) w = Normal VNull ->
  exec QuestionPaperHandlers.loadCachedPaper (st, w)
  = (st, exec (get QUESTION_PAPER) w).
Proof.
  unfold eval, exec, QuestionPaperHandlers.loadCachedPaper, bind, liftW.
  cbn [fst snd].
  destruct (get QUESTION_PAPER w) as [c w']. cbn [fst snd]. by intros ->.
Qed.

(** X16. A question paper that was generated and written to the cache is
    loaded again by the mount effect, however much later and also when it
    has no questions; but once the [beforeunload] listener has run, the
    mount effect finds nothing: the page state stays as it started and no
    notification is shown. *)
Theorem paper_survives_remount_not_unload
  (props : list (string * value)) (l : list value)
  (st : QuestionPaper.State) (w : World) (d : Z) :
  ToBoolean (default VUndefined (obj_lookup "success" props)) = true ->
  obj_lookup "questionPaper" props = Some (VArr l) ->
  JSON_serializable (VArr l) = true ->
  set_succeeds QUESTION_PAPER (VArr l) None w ->
  let s1 := exec (QuestionPaper.handleGenerate (Normal (VObj props))) (st, w) in
  let remounted :=
    exec QuestionPaperHandlers.loadCachedPaper
      (QuestionPaper.initial, advance d (snd s1)) in
  let reloaded :=
    exec QuestionPaperHandlers.loadCachedPaper
      (QuestionPaper.initial,
       advance d (exec QuestionPaper.handleBeforeUnload (snd s1))) in
  (QuestionPaper.questions (fst remounted) = VArr l
   /\ QuestionPaper.generated (fst remounted) = true
   /\ toasts (snd remounted)
      = (toasts (snd s1)
         ++ [ToastSuccess (VStr "Loaded cached question paper")])%list)
  /\ (fst reloaded = QuestionPaper.initial
      /\ toasts (snd reloaded) = toasts (snd s1)).
Proof.
  intros Hs Hp Hser Hok. cbv zeta.
  rewrite (handleGenerate_stored props l st w Hs Hp). cbn [fst snd].
  destruct (set_world_fields QUESTION_PAPER (VArr l) None w) as (Hb & _).
  destruct (set_succeeds_inv _ _ _ _ Hok) as [E _].
  split.
  - set (w1 := advance d _).
    assert (Hg : get QUESTION_PAPER w1 = (Normal (VArr l), w1)).
    { destruct (serializable_roundtrip (VArr l) Hser) as [Hn _].
      rewrite <- Hn at 1.
      apply (get_reads_back QUESTION_PAPER (VArr l) w w1 Hok); [|reflexivity].
      cbn. exact Hb. }
    assert (Hload : exec QuestionPaperHandlers.loadCachedPaper
                      (QuestionPaper.initial, w1)
                    = (QuestionPaper.mkState true false (VArr l) [],
                       exec (toast_success (VStr "Loaded cached question paper")) w1)).
    { unfold exec at 1, QuestionPaperHandlers.loadCachedPaper.
      unfold bind at 1. unfold liftW at 1. cbn [fst snd]. rewrite Hg.
      reflexivity. }
    rewrite Hload. repeat split.
  - set (wt := exec (toast_success _) _).
    assert (Et : storage_blocked wt = false) by (subst wt; cbn; by rewrite Hb).
    assert (Hr : exec QuestionPaper.handleBeforeUnload wt
                 = set_storage (delete (getKey QUESTION_PAPER) (storage wt)) wt).
    { unfold QuestionPaper.handleBeforeUnload, exec. rewrite remove_run.
      cbn [snd]. by rewrite Et. }
    rewrite Hr. set (w1 := advance d _).
    assert (Hm : storage_blocked w1 = true
                 \/ storage w1 !! getKey QUESTION_PAPER = None)
      by (right; subst w1; cbn [advance storage set_storage];
          apply lookup_delete_eq).
    destruct (get_miss_quiet QUESTION_PAPER w1 Hm) as (Hv & Ht & _).
    rewrite (loadCachedPaper_miss _ _ Hv). cbn [fst snd].
    split; [reflexivity|]. rewrite Ht. reflexivity.
Qed.

Lemma paper_survives_remount_not_unload_witness :
  let response :=
    VObj [("success", VBool true); ("questionPaper", VArr [VStr "q1"])] in
  let s1 := exec (QuestionPaper.handleGenerate (Normal response))
              (QuestionPaper.initial, w0) in
  QuestionPaper.questions
    (fst (exec QuestionPaperHandlers.loadCachedPaper
            (QuestionPaper.initial, advance 7 (snd s1))))
  = VArr [VStr "q1"]
  /\ fst (exec QuestionPaperHandlers.loadCachedPaper
            (QuestionPaper.initial,
             advance 7 (exec QuestionPaper.handleBeforeUnload (snd s1))))
     = QuestionPaper.initial.
Proof.
  cbv zeta.
  destruct (paper_survives_remount_not_unload
              [("success", VBool true); ("questionPaper", VArr [VStr "q1"])]
              [VStr "q1"] QuestionPaper.initial w0 7)
    as ((H1 & _) & (H2 & _)); try reflexivity.
  split; [exact H1 | exact H2].
Defined.

(** X17. After [clear()] the quiz page and the question-paper page come up
    empty: their mount effects leave the page state as it is and show no
    notification, whatever the cache held before and whether or not storage
    is accessible. *)
Theorem cleared_cache_loads_nothing
  (sq : Quiz.State) (sp : QuestionPaper.State) (w : World) :
  let w1 := exec clear w in
  (fst (exec QuizHandlers.loadCachedQuiz (sq, w1)) = sq
   /\ toasts (snd (exec QuizHandlers.loadCachedQuiz (sq, w1))) = toasts w)
  /\ (fst (exec QuestionPaperHandlers.loadCachedPaper (sp, w1)) = sp
      /\ toasts (snd (exec QuestionPaperHandlers.loadCachedPaper (sp, w1)))
         = toasts w).
Proof.
  cbv zeta.
  assert (Ht : toasts (exec clear w) = toasts w).
  { unfold exec. rewrite clear_run. cbn [snd].
    by destruct (storage_blocked w). }
  assert (Hm : forall key,
             storage_blocked (exec clear w) = true
             \/ storage (exec clear w) !! getKey key = None).
  { intros key. destruct (clear_cleared w) as [H|H]; [by left | right; apply H]. }
  split.
  - destruct (get_miss_quiet QUIZ _ (Hm QUIZ)) as (Hv & Hg & _).
    rewrite (loadCachedQuiz_miss _ _ Hv). cbn [fst snd].
    split; [reflexivity | by rewrite Hg].
  - destruct (get_miss_quiet QUESTION_PAPER _ (Hm QUESTION_PAPER)) as (Hv & Hg & _).
    rewrite (loadCachedPaper_miss _ _ Hv). cbn [fst snd].
    split; [reflexivity | by rewrite Hg].
Qed.

(** * Showing and hiding answers *)

Lemma existsb_Zeqb_In i l : existsb (Z.eqb i) l = true <-> List.In i l.
Proof.
  rewrite List.existsb_exists. split.
  - intros (x & Hx & E). apply Z.eqb_eq in E. by subst.
  - intros H. exists i. split; [exact H | apply Z.eqb_refl].
Qed.

Lemma toggle_In index prev j :
  List.In j (QuestionPaperHandlers.toggle index prev)
  <-> (if (j =? index)%Z then ~ List.In index prev else List.In j prev).
Proof.
  unfold QuestionPaperHandlers.toggle.
  destruct (existsb (Z.eqb index) prev) eqn:E.
  - apply existsb_Zeqb_In in E. rewrite List.filter_In.
    destruct (Z.eqb_spec j index) as [->|Hne].
    + rewrite Z.eqb_refl. cbn. split; [intros [_ H]; discriminate | tauto].
    + destruct (Z.eqb_spec index j); [congruence|]. cbn. tauto.
  - assert (Hn : ~ List.In index prev)
      by (intros H; apply existsb_Zeqb_In in H; congruence).
    rewrite List.in_app_iff. cbn [List.In].
    destruct (Z.eqb_spec j index) as [->|Hne]; [tauto|].
    split; [intros [H|[H|[]]]; [exact H | congruence] | tauto].
Qed.

(** X18. [toggleAnswer(index)] flips the visibility of that one answer and
    of no other: afterwards [index] is visible exactly when it was not
    before, every other index is as before, no index is listed twice, and
    toggling again gives back the same set of visible answers. Nothing else
    of the page or of the world changes. *)
Theorem toggle_flips_one_answer
  (index : Z) (st : QuestionPaper.State) (w : World) :
  List.NoDup (QuestionPaper.visibleAnswers st) ->
  let s1 := exec (QuestionPaperHandlers.toggleAnswer index) (st, w) in
  let s2 := exec (QuestionPaperHandlers.toggleAnswer index) s1 in
  let before := QuestionPaper.visibleAnswers st in
  let after := QuestionPaper.visibleAnswers (fst s1) in
  (List.In index after <-> ~ List.In index before)
  /\ (forall j, j <> index -> (List.In j after <-> List.In j before))
  /\ List.NoDup after
  /\ (forall j, List.In j (QuestionPaper.visibleAnswers (fst s2)) <-> List.In j before)
  /\ QuestionPaper.questions (fst s1) = QuestionPaper.questions st
  /\ QuestionPaper.generated (fst s1) = QuestionPaper.generated st
  /\ snd s1 = w.
Proof.
  intros Hnd. cbv zeta.
  change (QuestionPaper.visibleAnswers
            (fst (exec (QuestionPaperHandlers.toggleAnswer index) (st, w))))
    with (QuestionPaperHandlers.toggle index (QuestionPaper.visibleAnswers st)).
  change (QuestionPaper.visibleAnswers
            (fst (exec (QuestionPaperHandlers.toggleAnswer index)
                    (exec (QuestionPaperHandlers.toggleAnswer index) (st, w)))))
    with (QuestionPaperHandlers.toggle index
            (QuestionPaperHandlers.toggle index (QuestionPaper.visibleAnswers st))).
  set (prev := QuestionPaper.visibleAnswers st) in *.
  split; [|split; [|split; [|split; [|repeat split]]]].
  - rewrite toggle_In. by rewrite Z.eqb_refl.
  - intros j Hne. rewrite toggle_In.
    by destruct (Z.eqb_spec j index); [contradiction|].
  - unfold QuestionPaperHandlers.toggle.
    destruct (existsb (Z.eqb index) prev) eqn:E.
    + by apply List.NoDup_filter.
    + apply List.NoDup_app; [exact Hnd | repeat constructor; intros [] |].
      intros a Ha [<-|[]]. apply existsb_Zeqb_In in Ha. congruence.
  - intros j. rewrite toggle_In.
    destruct (Z.eqb_spec j index) as [->|Hne].
    + rewrite toggle_In, Z.eqb_refl.
      destruct (List.in_dec Z.eq_dec index prev); tauto.
    + rewrite toggle_In. by destruct (Z.eqb_spec j index); [contradiction|].
Qed.

Lemma toggle_flips_one_answer_witness :
  QuestionPaper.visibleAnswers
    (fst (exec (QuestionPaperHandlers.toggleAnswer 2)
            (QuestionPaper.mkState true false (VArr []) [1; 2; 3]%Z, w0)))
  = [1; 3]%Z
  /\ List.NoDup
       (QuestionPaper.visibleAnswers
          (fst (exec (QuestionPaperHandlers.toggleAnswer 2)
                  (QuestionPaper.mkState true false (VArr []) [1; 2; 3]%Z, w0)))).
Proof.
  split; [reflexivity|].
  apply (toggle_flips_one_answer 2
           (QuestionPaper.mkState true false (VArr []) [1; 2; 3]%Z) w0).
  cbn. repeat constructor; cbn; intros H; decompose [or] H; discriminate || contradiction.
Defined.

(** * The upload component *)

Lemma mark_bump uid s p f :
  PDFUpload.mark uid s p (PDFUpload.bump_progress uid f) = PDFUpload.mark uid s p f.
Proof.
  unfold PDFUpload.mark, PDFUpload.bump_progress.
  destruct (String.eqb (PDFUpload.id f) uid) eqn:E; cbn [andb].
  - destruct (PDFUpload.progress f <? 90)%Z; cbn; by rewrite E.
  - by rewrite E.
Qed.

Lemma mark_ticks uid s p n files :
  map (PDFUpload.mark uid s p) (Nat.iter n (map (PDFUpload.bump_progress uid)) files)
  = map (PDFUpload.mark uid s p) files.
Proof.
  induction n as [|n IH]; [reflexivity|]. rewrite Nat.iter_succ.
  rewrite List.map_map. rewrite <- IH.
  apply List.map_ext. intros f. apply mark_bump.
Qed.

Lemma mark_fresh uid s p files :
  ~ List.In uid (map PDFUpload.id files) ->
  map (PDFUpload.mark uid s p) files = files.
Proof.
  induction files as [|f files IH]; [reflexivity|]. cbn [map List.In].
  intros H. rewrite IH by tauto. f_equal. unfold PDFUpload.mark.
  destruct (String.eqb_spec (PDFUpload.id f) uid); [tauto | reflexivity].
Qed.

Lemma mark_mark uid s p s' p' f :
  PDFUpload.mark uid s p (PDFUpload.mark uid s' p' f) = PDFUpload.mark uid s p f.
Proof.
  unfold PDFUpload.mark.
  destruct (String.eqb (PDFUpload.id f) uid) eqn:E; cbn; by rewrite E.
Qed.

(** The files after one pass of the loop: the new file is listed last, and
    it and every file sharing its identifier carry the final status. A
    response that is [null] or [undefined] makes reading its message throw,
    so the file ends as failed although the upload went through. *)
Lemma processFile_files u (files : PDFUpload.State) w :
  let uid := PDFUpload.random_id u in
  let listed s p :=
    (map (PDFUpload.mark uid s p) files
     ++ [PDFUpload.mkUploadedFile uid (PDFUpload.file_name u)
           (PDFUpload.file_size u) s p])%list in
  fst (exec (PDFUpload.processFile u) (files, w))
  = match PDFUpload.settled u with
    | Normal response =>
        if is_nullish response then listed PDFUpload.error 0%Z
        else listed PDFUpload.completed 100%Z
    | Throw _ => listed PDFUpload.error 0%Z
    end.
Proof.
  cbv zeta. unfold exec, PDFUpload.processFile.
  unfold bind at 1. unfold setState at 1. cbn [fst snd].
  unfold try_catch, bind. rewrite repeat_ticks_run.
  unfold await. destruct (PDFUpload.settled u) as [response|e].
  - unfold liftW at 1. cbn [fst snd]. rewrite clear_run. cbn [fst snd].
    unfold setState at 1. cbn [fst snd PDFUpload.id].
    rewrite mark_ticks, map_app. cbn [map]. unfold PDFUpload.mark at 2.
    cbn [PDFUpload.id PDFUpload.name PDFUpload.size]. rewrite String.eqb_refl.
    destruct response; cbn [is_nullish]; try reflexivity;
      cbn; rewrite map_app, List.map_map; cbn [map];
      (f_equal; [apply List.map_ext; intros f; apply mark_mark|]);
      unfold PDFUpload.mark; cbn; by rewrite String.eqb_refl.
  - cbn [fst snd]. unfold setState at 1. cbn [fst snd PDFUpload.id].
    unfold liftW. cbn [fst snd].
    rewrite mark_ticks, map_app. cbn [map]. unfold PDFUpload.mark at 2.
    cbn [PDFUpload.id PDFUpload.name PDFUpload.size]. by rewrite String.eqb_refl.
Qed.





(** X20. An upload whose promise fulfils with [null] or [undefined] has
    cleared the cache by the time reading the message throws: the file ends
    with status [error] and progress 0, an error is shown, and no redirect
    is scheduled, yet every cache slot is empty. *)
Theorem null_response_clears_but_fails
  (u : PDFUpload.Upload) (response : value)
  (files : PDFUpload.State) (w : World) :
  PDFUpload.settled u = Normal response ->
  is_nullish response = true ->
  let s' := exec (PDFUpload.processFile u) (files, w) in
  last (fst s') = Some (PDFUpload.mkUploadedFile (PDFUpload.random_id u)
                          (PDFUpload.file_name u) (PDFUpload.file_size u)
                          PDFUpload.error 0)
  /\ (forall key, eval (get key) (snd s') = Normal VNull)
  /\ timers (snd s') = timers w
  /\ toasts (snd s') = (toasts w ++ [ToastError (VStr (exn_message TypeError))])%list.
Proof.
  intros Hs Hn. cbv zeta.
  pose proof (processFile_files u files w) as Hf. cbv zeta in Hf.
  rewrite Hs, Hn in Hf. rewrite Hf.
  destruct (processFile_success u files w response Hs) as [files1 Hrun].
  unfold exec at 1 2 3. rewrite Hrun, Hn. cbn [fst snd].
  split; [by rewrite last_snoc|].
  split; [|split].
  - intros key. apply cleared_get.
    eapply cleared_ext; [| | apply (clear_cleared w)]; reflexivity.
  - unfold exec. rewrite clear_run. cbn. by destruct (storage_blocked w).
  - unfold exec. rewrite clear_run. cbn. by destruct (storage_blocked w).
Qed.

Lemma null_response_clears_but_fails_witness :
  let u := PDFUpload.mkUpload "a.pdf" 10 "id1" 3 (Normal VNull) in
  timers (snd (exec (PDFUpload.processFile u) ([], w0))) = [].
Proof.
  cbv zeta.
  destruct (null_response_clears_but_fails
              (PDFUpload.mkUpload "a.pdf" 10 "id1" 3 (Normal VNull)) VNull [] w0)
    as (_ & _ & H & _); [reflexivity | reflexivity | exact H].
Defined.

Lemma iter_map {A} (g : A -> A) n (l : list A) :
  Nat.iter n (map g) l = map (Nat.iter n g) l.
Proof.
  induction n as [|n IH]; [by rewrite List.map_id|].
  rewrite Nat.iter_succ, IH, List.map_map. apply List.map_ext.
  intros a. by rewrite Nat.iter_succ.
Qed.

Lemma bump_iter uid n f :
  PDFUpload.progress f = 0%Z ->
  let f' := Nat.iter n (PDFUpload.bump_progress uid) f in
  PDFUpload.id f' = PDFUpload.id f
  /\ PDFUpload.name f' = PDFUpload.name f
  /\ PDFUpload.status f' = PDFUpload.status f
  /\ PDFUpload.progress f'
     = (if String.eqb (PDFUpload.id f) uid then Z.min (10 * Z.of_nat n) 90 else 0)%Z.
Proof.
  intros Hp. cbv zeta. induction n as [|n (Hi & Hn & Hs & Hpr)].
  - simpl Nat.iter. repeat split. rewrite Hp. by destruct (String.eqb _ _).
  - rewrite Nat.iter_succ.
    set (fn := Nat.iter n (PDFUpload.bump_progress uid) f) in *.
    unfold PDFUpload.bump_progress. rewrite Hi, Hpr. destruct (String.eqb (PDFUpload.id f) uid) eqn:E; cbn [andb].
    + destruct (Z.ltb_spec (Z.min (10 * Z.of_nat n) 90) 90);
        cbn [PDFUpload.id PDFUpload.name PDFUpload.status PDFUpload.progress];
        repeat split; try assumption; lia.
    + repeat split; assumption.
Qed.




Lemma filter_none {A} (p : A -> bool) (l : list A) :
  Forall (fun a => p a = false) l -> List.filter p l = [].
Proof.
  induction 1 as [|a l Ha _ IH]; [reflexivity|]. cbn [List.filter].
  by rewrite Ha.
Qed.

Lemma filter_idem {A} (p : A -> bool) (l : list A) :
  List.filter p (List.filter p l) = List.filter p l.
Proof.
  induction l as [|a l IH]; [reflexivity|]. cbn [List.filter].
  destruct (p a) eqn:E; cbn [List.filter]; rewrite ?E; [by f_equal | exact IH].
Qed.

(** X22. In a drop, the files that are not PDFs are ignored: the outcome
    is that of dropping the PDFs alone. When no dropped file is a PDF the
    drop only resets the drag flag and shows "Please select PDF files
    only": the files listed, storage and the timers stay as they were. *)
Theorem drop_ignores_other_types
  (dropped : list PDFUploadHandlers.File) (st : PDFUploadHandlers.State) (w : World) :
  let is_pdf file := String.eqb (PDFUploadHandlers.type file) "application/pdf" in
  PDFUploadHandlers.handleDrop dropped (st, w)
  = PDFUploadHandlers.handleDrop (List.filter is_pdf dropped) (st, w)
  /\ (Forall (fun file => PDFUploadHandlers.type file <> "application/pdf") dropped ->
      PDFUploadHandlers.handleDrop dropped (st, w)
      = (Normal tt,
         (PDFUploadHandlers.mkState false (PDFUploadHandlers.files st),
          exec (toast_error (VStr "Please select PDF files only")) w))).
Proof.
  cbv zeta. split.
  - unfold PDFUploadHandlers.handleDrop. by rewrite filter_idem.
  - intros Hall. unfold PDFUploadHandlers.handleDrop.
    rewrite filter_none; [reflexivity|].
    eapply Forall_impl; [exact Hall|]. cbv beta. intros file Hne.
    by destruct (String.eqb_spec (PDFUploadHandlers.type file) "application/pdf").
Qed.

Lemma drop_ignores_other_types_witness :
  let png :=
    PDFUploadHandlers.mkFile "image/png"
      (PDFUpload.mkUpload "a.png" 10 "id1" 3 (Normal (VObj []))) in
  toasts (snd (exec (PDFUploadHandlers.handleDrop [png])
                 (PDFUploadHandlers.mkState true [], w0)))
  = [ToastError (VStr "Please select PDF files only")].
Proof.
  cbv zeta.
  destruct (drop_ignores_other_types
              [PDFUploadHandlers.mkFile "image/png"
                 (PDFUpload.mkUpload "a.png" 10 "id1" 3 (Normal (VObj [])))]
              (PDFUploadHandlers.mkState true []) w0) as [_ H].
  unfold exec. rewrite H; [reflexivity|].
  repeat constructor. discriminate.
Defined.





(** * The chat component *)

Lemma skip_all_ws s :
  forallb is_str_ws (list_ascii_of_string s) = true -> skip_str_ws s = EmptyString.
Proof.
  induction s as [|c s IH]; [reflexivity|]. cbn [list_ascii_of_string forallb skip_str_ws].
  intros H. apply andb_prop in H as [-> H]. by apply IH.
Qed.

Lemma skip_keeps_ink s :
  existsb (fun c => negb (is_str_ws c)) (list_ascii_of_string s) = true ->
  exists c r, skip_str_ws s = String c r /\ is_str_ws c = false.
Proof.
  induction s as [|c s IH]; [discriminate|].
  cbn [list_ascii_of_string existsb skip_str_ws]. intros H.
  destruct (is_str_ws c) eqn:E; [apply IH; exact H | by exists c, s].
Qed.

Lemma list_of_append a b :
  list_ascii_of_string (a +:+ b)
  = (list_ascii_of_string a ++ list_ascii_of_string b)%list.
Proof.
  induction a as [|c a IH]; [reflexivity|].
  rewrite append_cons. cbn [list_ascii_of_string app]. by rewrite IH.
Qed.

Lemma rev_keeps_ink s :
  existsb (fun c => negb (is_str_ws c)) (list_ascii_of_string s) = true ->
  existsb (fun c => negb (is_str_ws c)) (list_ascii_of_string (string_rev s)) = true.
Proof.
  induction s as [|c s IH]; [discriminate|].
  cbn [list_ascii_of_string existsb string_rev]. intros H.
  rewrite list_of_append, existsb_app. cbn [list_ascii_of_string existsb].
  apply orb_prop in H as [H|H]; [by rewrite H, orb_true_r | by rewrite IH].
Qed.

Lemma trim_cases s :
  (forallb is_str_ws (list_ascii_of_string s) = true -> trim s = EmptyString)
  /\ (existsb (fun c => negb (is_str_ws c)) (list_ascii_of_string s) = true ->
      trim s <> EmptyString).
Proof.
  unfold trim. split; intros H.
  - by rewrite (skip_all_ws s H).
  - destruct (skip_keeps_ink s H) as (c & r & Hs & Hc). rewrite Hs.
    assert (Hi : existsb (fun c => negb (is_str_ws c))
                   (list_ascii_of_string (string_rev (String c r))) = true)
      by (apply rev_keeps_ink; cbn [list_ascii_of_string existsb]; by rewrite Hc).
    destruct (skip_keeps_ink _ Hi) as (c' & r' & -> & _).
    cbn [string_rev].
    destruct (string_rev r'); [rewrite append_nil | rewrite append_cons];
      discriminate.
Qed.


(** X24. [handleSend] ignores an input made of white space only: whatever
    the request would have done, no message is added, the input is kept,
    and the world is untouched. *)
Theorem blank_input_sends_nothing
  (elapsed : Z) (settled : Completion value) (st : ChatInterface.State) (w : World) :
  forallb is_str_ws (list_ascii_of_string (ChatInterface.input st)) = true ->
  ChatInterface.handleSend elapsed settled (st, w) = (Normal tt, (st, w)).
Proof.
  intros H. unfold ChatInterface.handleSend. cbn [fst].
  destruct (trim_cases (ChatInterface.input st)) as [Ht _].
  by rewrite (Ht H).
Qed.

Lemma blank_input_sends_nothing_witness :
  ChatInterface.handleSend 250 (Normal (VObj [("answer", VStr "hi")]))
    (ChatInterface.mkState [] "   " false, w0)
  = (Normal tt, (ChatInterface.mkState [] "   " false, w0)).
Proof.
  apply (blank_input_sends_nothing 250 (Normal (VObj [("answer", VStr "hi")]))
           (ChatInterface.mkState [] "   " false) w0).
  reflexivity.
Defined.



(** X26. The effect that runs when the chat is mounted always leaves an
    empty history and an empty chat slot in the cache, and keeps the other
    slots as they are: a conversation saved before is not offered again. *)
Theorem chat_starts_fresh (st : ChatInterface.State) (w : World) :
  let s' := exec ChatInterface.clearOnMount (st, w) in
  ChatInterface.messages (fst s') = []
  /\ ChatInterface.input (fst s') = ChatInterface.input st
  /\ eval (get CHAT_HISTORY) (snd s') = Normal VNull
  /\ (forall key, key <> CHAT_HISTORY ->
        storage (snd s') !! getKey key = storage w !! getKey key)
  /\ toasts (snd s') = toasts w.
Proof.
  cbv zeta. unfold exec, ChatInterface.clearOnMount, bind, liftW, setState.
  cbn [fst snd]. rewrite remove_run. cbn [fst snd ChatInterface.setMessages
    ChatInterface.messages ChatInterface.input].
  split; [reflexivity|]. split; [reflexivity|].
  destruct (storage_blocked w) eqn:E.
  - split; [unfold eval; by rewrite get_blocked|]. by split.
  - split; [|split; [|reflexivity]].
    + unfold eval. rewrite get_absent; [reflexivity | exact E |].
      cbn [storage set_storage]. apply lookup_delete_eq.
    + intros key Hne. cbn [storage set_storage]. apply lookup_delete_ne.
      intros Heq. apply getKey_inj in Heq. congruence.
Qed.

Lemma chat_starts_fresh_witness :
  let w := exec (set QUIZ (VStr "quiz") None)
             (exec (set CHAT_HISTORY (VArr [VStr "hello"]) None) w0) in
  let s' := exec ChatInterface.clearOnMount (ChatInterface.initial, w) in
  eval (get CHAT_HISTORY) (snd s') = Normal VNull
  /\ storage (snd s') !! getKey QUIZ = storage w !! getKey QUIZ.
Proof.
  cbv zeta.
  destruct (chat_starts_fresh ChatInterface.initial
              (exec (set QUIZ (VStr "quiz") None)
                 (exec (set CHAT_HISTORY (VArr [VStr "hello"]) None) w0)))
    as (_ & _ & Hg & Hk & _).
  split; [exact Hg | apply Hk; discriminate].
Defined.

(** * The flashcard component *)

(** X27. On a deck of [n > 0] cards with the index in range, [handleNext]
    and [handlePrevious] keep the index in range, wrap around at the ends,
    undo each other, and turn the card face up; on an empty deck either one
    sets the index to [NaN]. The deck and the world are never changed. *)
Theorem deck_navigation_wraps
  (l : list value) (i : Z) (flipped loading : bool) (w : World) :
  let n := Z.of_nat (List.length l) in
  let at_ k := (FlashcardView.mkState k flipped (VArr l) loading, w) in
  let next := exec FlashcardView.handleNext in
  let previous := exec FlashcardView.handlePrevious in
  let shown k := (FlashcardView.mkState k false (VArr l) loading, w) in
  ((0 <= i < n)%Z ->
   next (at_ (Finite i)) = shown (Finite (if (i + 1 =? n)%Z then 0 else i + 1))
   /\ previous (at_ (Finite i)) = shown (Finite (if (i =? 0)%Z then n - 1 else i - 1))
   /\ previous (next (at_ (Finite i))) = shown (Finite i)
   /\ next (previous (at_ (Finite i))) = shown (Finite i))
  /\ (l = [] ->
      next (at_ (Finite i)) = shown NaN /\ previous (at_ (Finite i)) = shown NaN).
Proof.
  cbv zeta.
  assert (Hn : forall k,
             exec FlashcardView.handleNext
               (FlashcardView.mkState (Finite k) flipped (VArr l) loading, w)
             = (FlashcardView.mkState
                  (js_rem (Finite (k + 1)) (Finite (Z.of_nat (List.length l))))
                  false (VArr l) loading, w)) by reflexivity.
  assert (Hp : forall k,
             exec FlashcardView.handlePrevious
               (FlashcardView.mkState (Finite k) flipped (VArr l) loading, w)
             = (FlashcardView.mkState
                  (js_rem (Finite (k + -1 + Z.of_nat (List.length l)))
                     (Finite (Z.of_nat (List.length l))))
                  false (VArr l) loading, w)) by reflexivity.
  assert (Hn' : forall k,
             exec FlashcardView.handleNext
               (FlashcardView.mkState (Finite k) false (VArr l) loading, w)
             = (FlashcardView.mkState
                  (js_rem (Finite (k + 1)) (Finite (Z.of_nat (List.length l))))
                  false (VArr l) loading, w)) by reflexivity.
  assert (Hp' : forall k,
             exec FlashcardView.handlePrevious
               (FlashcardView.mkState (Finite k) false (VArr l) loading, w)
             = (FlashcardView.mkState
                  (js_rem (Finite (k + -1 + Z.of_nat (List.length l)))
                     (Finite (Z.of_nat (List.length l))))
                  false (VArr l) loading, w)) by reflexivity.
  set (n := Z.of_nat (List.length l)) in *.
  assert (Hrem_next : (0 <= i < n)%Z ->
            js_rem (Finite (i + 1)) (Finite n)
            = Finite (if (i + 1 =? n)%Z then 0 else i + 1)).
  { intros Hi. unfold js_rem. destruct (Z.eqb_spec n 0); [lia|].
    destruct (Z.eqb_spec (i + 1) n) as [->|Hne].
    - by rewrite Z.rem_same.
    - by rewrite Z.rem_small by lia. }
  assert (Hrem_prev : (0 <= i < n)%Z ->
            js_rem (Finite (i + -1 + n)) (Finite n)
            = Finite (if (i =? 0)%Z then n - 1 else i - 1)).
  { intros Hi. unfold js_rem. destruct (Z.eqb_spec n 0); [lia|].
    destruct (Z.eqb_spec i 0) as [->|Hne].
    - rewrite Z.rem_small by lia. f_equal. lia.
    - rewrite Z.rem_mod_nonneg by lia. f_equal. symmetry.
      apply (Z.mod_unique_pos _ _ 1); lia. }
  split.
  - intros Hi. rewrite Hn, Hp, Hrem_next, Hrem_prev by exact Hi.
    split; [reflexivity|]. split; [reflexivity|].
    rewrite Hp', Hn'. unfold js_rem. destruct (Z.eqb_spec n 0); [lia|].
    split; do 3 f_equal.
    + destruct (Z.eqb_spec (i + 1) n) as [E|E].
      * rewrite Z.rem_small by lia. lia.
      * rewrite Z.rem_mod_nonneg by lia. symmetry.
        apply (Z.mod_unique_pos _ _ 1); lia.
    + destruct (Z.eqb_spec i 0) as [->|E].
      * replace (n - 1 + 1)%Z with n by lia. apply Z.rem_same. lia.
      * replace (i - 1 + 1)%Z with i by lia. apply Z.rem_small. lia.
  - intros ->. rewrite Hn, Hp. split; reflexivity.
Qed.

Lemma deck_navigation_wraps_witness :
  exec FlashcardView.handleNext
    (FlashcardView.mkState (Finite 2) true (VArr [VNull; VNull; VNull]) false, w0)
  = (FlashcardView.mkState (Finite 0) false (VArr [VNull; VNull; VNull]) false, w0)
  /\ exec FlashcardView.handleNext
       (FlashcardView.mkState (Finite 0) true (VArr []) false, w0)
     = (FlashcardView.mkState NaN false (VArr []) false, w0).
Proof.
  split.
  - destruct (deck_navigation_wraps [VNull; VNull; VNull] 2 true false w0) as [H _].
    apply H. cbn. lia.
  - destruct (deck_navigation_wraps [] 0 true false w0) as [_ H].
    apply H. reflexivity.
Defined.

Lemma loadFlashcards_miss props cards st w :
  get FLASHCARDS w = (Normal VNull, w) ->
  obj_lookup "flashcards" props = Some (VArr cards) ->
  exec (FlashcardView.loadFlashcards (Normal (VObj props))) (st, w)
  = (FlashcardView.setIsLoading false (FlashcardView.setFlashcards (VArr cards) st),
     exec (toast_success
             (VStr ("Generated " +:+ Z_to_string (Z.of_nat (List.length cards))
                    +:+ " flashcards")))
       (exec (set FLASHCARDS (VArr cards) None) w)).
Proof.
  intros Hg Hp. unfold exec at 1, FlashcardView.loadFlashcards.
  unfold bind at 1. unfold liftW at 1. cbn [fst snd]. rewrite Hg.
  cbn [ToBoolean andb]. unfold bind at 1. unfold ret at 1.
  cbn iota. unfold bind at 1. unfold setState at 1. cbn [fst snd].
  unfold try_finally, try_catch, bind, await, GetV, ret, liftW, setState.
  cbn [fst snd]. rewrite Hp. cbn [from_option id fst snd].
  unfold exec at 2.
  destruct (set FLASHCARDS _ None w) as [c w'] eqn:E.
  rewrite set_run in E. injection E as <- _. reflexivity.
Qed.

Lemma loadFlashcards_hit settled x cards st w :
  get FLASHCARDS w = (Normal (VArr (x :: cards)), w) ->
  exec (FlashcardView.loadFlashcards settled) (st, w)
  = (FlashcardView.setFlashcards (VArr (x :: cards)) st,
     exec (toast_success
             (VStr ("Loaded " +:+ Z_to_string (Z.of_nat (List.length (x :: cards)))
                    +:+ " cached flashcards"))) w).
Proof.
  intros Hg. unfold exec at 1, FlashcardView.loadFlashcards.
  unfold bind at 1. unfold liftW at 1. cbn [fst snd]. rewrite Hg.
  reflexivity.
Qed.

Lemma loadFlashcards_empty e st w :
  get FLASHCARDS w = (Normal (VArr []), w) ->
  exec (FlashcardView.loadFlashcards (Throw e)) (st, w)
  = (FlashcardView.setIsLoading false st,
     exec (toast_error (VStr (exn_message e))) w).
Proof.
  intros Hg. unfold exec at 1, FlashcardView.loadFlashcards.
  unfold bind at 1. unfold liftW at 1. cbn [fst snd]. rewrite Hg.
  reflexivity.
Qed.

(** X28. Flashcards are requested once: when the cache holds none, the
    deck the server returns is shown and written to the cache, and a later
    mount takes that deck from the cache, however its own request would
    have settled. An empty deck is the exception: it is written to the
    cache but never served from it, so a later mount asks the server
    again. *)
Theorem flashcards_requested_once
  (props : list (string * value)) (cards : list value)
  (st : FlashcardView.State) (w : World) (d : Z)
  (settled' : Completion value) (e : exn) :
  storage w !! getKey FLASHCARDS = None ->
  obj_lookup "flashcards" props = Some (VArr cards) ->
  JSON_serializable (VArr cards) = true ->
  set_succeeds FLASHCARDS (VArr cards) None w ->
  let n := Z_to_string (Z.of_nat (List.length cards)) in
  let s1 := exec (FlashcardView.loadFlashcards (Normal (VObj props))) (st, w) in
  let later := (FlashcardView.initial, advance d (snd s1)) in
  (FlashcardView.flashcards (fst s1) = VArr cards
   /\ FlashcardView.isLoading (fst s1) = false
   /\ toasts (snd s1)
      = (toasts w ++ [ToastSuccess (VStr ("Generated " +:+ n +:+ " flashcards"))])%list)
  /\ (cards <> [] ->
      let s2 := exec (FlashcardView.loadFlashcards settled') later in
      FlashcardView.flashcards (fst s2) = VArr cards
      /\ toasts (snd s2)
         = (toasts (snd s1)
            ++ [ToastSuccess (VStr ("Loaded " +:+ n +:+ " cached flashcards"))])%list
      /\ storage (snd s2) = storage (snd s1))
  /\ (cards = [] ->
      let s2 := exec (FlashcardView.loadFlashcards (Throw e)) later in
      FlashcardView.flashcards (fst s2) = VArr []
      /\ toasts (snd s2)
         = (toasts (snd s1) ++ [ToastError (VStr (exn_message e))])%list).
Proof.
  intros Habs Hp Hser Hok. cbv zeta.
  destruct (set_succeeds_inv _ _ _ _ Hok) as [E _].
  rewrite (loadFlashcards_miss props cards st w (get_absent _ _ E Habs) Hp).
  cbn [fst snd].
  destruct (set_world_fields FLASHCARDS (VArr cards) None w) as (Hb & _ & Ht & _).
  set (w1 := advance d _).
  assert (Hg : get FLASHCARDS w1 = (Normal (VArr cards), w1)).
  { destruct (serializable_roundtrip (VArr cards) Hser) as [Hn _].
    rewrite <- Hn at 1.
    apply (get_reads_back FLASHCARDS (VArr cards) w w1 Hok); [|reflexivity].
    cbn. exact Hb. }
  split; [|split].
  - repeat split. cbn. by rewrite Ht.
  - intros Hne. destruct cards as [|x cards]; [contradiction|].
    rewrite (loadFlashcards_hit settled' x cards _ w1 Hg). repeat split.
  - intros ->. rewrite (loadFlashcards_empty e _ w1 Hg). repeat split.
Qed.

Lemma flashcards_requested_once_witness :
  let response := VObj [("flashcards", VArr [VStr "card"])] in
  let s1 := exec (FlashcardView.loadFlashcards (Normal response))
              (FlashcardView.initial, w0) in
  FlashcardView.flashcards
    (fst (exec (FlashcardView.loadFlashcards (Throw (Error "offline")))
            (FlashcardView.initial, advance 60000 (snd s1))))
  = VArr [VStr "card"].
Proof.
  cbv zeta.
  destruct (flashcards_requested_once
              [("flashcards", VArr [VStr "card"])] [VStr "card"]
              FlashcardView.initial w0 60000 (Throw (Error "offline")) TypeError)
    as (_ & H & _);
    [reflexivity | reflexivity | reflexivity | reflexivity | apply H; discriminate].
Defined.

(** * The summary page *)

Lemma first_present_not_nullish a b c :
  is_nullish c = false -> is_nullish (Summary.first_present a b c) = false.
Proof.
  intros Hc. unfold Summary.first_present.
  destruct (is_nullish a) eqn:Ea; [|exact Ea].
  destruct (is_nullish b) eqn:Eb; [exact Hc | exact Eb].
Qed.

Lemma summary_handleGenerate_stored props sprops st w :
  ToBoolean (default VUndefined (obj_lookup "success" props)) = true ->
  obj_lookup "summary" props = Some (VObj sprops) ->
  let field name := default VUndefined (obj_lookup name sprops) in
  let data :=
    VObj [("overall",
           Summary.first_present (field "overall") (field "overallSummary")
             (VStr EmptyString));
          ("pageWise",
           Summary.first_present (field "pageWise") (field "pageWiseSummary")
             (VArr []));
          ("keyTopics",
           Summary.first_present (field "keyTopics") (VArr []) (VArr []))] in
  exec (Summary.handleGenerate (Normal (VObj props))) (st, w)
  = (Summary.mkState true false data,
     exec (toast_success (VStr "Summary generated and cached!"))
       (exec (set SUMMARY data None) w)).
Proof.
  intros Hs Hp. cbv zeta. unfold exec at 1, Summary.handleGenerate.
  unfold bind at 1. unfold setState at 1. cbn [fst snd].
  unfold Summary.coalesce, Summary.first_present.
  unfold try_finally, try_catch, bind, await, GetV, ret, liftW, setState.
  cbn [fst snd]. rewrite Hs, Hp. cbn [from_option id fst snd ToBoolean].
  unfold exec.
  repeat (cbn [fst snd is_nullish];
          match goal with
          | H : is_nullish ?v = _ |- context [is_nullish ?v] => rewrite H
          | |- context [is_nullish (default VUndefined ?o)] =>
              destruct (is_nullish (default VUndefined o)) eqn:?
          end);
    cbn [fst snd is_nullish]; rewrite !set_run; reflexivity.
Qed.

(** X29. A summary that is generated has all three of its fields: a field
    the server left out or sent as [null] is taken from its older name
    ([overallSummary], [pageWiseSummary]) or, failing that, is empty, so no
    field shown or cached is [null] or [undefined]. When the page is
    mounted again the cached summary is shown with every falsy field
    replaced by its empty default. *)
Theorem summary_fields_are_defaulted
  (props sprops : list (string * value)) (st : Summary.State) (w : World) (d : Z) :
  ToBoolean (default VUndefined (obj_lookup "success" props)) = true ->
  obj_lookup "summary" props = Some (VObj sprops) ->
  let field name := default VUndefined (obj_lookup name sprops) in
  let overall :=
    Summary.first_present (field "overall") (field "overallSummary")
      (VStr EmptyString) in
  let pageWise :=
    Summary.first_present (field "pageWise") (field "pageWiseSummary") (VArr []) in
  let keyTopics := Summary.first_present (field "keyTopics") (VArr []) (VArr []) in
  let data :=
    VObj [("overall", overall); ("pageWise", pageWise); ("keyTopics", keyTopics)] in
  let s1 := exec (Summary.handleGenerate (Normal (VObj props))) (st, w) in
  (Summary.summary (fst s1) = data
   /\ Summary.generated (fst s1) = true
   /\ is_nullish overall = false
   /\ is_nullish pageWise = false
   /\ is_nullish keyTopics = false)
  /\ (JSON_serializable data = true ->
      set_succeeds SUMMARY data None w ->
      let s2 := exec Summary.loadCachedSummary
                  (Summary.initial, advance d (snd s1)) in
      Summary.summary (fst s2)
      = VObj [("overall", js_or overall (VStr EmptyString));
              ("pageWise", js_or pageWise (VArr []));
              ("keyTopics", js_or keyTopics (VArr []))]
      /\ Summary.generated (fst s2) = true
      /\ toasts (snd s2)
         = (toasts (snd s1) ++ [ToastSuccess (VStr "Loaded cached summary")])%list).
Proof.
  intros Hs Hp. cbv zeta.
  rewrite (summary_handleGenerate_stored props sprops st w Hs Hp). cbn [fst snd].
  split.
  - split; [reflexivity|]. split; [reflexivity|].
    repeat split; by apply first_present_not_nullish.
  - intros Hser Hok.
    set (data := VObj (("overall", _) :: _)) in *. set (w1 := advance d _).
    assert (Hg : get SUMMARY w1 = (Normal data, w1)).
    { destruct (serializable_roundtrip data Hser) as [Hn _].
      rewrite <- Hn at 1.
      apply (get_reads_back SUMMARY data w w1 Hok); [|reflexivity].
      cbn. by destruct (set_world_fields SUMMARY data None w) as (-> & _). }
    assert (Hload : exec Summary.loadCachedSummary (Summary.initial, w1)
                    = (Summary.mkState true false
                         (VObj [("overall",
                                 js_or (default VUndefined (own_property "overall" data))
                                   (VStr EmptyString));
                                ("pageWise",
                                 js_or (default VUndefined (own_property "pageWise" data))
                                   (VArr []));
                                ("keyTopics",
                                 js_or (default VUndefined (own_property "keyTopics" data))
                                   (VArr []))]),
                       exec (toast_success (VStr "Loaded cached summary")) w1)).
    { unfold exec at 1, Summary.loadCachedSummary.
      unfold bind at 1. unfold liftW at 1. cbn [fst snd]. rewrite Hg.
      reflexivity. }
    rewrite Hload. repeat split.
Qed.

Lemma summary_fields_are_defaulted_witness :
  let response :=
    VObj [("success", VBool true);
          ("summary", VObj [("overallSummary", VStr "In short."); ("pageWise", VNull)])] in
  Summary.summary
    (fst (exec (Summary.handleGenerate (Normal response)) (Summary.initial, w0)))
  = VObj [("overall", VStr "In short."); ("pageWise", VArr []); ("keyTopics", VArr [])].
Proof.
  cbv zeta.
  destruct (summary_fields_are_defaulted
              [("success", VBool true);
               ("summary", VObj [("overallSummary", VStr "In short.");
                                 ("pageWise", VNull)])]
              [("overallSummary", VStr "In short."); ("pageWise", VNull)]
              Summary.initial w0 0)
    as [(H & _) _]; [reflexivity | reflexivity | exact H].
Defined.

(** * The progress interval of an upload *)

Lemma find_older l h :
  Forall (fun i => (UploadIntervals.handle i < h)%nat) l ->
  List.find (fun i => Nat.eqb (UploadIntervals.handle i) h) l = None
  /\ List.filter (fun i => negb (Nat.eqb (UploadIntervals.handle i) h)) l = l.
Proof.
  induction 1 as [|i l Hi _ [IH1 IH2]]; [by split|].
  cbn [List.find List.filter].
  destruct (Nat.eqb_spec (UploadIntervals.handle i) h); [lia|].
  cbn [negb]. by rewrite IH1, IH2.
Qed.

Lemma find_newest l h uid :
  Forall (fun i => (UploadIntervals.handle i < h)%nat) l ->
  List.find (fun i => Nat.eqb (UploadIntervals.handle i) h)
    (l ++ [UploadIntervals.mkInterval h uid])
  = Some (UploadIntervals.mkInterval h uid)
  /\ List.filter (fun i => negb (Nat.eqb (UploadIntervals.handle i) h))
       (l ++ [UploadIntervals.mkInterval h uid])
     = l.
Proof.
  intros Hl. split.
  - induction Hl as [|i l Hi _ IH]; cbn [app List.find UploadIntervals.handle].
    + by rewrite Nat.eqb_refl.
    + destruct (Nat.eqb_spec (UploadIntervals.handle i) h); [lia | exact IH].
  - destruct (find_older l h Hl) as [_ Hfi].
    rewrite List.filter_app, Hfi. cbn [List.filter UploadIntervals.handle].
    rewrite Nat.eqb_refl. cbn [negb]. apply app_nil_r.
Qed.

(** Timers that fire change nothing but the progress of files. *)
Lemma fire_all_run hs st w :
  exists g,
    (forall f, PDFUpload.id (g f) = PDFUpload.id f
               /\ PDFUpload.name (g f) = PDFUpload.name f
               /\ PDFUpload.size (g f) = PDFUpload.size f
               /\ PDFUpload.status (g f) = PDFUpload.status f)
    /\ UploadIntervals.fire_all hs (st, w)
       = (Normal tt,
          (UploadIntervals.mkState (map g (UploadIntervals.files st))
             (UploadIntervals.live st) (UploadIntervals.next_handle st),
           w)).
Proof.
  revert st. induction hs as [|h hs IH]; intros st.
  - exists (fun f => f). split; [by repeat split|].
    cbn [UploadIntervals.fire_all]. unfold ret. rewrite List.map_id. by destruct st.
  - cbn [UploadIntervals.fire_all]. unfold bind, UploadIntervals.fire. cbn [fst snd].
    destruct (List.find _ (UploadIntervals.live st)) as [i|].
    + unfold UploadIntervals.setFiles, setState. cbn [fst snd].
      destruct (IH (UploadIntervals.mkState
                      (map (PDFUpload.bump_progress (UploadIntervals.target i))
                         (UploadIntervals.files st))
                      (UploadIntervals.live st) (UploadIntervals.next_handle st)))
        as (g & Hg & ->).
      exists (fun f => g (PDFUpload.bump_progress (UploadIntervals.target i) f)).
      split.
      * intros f. destruct (Hg (PDFUpload.bump_progress (UploadIntervals.target i) f))
          as (-> & -> & -> & ->).
        unfold PDFUpload.bump_progress. by destruct (_ && _).
      * cbn [UploadIntervals.files UploadIntervals.live UploadIntervals.next_handle].
        by rewrite List.map_map.
    + destruct (IH st) as (g & Hg & ->). by exists g.
Qed.

Lemma clear_eval w : clear w = (Normal tt, exec clear w).
Proof. unfold exec. by rewrite clear_run. Qed.

(** One pass of the loop: the files, the live intervals and the next
    handle afterwards. *)
Lemma interval_processFile_run u st w :
  Forall (fun i => (UploadIntervals.handle i < UploadIntervals.next_handle st)%nat)
    (UploadIntervals.live st) ->
  let uid := UploadIntervals.random_id u in
  let h := UploadIntervals.next_handle st in
  let new :=
    PDFUpload.mkUploadedFile uid (UploadIntervals.file_name u)
      (UploadIntervals.file_size u) PDFUpload.uploading 0 in
  exists g w',
    (forall f, PDFUpload.id (g f) = PDFUpload.id f
               /\ PDFUpload.name (g f) = PDFUpload.name f
               /\ PDFUpload.size (g f) = PDFUpload.size f
               /\ PDFUpload.status (g f) = PDFUpload.status f)
    /\ UploadIntervals.processFile u (st, w)
       = (Normal tt,
          (UploadIntervals.mkState
             (match UploadIntervals.settled u with
              | Normal response =>
                  if is_nullish response
                  then map (PDFUpload.mark uid PDFUpload.error 0)
                         (map g (UploadIntervals.files st ++ [new]))
                  else map (PDFUpload.mark uid PDFUpload.completed 100)
                         (map g (UploadIntervals.files st ++ [new]))
              | Throw _ =>
                  map (PDFUpload.mark uid PDFUpload.error 0)
                    (map g (UploadIntervals.files st ++ [new]))
              end)
             (match UploadIntervals.settled u with
              | Normal _ => UploadIntervals.live st
              | Throw _ =>
                  (UploadIntervals.live st ++ [UploadIntervals.mkInterval h uid])%list
              end)
             (S h),
           w')).
Proof.
  intros Hinv. cbv zeta. unfold UploadIntervals.processFile.
  unfold bind at 1. unfold UploadIntervals.setFiles at 1, setState at 1.
  cbn [fst snd]. unfold try_catch. unfold bind at 1.
  unfold UploadIntervals.setInterval at 1.
  cbn [fst snd UploadIntervals.files UploadIntervals.live UploadIntervals.next_handle
       PDFUpload.id].
  unfold bind at 1.
  match goal with
  | |- context [UploadIntervals.fire_all ?hs (?s, ?x)] =>
      destruct (fire_all_run hs s x) as (g & Hg & ->)
  end.
  cbn [UploadIntervals.files UploadIntervals.live UploadIntervals.next_handle].
  exists g. unfold bind at 1, await at 1.
  destruct (find_newest (UploadIntervals.live st) (UploadIntervals.next_handle st)
              (UploadIntervals.random_id u) Hinv) as [_ Hfilter].
  destruct (UploadIntervals.settled u) as [response|e].
  - unfold bind at 1. unfold UploadIntervals.clearInterval at 1, setState at 1.
    cbn [fst snd UploadIntervals.files UploadIntervals.live
         UploadIntervals.next_handle].
    rewrite Hfilter. unfold bind at 1, liftW at 1. cbn [fst snd].
    rewrite clear_eval. unfold bind at 1.
    unfold UploadIntervals.setFiles at 1, setState at 1.
    cbn [fst snd UploadIntervals.files UploadIntervals.live
         UploadIntervals.next_handle].
    unfold bind at 1, GetV.
    destruct response; cbn [is_nullish];
      unfold throw, ret, bind, liftW, UploadIntervals.setFiles, setState;
      cbn [fst snd UploadIntervals.files UploadIntervals.live
           UploadIntervals.next_handle];
      try (eexists; split; [exact Hg | reflexivity]).
    all: eexists; split; [exact Hg|]; do 3 f_equal;
      rewrite List.map_map; apply List.map_ext; intros f; apply mark_mark.
  - unfold bind, liftW, UploadIntervals.setFiles, setState.
    cbn [fst snd UploadIntervals.files UploadIntervals.live
         UploadIntervals.next_handle].
    eexists; split; [exact Hg | reflexivity].
Qed.

Lemma fire_live n h i st w :
  List.find (fun i => Nat.eqb (UploadIntervals.handle i) h) (UploadIntervals.live st)
  = Some i ->
  UploadIntervals.fire_all (repeat h n) (st, w)
  = (Normal tt,
     (UploadIntervals.mkState
        (Nat.iter n (map (PDFUpload.bump_progress (UploadIntervals.target i)))
           (UploadIntervals.files st))
        (UploadIntervals.live st) (UploadIntervals.next_handle st),
      w)).
Proof.
  revert st. induction n as [|n IH]; intros st Hf.
  - cbn [repeat UploadIntervals.fire_all]. unfold ret. simpl Nat.iter. by destruct st.
  - cbn [repeat UploadIntervals.fire_all]. unfold bind, UploadIntervals.fire.
    cbn [fst snd]. rewrite Hf. unfold UploadIntervals.setFiles, setState.
    cbn [fst snd]. rewrite IH by exact Hf.
    cbn [UploadIntervals.files UploadIntervals.live UploadIntervals.next_handle].
    by rewrite Nat.iter_succ_r.
Qed.

Lemma fire_dead n h st w :
  List.find (fun i => Nat.eqb (UploadIntervals.handle i) h) (UploadIntervals.live st)
  = None ->
  UploadIntervals.fire_all (repeat h n) (st, w) = (Normal tt, (st, w)).
Proof.
  intros Hf. induction n as [|n IH]; [reflexivity|].
  cbn [repeat UploadIntervals.fire_all]. unfold bind, UploadIntervals.fire.
  cbn [fst snd]. by rewrite Hf.
Qed.

(** X30. The interval that simulates the progress of an upload is cleared
    only when the upload succeeds. After a successful upload its timer is
    dead, and firing it changes nothing. After a failed upload the interval
    stays live for good: each later firing raises the progress of the file
    already marked as failed, from 0 up to 90. Handles stay fresh either
    way. *)
Theorem interval_outlives_failed_upload
  (u : UploadIntervals.Upload) (st : UploadIntervals.State) (w : World) (n : nat) :
  Forall (fun i => (UploadIntervals.handle i < UploadIntervals.next_handle st)%nat)
    (UploadIntervals.live st) ->
  let h := UploadIntervals.next_handle st in
  let uid := UploadIntervals.random_id u in
  let s1 := exec (UploadIntervals.processFile u) (st, w) in
  let s2 := exec (UploadIntervals.fire_all (repeat h n)) s1 in
  Forall (fun i => (UploadIntervals.handle i
                    < UploadIntervals.next_handle (fst s1))%nat)
    (UploadIntervals.live (fst s1))
  /\ ((exists response, UploadIntervals.settled u = Normal response) ->
      UploadIntervals.live (fst s1) = UploadIntervals.live st /\ s2 = s1)
  /\ ((exists e, UploadIntervals.settled u = Throw e) ->
      UploadIntervals.live (fst s2)
      = (UploadIntervals.live st ++ [UploadIntervals.mkInterval h uid])%list
      /\ exists f,
           last (UploadIntervals.files (fst s2)) = Some f
           /\ PDFUpload.id f = uid
           /\ PDFUpload.status f = PDFUpload.error
           /\ PDFUpload.progress f = Z.min (10 * Z.of_nat n) 90).
Proof.
  intros Hinv. cbv zeta.
  destruct (interval_processFile_run u st w Hinv) as (g & w' & Hg & Hrun).
  cbv zeta in Hrun.
  apply (f_equal snd) in Hrun. cbn [snd] in Hrun.
  change (snd (UploadIntervals.processFile u (st, w)))
    with (exec (UploadIntervals.processFile u) (st, w)) in Hrun.
  rewrite Hrun. cbn [fst snd].
  cbn [UploadIntervals.live UploadIntervals.next_handle].
  split; [|split].
  - destruct (UploadIntervals.settled u).
    + eapply Forall_impl; [exact Hinv|]. cbv beta. intros; lia.
    + apply Forall_app. split.
      * eapply Forall_impl; [exact Hinv|]. cbv beta. intros; lia.
      * repeat constructor.
  - intros [response Hs]. rewrite Hs. split; [reflexivity|].
    unfold exec. rewrite fire_dead; [reflexivity|].
    cbn [UploadIntervals.live]. by destruct (find_older _ _ Hinv).
  - intros [e Hs]. rewrite Hs. unfold exec.
    rewrite (fire_live n _ (UploadIntervals.mkInterval (UploadIntervals.next_handle st)
                              (UploadIntervals.random_id u)))
      by (cbn [UploadIntervals.live]; by destruct (find_newest _ _
            (UploadIntervals.random_id u) Hinv)).
    cbn [fst snd UploadIntervals.live UploadIntervals.files UploadIntervals.target].
    split; [reflexivity|].
    rewrite iter_map, !map_app. cbn [map]. rewrite last_snoc.
    eexists. split; [reflexivity|].
    set (new := PDFUpload.mkUploadedFile _ _ _ _ _).
    assert (Hm : PDFUpload.mark (UploadIntervals.random_id u) PDFUpload.error 0 (g new)
                 = PDFUpload.mkUploadedFile (UploadIntervals.random_id u)
                     (UploadIntervals.file_name u) (UploadIntervals.file_size u)
                     PDFUpload.error 0).
    { unfold PDFUpload.mark. destruct (Hg new) as (-> & -> & -> & _).
      cbn [new PDFUpload.id PDFUpload.name PDFUpload.size].
      by rewrite String.eqb_refl. }
    rewrite Hm.
    destruct (bump_iter (UploadIntervals.random_id u) n
                (PDFUpload.mkUploadedFile (UploadIntervals.random_id u)
                   (UploadIntervals.file_name u) (UploadIntervals.file_size u)
                   PDFUpload.error 0) eq_refl) as (H1 & _ & H3 & H4).
    cbv zeta in H1, H3, H4. rewrite H1, H3, H4.
    cbn [PDFUpload.id PDFUpload.status]. by rewrite String.eqb_refl.
Qed.

Lemma interval_outlives_failed_upload_witness :
  let u := UploadIntervals.mkUpload "a.pdf" 10 "id1" [0; 0]%nat
             (Throw (Error "too large")) in
  let s1 := exec (UploadIntervals.processFile u)
              (UploadIntervals.mkState [] [] 0, w0) in
  exists f,
    last (UploadIntervals.files
            (fst (exec (UploadIntervals.fire_all (repeat 0%nat 4)) s1))) = Some f
    /\ PDFUpload.status f = PDFUpload.error
    /\ PDFUpload.progress f = 40%Z.
Proof.
  cbv zeta.
  destruct (interval_outlives_failed_upload
              (UploadIntervals.mkUpload "a.pdf" 10 "id1" [0; 0]%nat
                 (Throw (Error "too large")))
              (UploadIntervals.mkState [] [] 0) w0 4 (List.Forall_nil _))
    as (_ & _ & H).
  destruct H as (_ & f & H1 & _ & H2 & H3); [by eexists|].
  exists f. split; [exact H1 | split; [exact H2 | exact H3]].
Defined.

(** The loop body with its intervals agrees with the plain loop body: when
    the only timer that fires during the upload is the upload's own, both
    list the same files and leave the same world. *)
Lemma interval_model_agrees name size uid k settled st w :
  Forall (fun i => (UploadIntervals.handle i < UploadIntervals.next_handle st)%nat)
    (UploadIntervals.live st) ->
  let u' :=
    UploadIntervals.mkUpload name size uid
      (repeat (UploadIntervals.next_handle st) k) settled in
  let u := PDFUpload.mkUpload name size uid k settled in
  let s' := exec (UploadIntervals.processFile u') (st, w) in
  let s := exec (PDFUpload.processFile u) (UploadIntervals.files st, w) in
  UploadIntervals.files (fst s') = fst s /\ snd s' = snd s.
Proof.
  intros Hinv. cbv zeta.
  destruct (find_newest (UploadIntervals.live st) (UploadIntervals.next_handle st)
              uid Hinv) as [Hfind Hfilter].
  set (u := PDFUpload.mkUpload name size uid k settled).
  pose proof (processFile_files u (UploadIntervals.files st) w) as Hfiles.
  cbv zeta in Hfiles.
  assert (Hworld : snd (exec (PDFUpload.processFile u) (UploadIntervals.files st, w))
                   = match settled with
                     | Normal response =>
                         if is_nullish response
                         then exec (toast_error (VStr (exn_message TypeError)))
                                (exec clear w)
                         else exec (setTimeout_navigate "/chat" 1000)
                                (exec (toast_success
                                         (default VUndefined
                                            (own_property "message" response)))
                                   (exec clear w))
                     | Throw e => exec (toast_error (VStr (exn_message e))) w
                     end).
  { unfold exec at 1. destruct settled as [response|e] eqn:Hs.
    - by destruct (processFile_success u (UploadIntervals.files st) w response eq_refl)
        as [files1 ->].
    - by destruct (processFile_failure u (UploadIntervals.files st) w e eq_refl)
        as [files1 ->]. }
  rewrite Hfiles, Hworld. clear Hfiles Hworld.
  cbn [u PDFUpload.random_id PDFUpload.file_name PDFUpload.file_size
       PDFUpload.settled]. clear u.
  unfold exec at 1 2.
  destruct (UploadIntervals.processFile _ _) as [c [[F L N] W]] eqn:Hrun.
  cbn [fst snd UploadIntervals.files].
  unfold UploadIntervals.processFile in Hrun.
  cbn [UploadIntervals.random_id UploadIntervals.file_name UploadIntervals.file_size
       UploadIntervals.firings UploadIntervals.settled PDFUpload.id] in Hrun.
  unfold bind at 1 in Hrun.
  unfold UploadIntervals.setFiles at 1, setState at 1 in Hrun.
  cbn [fst snd] in Hrun. unfold try_catch in Hrun. unfold bind at 1 in Hrun.
  unfold UploadIntervals.setInterval at 1 in Hrun.
  cbn [fst snd UploadIntervals.files UploadIntervals.live UploadIntervals.next_handle]
    in Hrun.
  unfold bind at 1 in Hrun.
  rewrite (fire_live k _ (UploadIntervals.mkInterval (UploadIntervals.next_handle st) uid))
    in Hrun by exact Hfind.
  cbn [UploadIntervals.files UploadIntervals.live UploadIntervals.next_handle
       UploadIntervals.target] in Hrun.
  unfold bind at 1, await at 1 in Hrun. destruct settled as [response|e].
  - unfold bind at 1 in Hrun.
    unfold UploadIntervals.clearInterval at 1, setState at 1 in Hrun.
    cbn [fst snd UploadIntervals.files UploadIntervals.live
         UploadIntervals.next_handle] in Hrun.
    rewrite Hfilter in Hrun. unfold bind at 1, liftW at 1 in Hrun.
    cbn [fst snd] in Hrun. rewrite clear_eval in Hrun. unfold bind at 1 in Hrun.
    unfold UploadIntervals.setFiles at 1, setState at 1 in Hrun.
    cbn [fst snd UploadIntervals.files UploadIntervals.live
         UploadIntervals.next_handle] in Hrun.
    rewrite mark_ticks, map_app in Hrun. cbn [map] in Hrun.
    unfold bind at 1, GetV in Hrun.
    destruct response; cbn [is_nullish];
      unfold throw, ret, bind, liftW, UploadIntervals.setFiles, setState in Hrun;
      cbn [fst snd UploadIntervals.files UploadIntervals.live
           UploadIntervals.next_handle] in Hrun;
      rewrite ?map_app, ?List.map_map in Hrun; cbn [map] in Hrun;
      injection Hrun as _ <- _ _ <-;
      (split; [|reflexivity]);
      (f_equal;
       first [reflexivity
             | apply List.map_ext; intros f; apply mark_mark
             | rewrite ?mark_mark; unfold PDFUpload.mark; cbn;
               by rewrite String.eqb_refl]).
  - unfold bind, liftW, UploadIntervals.setFiles, setState in Hrun.
    cbn [fst snd UploadIntervals.files UploadIntervals.live
         UploadIntervals.next_handle] in Hrun.
    rewrite mark_ticks, map_app in Hrun. cbn [map] in Hrun.
    injection Hrun as _ <- _ _ <-. split; [|reflexivity].
    f_equal. unfold PDFUpload.mark. cbn. by rewrite String.eqb_refl.
Qed.
